(** * MultiMeshExport: batch STL export add-in

    A shallow embedding of [MultiMeshExport.py] and the properties of its
    file-name sanitizer, collision numbering, settings store, input-changed
    reactor, validation gate and export loop, on macOS and on Windows.

    Python strings are sequences of Unicode code points: a string is a
    [list N] of code points, so that [str.strip] can be given Python's own
    notion of whitespace.  Dictionaries are [gmap]s. *)

From Stdlib Require Import NArith ZArith String Ascii.
From stdpp Require Import base option list gmap strings pretty.

Set Default Proof Using "Type".

(* ====================================================================== *)
(** * Definitions *)
(* ====================================================================== *)

(** ** Strings *)

Abbreviation str := (list N).

(** The code points of an ASCII literal. *)
Definition text (s : string) : str :=
  (λ a, N_of_ascii a) <$> list_ascii_of_string s.
Arguments text : simpl never.

(** [str.isspace] on one character: the code points Python's
    [Py_UNICODE_ISSPACE] accepts. *)
Definition isspace (c : N) : bool :=
  ((9 <=? c) && (c <=? 13) || (28 <=? c) && (c <=? 32) ||
   (c =? 133) || (c =? 160) || (c =? 5760) ||
   (8192 <=? c) && (c <=? 8202) ||
   (c =? 8232) || (c =? 8233) || (c =? 8239) || (c =? 8287) ||
   (c =? 12288))%N.

Fixpoint lstrip (s : str) : str :=
  match s with
  | [] => []
  | c :: r => if isspace c then lstrip r else s
  end.

Definition rstrip (s : str) : str := reverse (lstrip (reverse s)).

(** [s.strip()] with no argument. *)
Definition strip (s : str) : str := rstrip (lstrip s).

(** ['{}'.format(n)] for a non-negative [int]. *)
Definition str_of_nat (n : nat) : str := text (pretty n).

(** ** Helpers of the add-in *)

(** The nine characters of the raw literal that [_safe_filename] tests
    membership in: backslash, slash, colon, star, question mark, double
    quote (code point 34), less-than, greater-than and vertical bar. *)
Definition illegal_chars : str :=
  text "\/:*?" ++ [34%N] ++ text "<>|".

(** [''.join(c for c in name if c not in ILLEGAL).strip() or 'body'] *)
Definition _safe_filename (name : str) : str :=
  match strip (filter (λ c, c ∉ illegal_chars) name) with
  | [] => text "body"
  | r => r
  end.

(** [sep.join(parts)] *)
Fixpoint join (sep : str) (parts : list str) : str :=
  match parts with
  | [] => []
  | [p] => p
  | p :: rest => p ++ sep ++ join sep rest
  end.

(** ** Paths *)

(** [os.name], which decides what [os.path] is: [posixpath] on [posix]
    (macOS), [ntpath] on [nt] (Windows).  [ntpath.join] compares drives
    through [str.lower]; its table is not part of the add-in and is taken
    as given. *)
Inductive Platform :=
  | posix
  | nt (lower : str → str).

(** [posixpath.join(a, b)] *)
Definition posixpath_join (a b : str) : str :=
  match b with
  | 47%N :: _ => b
  | _ =>
      match last a with
      | None => a ++ b
      | Some 47%N => a ++ b
      | Some _ => a ++ [47%N] ++ b
      end
  end.

(** A backslash or a slash: [c in seps] of [ntpath]. *)
Definition nt_is_sep (c : N) : bool := ((c =? 92) || (c =? 47))%N.

(** [normp.find(sep, start)], where [normp] is [p] with its slashes
    turned into backslashes. *)
Definition nt_find_sep (p : str) (start : nat) : option nat :=
  (λ hit, start + hit.1) <$> list_find (λ c, nt_is_sep c = true) (drop start p).

(** [normp[:8].upper() == unc_prefix], the prefix being two backslashes, a
    question mark, a backslash, the letters UNC and a backslash.  No
    character but these three letters and their lower-case forms is taken
    to one of them by [str.upper]. *)
Definition nt_unc_prefix (p : str) : bool :=
  match take 8 p with
  | [c0; c1; c2; c3; c4; c5; c6; c7] =>
      (nt_is_sep c0 && nt_is_sep c1 && (c2 =? 63) && nt_is_sep c3 &&
       ((c4 =? 85) || (c4 =? 117)) && ((c5 =? 78) || (c5 =? 110)) &&
       ((c6 =? 67) || (c6 =? 99)) && nt_is_sep c7)%N
  | _ => false
  end.

(** [ntpath.splitdrive(p)] *)
Definition nt_splitdrive (p : str) : str * str :=
  match p with
  | c0 :: c1 :: _ =>
      if nt_is_sep c0 && nt_is_sep c1 then
        let start := if nt_unc_prefix p then 8 else 2 in
        match nt_find_sep p start with
        | None => (p, [])
        | Some index =>
            match nt_find_sep p (index + 1) with
            | None => (p, [])
            | Some index2 => (take index2 p, drop index2 p)
            end
        end
      else if (c1 =? 58)%N then (take 2 p, drop 2 p)
      else ([], p)
  | _ => ([], p)
  end.

(** Whether a text starts with a separator of [ntpath]. *)
Definition nt_starts_sep (s : str) : bool :=
  match s with
  | c :: _ => nt_is_sep c
  | [] => false
  end.

(** Whether a text is not empty and does not end in a separator of
    [ntpath]. *)
Definition nt_open_end (s : str) : bool :=
  match last s with
  | Some c => negb (nt_is_sep c)
  | None => false
  end.

(** [ntpath.join(path, p)] *)
Definition ntpath_join (lower : str → str) (path p : str) : str :=
  let '(result_drive, result_path) := nt_splitdrive path in
  let '(p_drive, p_path) := nt_splitdrive p in
  let '(result_drive, result_path) :=
    if nt_starts_sep p_path then
      (if bool_decide (p_drive ≠ [] ∨ result_drive = [])
       then p_drive else result_drive,
       p_path)
    else if bool_decide (p_drive ≠ [] ∧ p_drive ≠ result_drive ∧
                         lower p_drive ≠ lower result_drive) then
      (p_drive, p_path)
    else
      (if bool_decide (p_drive ≠ [] ∧ p_drive ≠ result_drive)
       then p_drive else result_drive,
       (if nt_open_end result_path then result_path ++ [92%N]
        else result_path) ++ p_path) in
  if bool_decide (result_path ≠ []) && negb (nt_starts_sep result_path) &&
     bool_decide (result_drive ≠ [] ∧ last result_drive ≠ Some 58%N)
  then result_drive ++ [92%N] ++ result_path
  else result_drive ++ result_path.

(** [os.path.join(a, b)] *)
Definition os_path_join (pf : Platform) (a b : str) : str :=
  match pf with
  | posix => posixpath_join a b
  | nt lower => ntpath_join lower a b
  end.

(** Whether a character separates the parts of a path. *)
Definition is_sep (pf : Platform) (c : N) : bool :=
  match pf with
  | posix => (c =? 47)%N
  | nt _ => nt_is_sep c
  end.

(** Whether a text is a drive and nothing more; [posixpath] has no
    drives. *)
Definition is_drive (pf : Platform) (q : str) : bool :=
  match pf with
  | posix => false
  | nt _ => bool_decide ((nt_splitdrive q).2 = [])
  end.

(** The directories a path lies in that [os.makedirs] may have to make,
    outermost first: the path cut before each of its separators, but for
    the cuts that leave nothing, a text that ends in a separator, or a
    drive. *)
Definition ancestors (pf : Platform) (p : str) : list str :=
  omap (λ i, match p !! i, last (take i p) with
             | Some c, Some d =>
                 if is_sep pf c && negb (is_sep pf d)
                    && negb (is_drive pf (take i p))
                 then Some (take i p)
                 else None
             | _, _ => None
             end)
       (seq 0 (length p)).

(** ** The host's object model *)

(** A [BRepBody]: its display name, its entity token, and whether
    [addSelection] accepts it (suppressed or invisible bodies are refused). *)
Record Body := mkBody {
  name : str;
  entityToken : str;
  selectable : bool;
}.

#[global] Instance Body_eq_dec : EqDecision Body.
Proof. solve_decision. Defined.

Record Component := mkComponent { bRepBodies : list Body }.

Record Design := mkDesign { allComponents : list Component }.

Inductive MeshRefinement :=
  MeshRefinementHigh | MeshRefinementMedium | MeshRefinementLow.

#[global] Instance MeshRefinement_eq_dec : EqDecision MeshRefinement.
Proof. solve_decision. Defined.

(** The identifiers of the command inputs.  The rows of the name list have
    the ids ['saveName_{}'.format(i)]; [saveName i] carries the index that
    [int(changed.id.split('_')[1])] reads back. *)
Inductive InputId :=
  | bodySelection
  | selectAll
  | bodyListGroup
  | quality
  | outputPath
  | browseFolder
  | saveName (i : nat).

#[global] Instance InputId_eq_dec : EqDecision InputId.
Proof. solve_decision. Defined.

(** A [StringValueCommandInput] of the name list. *)
Record Row := mkRow {
  row_index : nat;
  row_label : str;
  row_value : str;
}.

(** The command inputs of the dialog.  [None] is an input that
    [inputs.itemById] does not find (the Python [None]). *)
Record Dialog := mkDialog {
  d_bodySelection : option (list Body);
  d_selectAll : option bool;
  d_bodyListGroup : option (list Row);
  d_quality : option (list (str * bool));
  d_outputPath : option str;
  d_browseFolder : option bool;
}.

(** ** The file system and the settings file *)

Inductive Entry :=
  | File (removable : bool)
  | Dir.

(** A value of a key of the settings object, or an item of a list.  The
    add-in reads one key, [outputPath], and the host tells a [str] from
    everything else; so a number stands for any number, and a value that
    is itself a list or an object is not told apart from the other values
    that are no [str]. *)
Inductive jval :=
  | JString (s : str)
  | JNumber (z : Z)
  | JBool (b : bool)
  | JNull.

(** What [json.load] makes of a document: a dict of an object, and of any
    other document a value that is no dict (a list, a [str], a number, a
    [bool] or [None]). *)
Inductive json :=
  | JObject (d : gmap str jval)
  | JList (items : list jval)
  | JValue (v : jval).

(** What happens when [settings.json] is opened for writing and dumped. *)
Inductive WriteMode :=
  | WriteOk
  | OpenFails
  | DumpFails.

(** ** Exceptions, effects and the world *)

Inductive ExnClass := AttributeError | KeyError | OSError | RuntimeError.

(** An exception of a class under [Exception] with its [str(ex)]. *)
Record exn := Exn { exn_class : ExnClass; exn_str : str }.

Inductive Message :=
  | MsgText (s : str)
  | MsgTraceback (prefix : str) (e : exn).

(** The calls into the host and the operating system that a handler made,
    oldest first. *)
Inductive Effect :=
  | EMakedirs (p : str)
  | ERemove (p : str) (ok : bool)
  | EExport (b : Body) (p : str) (q : MeshRefinement) (fault : option str)
  | EFolderDialog (initialDirectory : option str)
  | EMessageBox (m : Message).

Record Progress := mkProgress {
  shown : bool;
  progressValue : nat;
  maximumValue : nat;
  wasCancelled : bool;
}.

(** The module globals, the host application, the file system and the
    user.  [files] maps a path, as the add-in writes it, to what is there;
    two texts are two places.  [settings_json] is what [json.load] makes
    of [settings.json] ([None]: the file cannot be opened or parsed).
    [folder_pick], [cancel_click] and [export_fault] are what the user and
    the export facility will do: the folder chosen in the folder dialog
    ([None]: dismissed), whether the n-th call of [adsk.doEvents] delivers
    a click on Cancel, and the text of the exception the export of a body
    to a path raises, if any.  [mkdir_fault] is the text of the [OSError]
    that making a missing directory raises for a reason [files] does not
    show (no permission, a read-only disk, a name the file system
    refuses), if any. *)
Record World := mkWorld {
  _updating : bool;
  _custom_names : gmap str str;
  activeProduct : option Design;
  inputs : Dialog;
  files : gmap str Entry;
  settings_json : option json;
  settings_write : WriteMode;
  folder_pick : option str;
  cancel_click : nat → bool;
  export_fault : gmap str Entry → Body → str → option str;
  pumps : nat;
  prog : Progress;
  trace : list Effect;
  os_name : Platform;
  mkdir_fault : str → option str;
}.

Definition set_updating (b : bool) (w : World) : World :=
  mkWorld b (_custom_names w) (activeProduct w) (inputs w) (files w)
    (settings_json w) (settings_write w) (folder_pick w) (cancel_click w)
    (export_fault w) (pumps w) (prog w) (trace w)
    (os_name w) (mkdir_fault w).

Definition set_custom_names (m : gmap str str) (w : World) : World :=
  mkWorld (_updating w) m (activeProduct w) (inputs w) (files w)
    (settings_json w) (settings_write w) (folder_pick w) (cancel_click w)
    (export_fault w) (pumps w) (prog w) (trace w)
    (os_name w) (mkdir_fault w).

Definition set_inputs (d : Dialog) (w : World) : World :=
  mkWorld (_updating w) (_custom_names w) (activeProduct w) d (files w)
    (settings_json w) (settings_write w) (folder_pick w) (cancel_click w)
    (export_fault w) (pumps w) (prog w) (trace w)
    (os_name w) (mkdir_fault w).

Definition set_files (f : gmap str Entry) (w : World) : World :=
  mkWorld (_updating w) (_custom_names w) (activeProduct w) (inputs w) f
    (settings_json w) (settings_write w) (folder_pick w) (cancel_click w)
    (export_fault w) (pumps w) (prog w) (trace w)
    (os_name w) (mkdir_fault w).

Definition set_settings_json (j : option json) (w : World) : World :=
  mkWorld (_updating w) (_custom_names w) (activeProduct w) (inputs w)
    (files w) j (settings_write w) (folder_pick w) (cancel_click w)
    (export_fault w) (pumps w) (prog w) (trace w)
    (os_name w) (mkdir_fault w).

Definition set_pumps (n : nat) (w : World) : World :=
  mkWorld (_updating w) (_custom_names w) (activeProduct w) (inputs w)
    (files w) (settings_json w) (settings_write w) (folder_pick w)
    (cancel_click w) (export_fault w) n (prog w) (trace w)
    (os_name w) (mkdir_fault w).

Definition set_prog (p : Progress) (w : World) : World :=
  mkWorld (_updating w) (_custom_names w) (activeProduct w) (inputs w)
    (files w) (settings_json w) (settings_write w) (folder_pick w)
    (cancel_click w) (export_fault w) (pumps w) p (trace w)
    (os_name w) (mkdir_fault w).

Definition set_trace (t : list Effect) (w : World) : World :=
  mkWorld (_updating w) (_custom_names w) (activeProduct w) (inputs w)
    (files w) (settings_json w) (settings_write w) (folder_pick w)
    (cancel_click w) (export_fault w) (pumps w) (prog w) t
    (os_name w) (mkdir_fault w).

Definition set_bodySelection (sel : list Body) (d : Dialog) : Dialog :=
  mkDialog (Some sel) (d_selectAll d) (d_bodyListGroup d) (d_quality d)
    (d_outputPath d) (d_browseFolder d).

Definition set_selectAll (v : bool) (d : Dialog) : Dialog :=
  mkDialog (d_bodySelection d) (Some v) (d_bodyListGroup d) (d_quality d)
    (d_outputPath d) (d_browseFolder d).

Definition set_bodyListGroup (rows : list Row) (d : Dialog) : Dialog :=
  mkDialog (d_bodySelection d) (d_selectAll d) (Some rows) (d_quality d)
    (d_outputPath d) (d_browseFolder d).

Definition set_outputPath (v : str) (d : Dialog) : Dialog :=
  mkDialog (d_bodySelection d) (d_selectAll d) (d_bodyListGroup d)
    (d_quality d) (Some v) (d_browseFolder d).

Definition set_browseFolder (v : bool) (d : Dialog) : Dialog :=
  mkDialog (d_bodySelection d) (d_selectAll d) (d_bodyListGroup d)
    (d_quality d) (d_outputPath d) (Some v).

(** ** Handler code: state and exceptions *)

Inductive result (A : Type) :=
  | Ok (a : A)
  | Raise (e : exn).
Arguments Ok {A} a.
Arguments Raise {A} e.

(** A piece of handler code: it runs in a world, changes it, and returns a
    value or raises.  What it changed before raising stays changed. *)
Definition Py (A : Type) : Type := World → result A * World.

#[global] Instance Py_ret : MRet Py := λ A a w, (Ok a, w).

#[global] Instance Py_bind : MBind Py := λ A B f c w,
  match c w with
  | (Ok a, w') => f a w'
  | (Raise e, w') => (Raise e, w')
  end.

(** [raise e] *)
Definition throw {A : Type} (e : exn) : Py A := λ w, (Raise e, w).

Definition py_raise {A : Type} (cls : ExnClass) (msg : string) : Py A :=
  throw (Exn cls (text msg)).

Definition gets {A : Type} (f : World → A) : Py A := λ w, (Ok (f w), w).

Definition modify (f : World → World) : Py unit := λ w, (Ok (), f w).

(** [try: c / except Exception as ex: ...], with the outcome handed to the
    code that follows. *)
Definition try_except {A : Type} (c : Py A) : Py (result A) :=
  λ w, let '(r, w') := c w in (Ok r, w').

(** An attribute of an object that may be [None]. *)
Definition attr {A : Type} (o : option A) : Py A :=
  match o with
  | Some a => mret a
  | None => py_raise AttributeError "'NoneType' object has no attribute"
  end.

Fixpoint for_each {A : Type} (body : A → Py unit) (xs : list A) : Py unit :=
  match xs with
  | [] => mret ()
  | x :: rest => body x;; for_each body rest
  end.

Definition log (e : Effect) : Py unit :=
  modify (λ w, set_trace (trace w ++ [e]) w).

(** [_ui.messageBox(...)] *)
Definition messageBox (m : Message) : Py unit := log (EMessageBox m).

(** ** The operating system *)

Definition os_path_exists (p : str) : Py bool :=
  gets (λ w, bool_decide (is_Some (files w !! p))).

Definition os_path_isdir (p : str) : Py bool :=
  gets (λ w, match files w !! p with Some Dir => true | _ => false end).

(** [os.remove(p)]: only a removable file goes away; anything else is an
    [OSError]. *)
Definition os_remove (p : str) : Py unit :=
  entry ← gets (λ w, files w !! p);
  match entry with
  | Some (File true) =>
      modify (λ w, set_files (delete p (files w)) w);;
      log (ERemove p true)
  | _ =>
      log (ERemove p false);;
      py_raise OSError "cannot remove"
  end.

(** [os.mkdir(q)] for a directory that is missing and lies in a
    directory. *)
Definition os_mkdir (q : str) : Py unit :=
  fault ← gets (λ w, mkdir_fault w q);
  match fault with
  | Some msg => throw (Exn OSError msg)
  | None => modify (λ w, set_files (<[q := Dir]> (files w)) w)
  end.

Definition is_file (entry : option Entry) : bool :=
  match entry with
  | Some (File _) => true
  | _ => false
  end.

Definition is_missing (entry : option Entry) : bool :=
  match entry with
  | None => true
  | Some _ => false
  end.

(** [os.makedirs(p, exist_ok=True)].  A directory at [p] is left as it is;
    a file at [p], or a file where a directory above [p] should be, is an
    [OSError]; otherwise the missing directories above [p] and [p] itself
    are made, outermost first, up to the first that cannot be. *)
Definition os_makedirs (p : str) : Py unit :=
  fs ← gets files;
  pf ← gets os_name;
  log (EMakedirs p);;
  match p, fs !! p with
  | [], _ => py_raise OSError "No such file or directory"
  | _, Some Dir => mret ()
  | _, Some (File _) => py_raise OSError "File exists"
  | _, None =>
      let above := ancestors pf p in
      if existsb (λ q, is_file (fs !! q)) above
      then py_raise OSError "Not a directory"
      else
        for_each os_mkdir
          (filter (λ q, is_missing (fs !! q) = true) above ++ [p])
  end.

(** ** Settings *)

(** [type(o).__name__] *)
Definition type_name (o : json) : string :=
  match o with
  | JObject _ => "dict"
  | JList _ => "list"
  | JValue (JString _) => "str"
  | JValue (JNumber _) => "int"
  | JValue (JBool _) => "bool"
  | JValue JNull => "NoneType"
  end.

(** [o.attribute] for an attribute that the type of [o] does not have. *)
Definition no_attribute {A : Type} (o : json) (attribute : string) : Py A :=
  throw (Exn AttributeError
           (text "'" ++ text (type_name o) ++
            text "' object has no attribute '" ++ text attribute ++ text "'")).

(** [_load_settings()]: what [json.load] makes of [settings.json], which
    is a dict only if the document is an object; any failure gives the
    empty dict. *)
Definition _load_settings : Py json :=
  gets (λ w, default (JObject ∅) (settings_json w)).

(** [_save_settings(data)].  [settings.update(data)], which is outside
    the [try], is the union that prefers [data] when [settings] is a dict,
    and an [AttributeError] when it is not. *)
Definition _save_settings (data : gmap str jval) : Py unit :=
  settings ← _load_settings;
  match settings with
  | JObject settings =>
      let settings := data ∪ settings in
      modify (λ w,
        match settings_write w with
        | WriteOk => set_settings_json (Some (JObject settings)) w
        | OpenFails => w
        | DumpFails => set_settings_json None w
        end)
  | _ => no_attribute settings "update"
  end.

(** ** Helpers *)

Definition _all_bodies (design : Design) : list Body :=
  concat (bRepBodies <$> allComponents design).

(** [group.children] emptied, then one row per selected body. *)
Definition _rebuild_name_list : Py unit :=
  d ← gets inputs;
  match d_bodySelection d, d_bodyListGroup d with
  | Some sel, Some _ =>
      custom ← gets _custom_names;
      let rows :=
        imap (λ i body,
                mkRow i (name body)
                  (default (_safe_filename (name body))
                           (custom !! entityToken body))) sel in
      modify (λ w, set_inputs (set_bodyListGroup rows (inputs w)) w)
  | _, _ => mret ()
  end.

(** ** The input-changed reactor *)

Section Reactor.
(** The host delivering an input-changed event to the registered handler
    from inside an API call that changed an input. *)
Variable fire : InputId → World → World.

Definition fire_event (changed : InputId) : Py unit := modify (fire changed).

(** [sel.addSelection(body)] *)
Definition addSelection (body : Body) : Py unit :=
  d ← gets inputs;
  sel ← attr (d_bodySelection d);
  if selectable body then
    if decide (body ∈ sel) then mret ()
    else
      modify (λ w, set_inputs (set_bodySelection (sel ++ [body]) (inputs w)) w);;
      fire_event bodySelection
  else py_raise RuntimeError "entity cannot be selected".

(** [sel.clearSelection()] *)
Definition clearSelection : Py unit :=
  d ← gets inputs;
  _ ← attr (d_bodySelection d);
  modify (λ w, set_inputs (set_bodySelection [] (inputs w)) w);;
  fire_event bodySelection.

(** [chk.value = v] on the select-all check box *)
Definition assign_selectAll (v : bool) : Py unit :=
  d ← gets inputs;
  _ ← attr (d_selectAll d);
  modify (λ w, set_inputs (set_selectAll v (inputs w)) w);;
  fire_event selectAll.

(** [path_inp.value = v] *)
Definition assign_outputPath (v : str) : Py unit :=
  d ← gets inputs;
  _ ← attr (d_outputPath d);
  modify (λ w, set_inputs (set_outputPath v (inputs w)) w);;
  fire_event outputPath.

(** [chk.value = v] on the browse button *)
Definition assign_browseFolder (v : bool) : Py unit :=
  d ← gets inputs;
  _ ← attr (d_browseFolder d);
  modify (λ w, set_inputs (set_browseFolder v (inputs w)) w);;
  fire_event browseFolder.

(** The branch [changed.id == 'selectAll']. *)
Definition on_selectAll : Py unit :=
  design ← gets activeProduct;
  match design with
  | None => mret ()
  | Some design =>
      d ← gets inputs;
      chk ← attr (d_selectAll d);
      (if chk : bool then
         for_each (λ body, _ ← try_except (addSelection body); mret ())
                  (_all_bodies design)
       else clearSelection);;
      _rebuild_name_list
  end.

(** The branch [changed.id == 'bodySelection']. *)
Definition on_bodySelection : Py unit :=
  d ← gets inputs;
  design ← gets activeProduct;
  match design with
  | Some design =>
      let total := length (_all_bodies design) in
      v ← (if decide (0 < total) then
             sel ← attr (d_bodySelection d);
             mret (bool_decide (length sel = total))
           else mret false);
      assign_selectAll v
  | None => mret ()
  end;;
  _rebuild_name_list.

(** The branch [changed.id.startswith('saveName_')]; [changed] is the row
    of the name list that has the index [idx]. *)
Definition on_saveName (idx : nat) : Py unit :=
  d ← gets inputs;
  match d_bodySelection d with
  | Some sel =>
      match sel !! idx with
      | Some body =>
          changed ← attr (d_bodyListGroup d ≫=
                          list_find (λ r, row_index r = idx));
          modify (λ w,
            set_custom_names
              (<[entityToken body := row_value (changed.2)]>
                 (_custom_names w)) w)
      | None => mret ()
      end
  | None => mret ()
  end.

(** The branch [changed.id == 'browseFolder']. *)
Definition on_browseFolder : Py unit :=
  d ← gets inputs;
  chk ← attr (d_browseFolder d);
  if chk : bool then
    path_inp ← attr (d_outputPath d);
    isdir ← os_path_isdir path_inp;
    log (EFolderDialog (if isdir : bool then Some path_inp else None));;
    pick ← gets folder_pick;
    match pick with
    | Some folder => assign_outputPath folder
    | None => mret ()
    end;;
    assign_browseFolder false
  else mret ().

(** The body of the [try] block. *)
Definition reaction (changed : InputId) : Py unit :=
  match changed with
  | selectAll => on_selectAll
  | bodySelection => on_bodySelection
  | saveName idx => on_saveName idx
  | browseFolder => on_browseFolder
  | _ => mret ()
  end.

(** One activation of [_OnInputChanged.notify]: the guard, the [try]
    block, [except Exception] and [finally]. *)
Definition notify_frame (changed : InputId) (w : World) : World :=
  if _updating w then w
  else
    let w := set_updating true w in
    let '(r, w) := reaction changed w in
    let w := match r with
             | Ok _ => w
             | Raise e => (messageBox (MsgTraceback [] e) w).2
             end in
    set_updating false w.

End Reactor.

(** [_OnInputChanged.notify].  Activations nest: the API calls of a running
    reaction call the handler back.  [depth] bounds the nesting; nothing
    runs at depth 0.  A nested activation finds [_updating] set and returns
    at once, so the handler is the same at every positive depth. *)
Fixpoint _OnInputChanged_notify (depth : nat) (changed : InputId) (w : World)
  : World :=
  match depth with
  | 0 => w
  | S d => notify_frame (_OnInputChanged_notify d) changed w
  end.

(** The events of a session delivered one after the other, each after the
    handler has returned from the one before; the result lists, for each
    event, whether the guard let it through, and the world it left. *)
Fixpoint deliver (depth : nat) (events : list InputId) (w : World)
  : list bool * World :=
  match events with
  | [] => ([], w)
  | changed :: rest =>
      let handled := negb (_updating w) in
      let '(hs, w') := deliver depth rest (_OnInputChanged_notify depth changed w) in
      (handled :: hs, w')
  end.

(** ** The validation gate *)

Definition validate : Py bool :=
  d ← gets inputs;
  sel ← attr (d_bodySelection d);
  if decide (0 < length sel) then
    path ← attr (d_outputPath d);
    mret (bool_decide (0 < length (strip path)))
  else mret false.

(** [_OnValidateInputs.notify]: the value left in [args.areInputsValid]. *)
Definition _OnValidateInputs_notify (w : World) : bool :=
  match validate w with
  | (Ok valid, _) => valid
  | (Raise _, _) => false
  end.


(** ** The execute handler *)

(** [QUALITY.get(name, QUALITY['High'])] *)
Definition QUALITY_get (item : str) : MeshRefinement :=
  if decide (item = text "High") then MeshRefinementHigh
  else if decide (item = text "Medium") then MeshRefinementMedium
  else if decide (item = text "Low") then MeshRefinementLow
  else MeshRefinementHigh.

(** [q_dd.selectedItem]: the name of the selected list item. *)
Definition selectedItem (items : list (str * bool)) : option str :=
  (λ hit, hit.2.1) <$> list_find (λ it, it.2 = true) items.

(** The name a body is exported under before numbering: the value of its
    row of the name list, or its display name when the row is missing. *)
Definition raw_name (children : option (list Row)) (i : nat) (body : Body)
  : str :=
  _safe_filename
    match children with
    | Some rows =>
        if decide (i < length rows) then
          match list_find (λ r, row_index r = i) rows with
          | Some (_, inp) => row_value inp
          | None => name body
          end
        else name body
    | None => name body
    end.

Definition raw_names (children : option (list Row)) (bodies : list Body)
  : list str :=
  imap (raw_name children) bodies.

(** The loop that fills [name_count]. *)
Definition count_names (raw_names : list str) : gmap str nat :=
  foldl (λ name_count n, <[n := default 0 (name_count !! n) + 1]> name_count)
        ∅ raw_names.

(** [fname] for the [idx]-th body named [n].  [name_count[n]] is read with
    the key present: the loop above counted every name of [raw_names]. *)
Definition numbered (name_count : gmap str nat) (n : str) (idx : nat) : str :=
  if decide (1 < name_count !!! n)
  then n ++ text " (" ++ str_of_nat idx ++ text ")"
  else n.

(** One turn of the loop over [zip(bodies, raw_names)]; the state is
    [name_idx] and [export_jobs]. *)
Definition number_step (pf : Platform) (output_dir : str)
    (name_count : gmap str nat)
    (st : gmap str nat * list (Body * str)) (bn : Body * str)
  : gmap str nat * list (Body * str) :=
  let idx := default 0 (st.1 !! bn.2) + 1 in
  let fname := numbered name_count bn.2 idx in
  (<[bn.2 := idx]> st.1,
   st.2 ++ [(bn.1, os_path_join pf output_dir (fname ++ text ".stl"))]).

Definition build_jobs (pf : Platform) (output_dir : str) (bodies : list Body)
    (raw_names : list str) : list (Body * str) :=
  (foldl (number_step pf output_dir (count_names raw_names)) (∅, [])
         (zip bodies raw_names)).2.

(** [for x in xs] with a local variable carried from turn to turn. *)
Fixpoint for_fold {A S : Type} (body : S → A → Py S) (s : S) (xs : list A)
  : Py S :=
  match xs with
  | [] => mret s
  | x :: rest => s' ← body s x; for_fold body s' rest
  end.

(** One turn of the loop of phase 1. *)
Definition remove_if_exists (overwritten : nat) (job : Body * str) : Py nat :=
  found ← os_path_exists job.2;
  if found : bool then
    r ← try_except (os_remove job.2);
    match r with
    | Ok _ => mret (overwritten + 1)
    | Raise e =>
        match exn_class e with
        | OSError => mret overwritten
        | _ => throw e
        end
    end
  else mret overwritten.

(** Phase 1; the value is [overwritten]. *)
Definition remove_existing (export_jobs : list (Body * str)) : Py nat :=
  for_fold remove_if_exists 0 export_jobs.

(** [adsk.doEvents()]: the host handles what is pending; a click on the
    Cancel button of a shown progress dialog sets [wasCancelled]. *)
Definition doEvents : Py unit :=
  modify (λ w,
    let p := prog w in
    let clicked := shown p && cancel_click w (pumps w) in
    set_pumps (S (pumps w))
      (set_prog (mkProgress (shown p) (progressValue p) (maximumValue p)
                            (wasCancelled p || clicked)) w)).

Definition prog_show (total : nat) : Py unit :=
  modify (set_prog (mkProgress true 0 total false)).

Definition prog_set_progressValue (v : nat) : Py unit :=
  modify (λ w,
    let p := prog w in
    set_prog (mkProgress (shown p) v (maximumValue p) (wasCancelled p)) w).

Definition prog_hide : Py unit :=
  modify (λ w,
    let p := prog w in
    set_prog (mkProgress false (progressValue p) (maximumValue p)
                         (wasCancelled p)) w).

(** [createSTLExportOptions], [meshRefinement] and [export_mgr.execute]:
    the facility writes the file or raises. *)
Definition export_execute (body : Body) (fpath : str) (q : MeshRefinement)
  : Py unit :=
  fault ← gets (λ w, export_fault w (files w) body fpath);
  log (EExport body fpath q fault);;
  match fault with
  | None => modify (λ w, set_files (<[fpath := File true]> (files w)) w)
  | Some msg => throw (Exn RuntimeError msg)
  end.

(** The locals [exported], [errors] and [cancelled] of the export loop. *)
Record Tally := mkTally {
  exported : nat;
  errors : list str;
  cancelled : bool;
}.

(** The loop [for i, (body, fpath) in enumerate(export_jobs)] from its
    [i]-th turn on. *)
Fixpoint export_loop (q : MeshRefinement) (i : nat)
    (export_jobs : list (Body * str)) (t : Tally) : Py Tally :=
  match export_jobs with
  | [] => mret t
  | job :: rest =>
      doEvents;;
      stop ← gets (λ w, wasCancelled (prog w));
      if stop : bool then mret (mkTally (exported t) (errors t) true)
      else
        prog_set_progressValue i;;
        doEvents;;
        r ← try_except (export_execute job.1 job.2 q);
        match r with
        | Ok _ =>
            export_loop q (S i) rest
              (mkTally (exported t + 1) (errors t) (cancelled t))
        | Raise ex =>
            export_loop q (S i) rest
              (mkTally (exported t)
                 (errors t ++ [name job.1 ++ text ": " ++ exn_str ex])
                 (cancelled t))
        end
  end.

(** The list [msg] of the summary. *)
Definition summary (t : Tally) (overwritten : nat) (output_dir : str)
  : list str :=
  [text "Exported: " ++ str_of_nat (exported t)] ++
  (if decide (overwritten = 0) then []
   else [text "Overwritten: " ++ str_of_nat overwritten]) ++
  (match errors t with
   | [] => []
   | _ => (text "Errors:   " ++ str_of_nat (length (errors t))) ::
          ((λ e, text "  " ++ [8226%N] ++ text " " ++ e) <$> errors t)
   end) ++
  (if cancelled t then [[10%N] ++ text "Export cancelled by user."] else []) ++
  [[10%N] ++ text "Location: " ++ output_dir].

(** Phases 1 and 2 and the summary, for a job list. *)
Definition run_jobs (q : MeshRefinement) (output_dir : str)
    (export_jobs : list (Body * str)) : Py (Tally * nat) :=
  overwritten ← remove_existing export_jobs;
  let total := length export_jobs in
  prog_show total;;
  doEvents;;
  t ← export_loop q 0 export_jobs (mkTally 0 [] false);
  prog_set_progressValue total;;
  doEvents;;
  prog_hide;;
  messageBox (MsgText (join [10%N] (summary t overwritten output_dir)));;
  mret (t, overwritten).

(** The body of the [try] block of [_OnExecute.notify]; the value is the
    job list and what [run_jobs] returned, or [None] after the early
    return. *)
Definition execute : Py (option (list (Body * str) * (Tally * nat))) :=
  d ← gets inputs;
  bodies ← attr (d_bodySelection d);
  items ← attr (d_quality d);
  item ← attr (selectedItem items);
  let q := QUALITY_get item in
  path_inp ← attr (d_outputPath d);
  let output_dir := strip path_inp in
  match bodies with
  | [] => messageBox (MsgText (text "No bodies selected."));; mret None
  | _ =>
      os_makedirs output_dir;;
      _save_settings {[ text "outputPath" := JString output_dir ]};;
      design ← gets activeProduct;
      _ ← attr design;
      let children := d_bodyListGroup d in
      pf ← gets os_name;
      let export_jobs :=
        build_jobs pf output_dir bodies (raw_names children bodies) in
      r ← run_jobs q output_dir export_jobs;
      mret (Some (export_jobs, r))
  end.

(** [_OnExecute.notify] *)
Definition _OnExecute_notify (w : World) : World :=
  match execute w with
  | (Ok _, w') => w'
  | (Raise e, w') =>
      (messageBox (MsgTraceback (text "Export failed:" ++ [10%N]) e) w').2
  end.

(** ** What a trace shows *)

Definition removal (e : Effect) : option (str * bool) :=
  match e with
  | ERemove p ok => Some (p, ok)
  | _ => None
  end.

Definition export (e : Effect) : option (Body * str * option str) :=
  match e with
  | EExport b p _ fault => Some (b, p, fault)
  | _ => None
  end.

(** The [os.remove] calls of a trace, with their success. *)
Definition removals (tr : list Effect) : list (str * bool) := omap removal tr.

(** The exports of a trace, with the fault each one raised. *)
Definition exports (tr : list Effect) : list (Body * str * option str) :=
  omap export tr.

(** ** The user *)

(** The user picks one more body in the canvas: the host adds it to the
    selection and reports the change. *)
Definition user_selects (depth : nat) (body : Body) (w : World) : World :=
  match d_bodySelection (inputs w) with
  | Some sel =>
      _OnInputChanged_notify depth bodySelection
        (set_inputs (set_bodySelection (sel ++ [body]) (inputs w)) w)
  | None => w
  end.

(** The user clicks the select-all check box: the host flips it and
    reports the change. *)
Definition user_clicks_selectAll (depth : nat) (w : World) : World :=
  match d_selectAll (inputs w) with
  | Some v =>
      _OnInputChanged_notify depth selectAll
        (set_inputs (set_selectAll (negb v) (inputs w)) w)
  | None => w
  end.

(** ** Vocabulary for the re-entrancy guard *)

(** A handler that leaves the world alone while [_updating] is set. *)
Definition guarded (fire : InputId → World → World) : Prop :=
  ∀ changed w, _updating w = true → fire changed w = w.

(** Two pieces of code that do the same in every world where [_updating]
    is set, and leave it set. *)
Definition agree {A : Type} (c1 c2 : Py A) : Prop :=
  ∀ w, _updating w = true → c1 w = c2 w ∧ _updating (c1 w).2 = true.

(** The lines of [errors] that a list of exports accounts for. *)
Definition error_lines (outcome : list (Body * str * option str)) : list str :=
  omap (λ x, (λ msg, name x.1.1 ++ text ": " ++ msg) <$> x.2) outcome.

(** The exports of a list that raised nothing. *)
Definition successes (outcome : list (Body * str * option str)) : nat :=
  length (filter (λ x, x.2 = None) outcome).

(** Whether [prog.wasCancelled] holds once [adsk.doEvents] has run [n]
    more times. *)
Definition clicked_by (w : World) (n : nat) : bool :=
  wasCancelled (prog w) ||
  shown (prog w) && existsb (cancel_click w) (seq (pumps w) n).

(** Whether one of the next [n] calls of [adsk.doEvents] delivers a click
    on Cancel. *)
Definition cancel_delivered (w : World) (n : nat) : bool :=
  existsb (cancel_click w) (seq (pumps w) n).

(** ** Vocabulary for the numbering *)

(** How often a name occurs in a list of names. *)
Definition occurrences (n : str) (names : list str) : nat :=
  length (filter (λ x, x = n) names).

(** ** A session to run the handlers on *)

(** The inputs as [_OnCommandCreated.notify] creates them: nothing
    selected, select-all unchecked, no rows, High selected, the saved path,
    the browse button up. *)
Definition created_dialog (saved_path : str) : Dialog :=
  mkDialog (Some []) (Some false) (Some [])
    (Some [(text "High", true); (text "Medium", false); (text "Low", false)])
    (Some saved_path) (Some false).

(** A world with a design open, an empty disk on macOS where every
    directory can be made, a user who never cancels and an export facility
    that never fails. *)
Definition quiet_world (design : Design) (d : Dialog) : World :=
  mkWorld false ∅ (Some design) d ∅ None WriteOk None (λ _, false)
    (λ _ _ _, None) 0 (mkProgress false 0 0 false) [] posix (λ _, None).

Definition body_named (n token : string) : Body :=
  mkBody (text n) (text token) true.

(** ** The command-created handler *)

(** The inputs of a command that was just created: none. *)
Definition no_inputs : Dialog := mkDialog None None None None None None.

Definition set_quality (items : list (str * bool)) (d : Dialog) : Dialog :=
  mkDialog (d_bodySelection d) (d_selectAll d) (d_bodyListGroup d)
    (Some items) (d_outputPath d) (d_browseFolder d).

Definition add_input (f : Dialog → Dialog) : Py unit :=
  modify (λ w, set_inputs (f (inputs w)) w).

(** The body of the [try] block of [_OnCommandCreated.notify];
    [downloads] is the value of [_downloads_folder()].  A saved
    [outputPath] that is not a string makes [addStringValueInput] raise;
    the class of that exception is not told apart here. *)
Definition command_created (downloads : str) : Py unit :=
  modify (set_inputs no_inputs);;
  design ← gets activeProduct;
  match design with
  | None =>
      messageBox (MsgText (text "No active design." ++ [10%N] ++
                           text "Open or create a design first."))
  | Some _ =>
      add_input (set_bodySelection []);;
      add_input (set_selectAll false);;
      modify (set_custom_names ∅);;
      add_input (set_bodyListGroup []);;
      add_input (set_quality [(text "High", true); (text "Medium", false);
                              (text "Low", false)]);;
      settings ← _load_settings;
      saved ← match settings with
              | JObject settings => mret (settings !! text "outputPath")
              | _ => no_attribute settings "get"
              end;
      saved_path ← match saved with
                   | None => mret downloads
                   | Some (JString s) => mret s
                   | Some _ => py_raise RuntimeError "argument must be str"
                   end;
      add_input (set_outputPath saved_path);;
      add_input (set_browseFolder false)
  end.

(** [_OnCommandCreated.notify] *)
Definition _OnCommandCreated_notify (downloads : str) (w : World) : World :=
  match command_created downloads w with
  | (Ok _, w') => w'
  | (Raise e, w') => (messageBox (MsgTraceback [] e) w').2
  end.

(** The user types [v] into the row [saveName_i] of the name list: the
    host stores the text in the row and reports the change. *)
Definition user_edits_name (depth : nat) (i : nat) (v : str) (w : World)
  : World :=
  match d_bodyListGroup (inputs w) with
  | Some rows =>
      _OnInputChanged_notify depth (saveName i)
        (set_inputs
           (set_bodyListGroup
              ((λ r, if decide (row_index r = i)
                     then mkRow (row_index r) (row_label r) v else r) <$> rows)
              (inputs w)) w)
  | None => w
  end.

(** The user presses the browse button: the host sets it and reports the
    change. *)
Definition user_clicks_browse (depth : nat) (w : World) : World :=
  match d_browseFolder (inputs w) with
  | Some _ =>
      _OnInputChanged_notify depth browseFolder
        (set_inputs (set_browseFolder true (inputs w)) w)
  | None => w
  end.

(** ** Starting and stopping the add-in *)

Definition CMD_ID : str := text "multiMeshExportCmd".

Definition ADDINS_PANEL : str := text "SolidScriptsAddinsPanel".

Inductive Handler :=
  | OnCommandCreated
  | OnExecute
  | OnInputChanged
  | OnValidateInputs.

(** The part of the user interface that [run] and [stop] work on: the ids
    of the command definitions, the ids of the controls of each toolbar
    panel, the global [_handlers], and the message boxes shown. *)
Record Ui := mkUi {
  commandDefinitions : gset str;
  allToolbarPanels : gmap str (gset str);
  _handlers : list Handler;
  boxes : list Message;
}.

(** [run(context)].  The only call that can fail is the one on the panel,
    when the host has no panel of that id. *)
Definition run (u : Ui) : Ui :=
  let defs := if decide (CMD_ID ∈ commandDefinitions u)
              then commandDefinitions u ∖ {[ CMD_ID ]}
              else commandDefinitions u in
  let defs := defs ∪ {[ CMD_ID ]} in
  match allToolbarPanels u !! ADDINS_PANEL with
  | None =>
      mkUi defs (allToolbarPanels u) (_handlers u)
        (boxes u ++
         [MsgTraceback (text "Multi Mesh Export failed to start:" ++ [10%N])
            (Exn AttributeError (text "'NoneType' object has no attribute"))])
  | Some controls =>
      let controls := if decide (CMD_ID ∈ controls)
                      then controls ∖ {[ CMD_ID ]} else controls in
      mkUi defs
        (<[ADDINS_PANEL := controls ∪ {[ CMD_ID ]}]> (allToolbarPanels u))
        (_handlers u ++ [OnCommandCreated]) (boxes u)
  end.

(** [stop(context)] *)
Definition stop (u : Ui) : Ui :=
  let panels :=
    match allToolbarPanels u !! ADDINS_PANEL with
    | Some controls =>
        if decide (CMD_ID ∈ controls)
        then <[ADDINS_PANEL := controls ∖ {[ CMD_ID ]}]> (allToolbarPanels u)
        else allToolbarPanels u
    | None => allToolbarPanels u
    end in
  let defs := if decide (CMD_ID ∈ commandDefinitions u)
              then commandDefinitions u ∖ {[ CMD_ID ]}
              else commandDefinitions u in
  mkUi defs panels [] (boxes u).

(** ** Vocabulary for what a handler leaves alone *)

(** Two worlds that differ at most in the files, the progress dialog, the
    count of [adsk.doEvents] calls and the trace. *)
Definition same_session (w w' : World) : Prop :=
  _updating w' = _updating w ∧
  _custom_names w' = _custom_names w ∧
  activeProduct w' = activeProduct w ∧
  inputs w' = inputs w ∧
  settings_json w' = settings_json w ∧
  settings_write w' = settings_write w ∧
  folder_pick w' = folder_pick w ∧
  cancel_click w' = cancel_click w ∧
  export_fault w' = export_fault w ∧
  os_name w' = os_name w ∧
  mkdir_fault w' = mkdir_fault w.

(** [w'] is [w] but for the files at [paths] (and the progress dialog,
    the count of [adsk.doEvents] calls and the trace). *)
Definition touches_only (paths : list str) (w w' : World) : Prop :=
  same_session w w' ∧ ∀ p, p ∉ paths → files w' !! p = files w !! p.

(** Code that, run in any world, leaves a world related to it by [R]. *)
Definition keeps {A : Type} (R : World → World → Prop) (c : Py A) : Prop :=
  ∀ w, R w (c w).2.

Definition message_box (e : Effect) : option Message :=
  match e with
  | EMessageBox m => Some m
  | _ => None
  end.

(** The message boxes of a trace. *)
Definition message_boxes (tr : list Effect) : list Message :=
  omap message_box tr.

(** A decimal digit. *)
Definition isdigit (c : N) : bool := ((48 <=? c) && (c <=? 57))%N.

(** What [os.makedirs(p, exist_ok=True)] needs to return: [p] is not
    empty, and either a directory is there, or nothing is there, no
    directory above [p] is a file, and [p] and each missing directory above
    it can be made. *)
Definition folder_can_be_made (w : World) (p : str) : Prop :=
  p ≠ [] ∧
  (files w !! p = Some Dir ∨
   files w !! p = None ∧
   (∀ q, q ∈ ancestors (os_name w) p → is_file (files w !! q) = false) ∧
   (∀ q, q ∈ ancestors (os_name w) p ++ [p] →
         files w !! q = None → mkdir_fault w q = None)).

(** What stands between a folder and a file name in the path of a file
    of that folder.  On [posix]: a slash, unless the folder text is empty
    or ends in a slash.  On [nt], with the folder text split into its
    drive and the rest: a backslash, unless the rest ends in a backslash or
    a slash, or the rest is empty and the drive is empty or ends in a
    colon. *)
Definition joint (pf : Platform) (folder : str) : str :=
  match pf with
  | posix =>
      if decide (folder = [] ∨ last folder = Some 47%N) then [] else [47%N]
  | nt _ =>
      let '(drive, rest) := nt_splitdrive folder in
      match last rest with
      | Some c => if nt_is_sep c then [] else [92%N]
      | None =>
          if decide (drive = [] ∨ last drive = Some 58%N) then []
          else [92%N]
      end
  end.

(* ====================================================================== *)
(** * Theorems *)
(* ====================================================================== *)

(** ** Strings *)

Lemma lstrip_spec (s : str) :
  ∃ pre, s = pre ++ lstrip s ∧ Forall (λ c, isspace c = true) pre.
Proof.
  induction s as [|c r IH]; simpl.
  - by exists [].
  - destruct (isspace c) eqn:Hc.
    + destruct IH as (pre & Hr & Hpre). exists (c :: pre). split.
      * simpl. by rewrite <- Hr.
      * by constructor.
    + by exists [].
Qed.

Lemma lstrip_head (s : str) (c : N) :
  head (lstrip s) = Some c → isspace c = false.
Proof.
  induction s as [|d r IH]; simpl; [done|].
  destruct (isspace d) eqn:Hd; [done|].
  simpl. intros [= <-]. done.
Qed.

Lemma lstrip_elem (s : str) (c : N) : c ∈ lstrip s → c ∈ s.
Proof.
  destruct (lstrip_spec s) as (pre & Hs & _). intros Hc.
  rewrite Hs. apply elem_of_app. by right.
Qed.

Lemma lstrip_all_space (s : str) :
  Forall (λ c, isspace c = true) s → lstrip s = [].
Proof.
  induction 1 as [|c r Hc _ IH]; simpl; [done|]. by rewrite Hc.
Qed.

Lemma lstrip_last (s : str) (c : N) :
  last s = Some c → isspace c = false → last (lstrip s) = Some c.
Proof.
  induction s as [|d r IH]; simpl; [done|].
  intros Hl Hc. destruct (isspace d) eqn:Hd; [|done].
  destruct r as [|e r]; simpl in *.
  - congruence.
  - by apply IH.
Qed.

Lemma rstrip_spec (s : str) :
  ∃ suf, s = rstrip s ++ suf ∧ Forall (λ c, isspace c = true) suf.
Proof.
  unfold rstrip. destruct (lstrip_spec (reverse s)) as (pre & Hs & Hpre).
  exists (reverse pre). split.
  - rewrite <- reverse_app, <- Hs. by rewrite reverse_involutive.
  - by apply Forall_reverse.
Qed.

Lemma rstrip_last (s : str) (c : N) :
  last (rstrip s) = Some c → isspace c = false.
Proof.
  unfold rstrip. rewrite last_reverse. apply lstrip_head.
Qed.

Lemma rstrip_head (s : str) (c : N) :
  head s = Some c → isspace c = false → head (rstrip s) = Some c.
Proof.
  unfold rstrip. intros Hh Hc. rewrite head_reverse.
  apply lstrip_last; [|done]. by rewrite last_reverse.
Qed.

Lemma rstrip_nil_inv (s : str) :
  rstrip s = [] → Forall (λ c, isspace c = true) s.
Proof.
  intros Hr. destruct (rstrip_spec s) as (suf & Hs & Hsuf).
  rewrite Hr in Hs. simpl in Hs. by subst.
Qed.

Lemma strip_spec (s : str) :
  ∃ pre suf, s = pre ++ strip s ++ suf ∧
    Forall (λ c, isspace c = true) pre ∧ Forall (λ c, isspace c = true) suf.
Proof.
  unfold strip. destruct (lstrip_spec s) as (pre & Hs & Hpre).
  destruct (rstrip_spec (lstrip s)) as (suf & Hl & Hsuf).
  exists pre, suf. split_and!; [|done..]. by rewrite <- Hl.
Qed.

Lemma strip_head (s : str) (c : N) :
  head (strip s) = Some c → isspace c = false.
Proof.
  unfold strip. intros Hh.
  destruct (lstrip s) as [|d r] eqn:Hl; [done|].
  assert (isspace d = false) as Hd by (apply (lstrip_head s); by rewrite Hl).
  rewrite (rstrip_head (d :: r) d) in Hh by done. by simplify_eq.
Qed.

Lemma strip_last (s : str) (c : N) :
  last (strip s) = Some c → isspace c = false.
Proof. apply rstrip_last. Qed.

Lemma strip_elem (s : str) (c : N) : c ∈ strip s → c ∈ s.
Proof.
  destruct (strip_spec s) as (pre & suf & Hs & _). intros Hc.
  rewrite Hs. rewrite !elem_of_app. auto.
Qed.

Lemma strip_all_space (s : str) :
  Forall (λ c, isspace c = true) s → strip s = [].
Proof. intros Hs. unfold strip. by rewrite lstrip_all_space. Qed.

(** Membership in a list that is known in full. *)
Ltac elem_now :=
  vm_compute; repeat first [apply list_elem_of_here | apply list_elem_of_further].

(** ** The sanitizer *)

Lemma _safe_filename_cases (name : str) :
  (strip (filter (λ c, c ∉ illegal_chars) name) = [] ∧
   _safe_filename name = text "body") ∨
  (strip (filter (λ c, c ∉ illegal_chars) name) ≠ [] ∧
   _safe_filename name = strip (filter (λ c, c ∉ illegal_chars) name)).
Proof.
  unfold _safe_filename.
  destruct (strip _) as [|c r]; [by left | by right].
Qed.

Lemma body_legal (c : N) : c ∈ illegal_chars → c ∉ text "body".
Proof.
  intros Hc Hb. vm_compute in Hc, Hb.
  repeat (apply elem_of_cons in Hb as [->|Hb];
          [by repeat (apply elem_of_cons in Hc as [?|Hc]; [done|]);
              apply elem_of_nil in Hc|]).
  by apply elem_of_nil in Hb.
Qed.

Lemma filter_legal (name : str) (c : N) :
  c ∈ filter (λ c, c ∉ illegal_chars) name → c ∉ illegal_chars.
Proof. intros Hc. by apply list_elem_of_filter in Hc as [? _]. Qed.

Lemma filter_all_illegal (name : str) :
  (∀ c, c ∈ name → c ∈ illegal_chars) →
  filter (λ c, c ∉ illegal_chars) name = [].
Proof.
  intros Hall. induction name as [|c r IH]; [done|].
  rewrite filter_cons_False.
  - apply IH. intros d Hd. apply Hall. by right.
  - intros Hc. apply Hc, Hall. by left.
Qed.

Lemma filter_illegal_or_space (name : str) :
  (∀ c, c ∈ name → c ∈ illegal_chars ∨ isspace c = true) →
  Forall (λ c, isspace c = true) (filter (λ c, c ∉ illegal_chars) name).
Proof.
  intros Hall. apply Forall_forall. intros c Hc.
  apply list_elem_of_filter in Hc as [Hlegal Hin].
  by destruct (Hall c Hin).
Qed.

(** C3.  For every input, no character of the sanitized name is one of the
    nine characters backslash, slash, colon, star, question mark, double
    quote, less-than, greater-than, vertical bar; and an input made of those
    characters only is sanitized to the fallback literal ['body']. *)
Theorem safe_filename_no_illegal (name : str) :
  illegal_chars = [92; 47; 58; 42; 63; 34; 60; 62; 124]%N ∧
  (∀ c, c ∈ illegal_chars → c ∉ _safe_filename name) ∧
  ((∀ c, c ∈ name → c ∈ illegal_chars) → _safe_filename name = text "body").
Proof.
  split; [done|]. split.
  - intros c Hc.
    destruct (_safe_filename_cases name) as [[_ ->]|[_ ->]].
    + by apply body_legal.
    + intros Hin. by apply strip_elem, filter_legal in Hin.
  - intros Hall. unfold _safe_filename.
    by rewrite filter_all_illegal.
Qed.

Lemma safe_filename_no_illegal_witness :
  _safe_filename (text "<:/?*|>\") = text "body".
Proof.
  destruct (safe_filename_no_illegal (text "<:/?*|>\")) as (_ & _ & H).
  apply H. intros c Hc. vm_compute in Hc. vm_compute.
  repeat (apply elem_of_cons in Hc as [->|Hc]; [elem_now|]).
  by apply elem_of_nil in Hc.
Defined.

(** C10.  The sanitized name is never empty and neither starts nor ends
    with a whitespace character.  When the input has a character that is
    neither illegal nor whitespace, the sanitized name is what is left of
    the input without its illegal characters once the whitespace at each
    end is cut off: the text without its illegal characters is a run of
    whitespace, the sanitized name, and a run of whitespace.  An input
    whose characters are all illegal or whitespace, the empty string
    included, gives ['body']. *)
Theorem safe_filename_stripped (name : str) :
  _safe_filename name ≠ [] ∧
  (∀ c, head (_safe_filename name) = Some c → isspace c = false) ∧
  (∀ c, last (_safe_filename name) = Some c → isspace c = false) ∧
  ((∃ c, c ∈ name ∧ (c ∉ illegal_chars) ∧ isspace c = false) →
   ∃ pre suf,
     filter (λ c, c ∉ illegal_chars) name = pre ++ _safe_filename name ++ suf ∧
     Forall (λ c, isspace c = true) pre ∧ Forall (λ c, isspace c = true) suf) ∧
  ((∀ c, c ∈ name → c ∈ illegal_chars ∨ isspace c = true) →
   _safe_filename name = text "body") ∧
  _safe_filename [] = text "body".
Proof.
  destruct (_safe_filename_cases name) as [[Hs Hr]|[Hs Hr]]; rewrite Hr.
  - split_and!; [done| | | |done|done].
    + intros c [= <-]. done.
    + intros c [= <-]. done.
    + intros (c & Hin & Hlegal & Hc). exfalso.
      destruct (strip_spec (filter (λ c, c ∉ illegal_chars) name))
        as (pre & suf & Hf & Hpre & Hsuf).
      rewrite Hs in Hf. cbn in Hf.
      assert (c ∈ pre ++ suf) as Hc'
        by (rewrite <- Hf; by apply list_elem_of_filter).
      assert (isspace c = true); [|congruence].
      apply elem_of_app in Hc' as [Hc'|Hc'];
        [exact (proj1 (Forall_forall _ _) Hpre c Hc')
        |exact (proj1 (Forall_forall _ _) Hsuf c Hc')].
  - split_and!; [done|apply strip_head|apply strip_last| | |done].
    + intros _. apply strip_spec.
    + intros Hall. exfalso. apply Hs, strip_all_space.
      by apply filter_illegal_or_space.
Qed.

Lemma safe_filename_stripped_witness :
  _safe_filename (text " /: ?  ") = text "body" ∧
  ∃ pre suf,
    filter (λ c, c ∉ illegal_chars) (text "  My:Part* ")
    = pre ++ _safe_filename (text "  My:Part* ") ++ suf ∧
    Forall (λ c, isspace c = true) pre ∧ Forall (λ c, isspace c = true) suf.
Proof.
  split.
  - destruct (safe_filename_stripped (text " /: ?  "))
      as (_ & _ & _ & _ & H & _).
    apply H. intros c Hc. vm_compute in Hc.
    repeat (apply elem_of_cons in Hc as [->|Hc];
            [first [by right | left; elem_now]|]).
    by apply elem_of_nil in Hc.
  - destruct (safe_filename_stripped (text "  My:Part* "))
      as (_ & _ & _ & H & _).
    apply H. exists 77%N. split_and!; [elem_now| |reflexivity].
    intros Hc. vm_compute in Hc.
    repeat (apply elem_of_cons in Hc as [Hc|Hc]; [discriminate Hc|]).
    by apply elem_of_nil in Hc.
Defined.

(** ** Running handler code *)

Lemma run_bind {A B : Type} (c : Py A) (f : A → Py B) (w : World) :
  (c ≫= f) w = match c w with
               | (Ok a, w') => f a w'
               | (Raise e, w') => (Raise e, w')
               end.
Proof. done. Qed.

Lemma run_ret {A : Type} (a : A) (w : World) : (mret a : Py A) w = (Ok a, w).
Proof. done. Qed.

(** Unfolds the plumbing of [Py] so that a run on a known world computes. *)
Ltac py_run :=
  unfold attr, messageBox, log, py_raise in *;
  unfold mbind, Py_bind, mret, Py_ret, gets, modify, throw, try_except in *;
  cbn in *.

(** ** The validation gate *)

(** C6.  The inputs are reported valid exactly when the selection input
    holds at least one body and the text of the output path is not empty
    once stripped.  The file system plays no part: the verdict is the same
    whatever files exist, and validating changes nothing. *)
Theorem validation_gate (w : World) :
  (_OnValidateInputs_notify w = true ↔
   ∃ sel path,
     d_bodySelection (inputs w) = Some sel ∧
     d_outputPath (inputs w) = Some path ∧
     0 < length sel ∧ 0 < length (strip path)) ∧
  (∀ fs, _OnValidateInputs_notify (set_files fs w) = _OnValidateInputs_notify w) ∧
  (validate w).2 = w.
Proof.
  unfold _OnValidateInputs_notify, validate, set_files.
  destruct w as [u cn ap [sel chk grp qd op bf] fs sj sw fp cc ef pm pg tr].
  py_run. split_and!.
  - destruct sel as [sel|]; cbn.
    + destruct (decide (0 < length sel)) as [Hsel|Hsel]; cbn.
      * destruct op as [path|]; cbn.
        -- rewrite bool_decide_eq_true. split.
           ++ intros Hp. by exists sel, path.
           ++ intros (sel' & path' & [= <-] & [= <-] & _ & Hp). done.
        -- split; [done|]. by intros (? & ? & _ & [=] & _).
      * split; [done|]. intros (sel' & ? & [= <-] & _ & Hl & _). done.
    + split; [done|]. by intros (? & ? & [=] & _).
  - intros fs'. destruct sel as [sel|]; cbn; [|done].
    destruct (decide (0 < length sel)); cbn; [|done].
    by destruct op.
  - destruct sel as [sel|]; cbn; [|done].
    destruct (decide (0 < length sel)); cbn; [|done].
    by destruct op.
Qed.

(** A fresh dialog is not valid; it is once a body is selected, unless the
    path is blank. *)
Example validation_examples :
  let w := quiet_world (mkDesign []) (created_dialog (text "/out")) in
  let picked d := set_bodySelection [body_named "Part" "t1"] d in
  _OnValidateInputs_notify w = false ∧
  _OnValidateInputs_notify (set_inputs (picked (inputs w)) w) = true ∧
  _OnValidateInputs_notify
    (set_inputs (set_outputPath (text "   ") (picked (inputs w))) w) = false.
Proof. by vm_compute. Qed.

(** ** Settings *)

(** What a save does, by what [settings.json] holds. *)
Lemma save_settings_run (data : gmap str jval) (w : World) :
  _save_settings data w
  = match default (JObject ∅) (settings_json w) with
    | JObject d =>
        (Ok (),
         match settings_write w with
         | WriteOk => set_settings_json (Some (JObject (data ∪ d))) w
         | OpenFails => w
         | DumpFails => set_settings_json None w
         end)
    | o =>
        (Raise (Exn AttributeError
                  (text "'" ++ text (type_name o) ++
                   text "' object has no attribute 'update'")), w)
    end.
Proof.
  unfold _save_settings, _load_settings, no_attribute. py_run.
  by destruct (default (JObject ∅) (settings_json w)).
Qed.

Lemma save_settings_written (data d : gmap str jval) (w : World) :
  settings_write w = WriteOk →
  default (JObject ∅) (settings_json w) = JObject d →
  _save_settings data w
  = (Ok (), set_settings_json (Some (JObject (data ∪ d))) w).
Proof. intros Hw Hd. by rewrite save_settings_run, Hd, Hw. Qed.

(** When [settings.json] is missing, cannot be parsed or holds an object,
    and can be written, saving a value for [outputPath] and then a value
    for another key leaves the file with both: each key holds the value
    saved last for it, and every other key holds what it held before. *)
Lemma settings_merge (w : World) (d : gmap str jval) (other : str)
    (A B : jval) :
  settings_write w = WriteOk →
  default (JObject ∅) (settings_json w) = JObject d →
  let w1 := (_save_settings {[ text "outputPath" := A ]} w).2 in
  let w2 := (_save_settings {[ other := B ]} w1).2 in
  ∃ m, _load_settings w2 = (Ok (JObject m), w2) ∧
    m !! other = Some B ∧
    (other ≠ text "outputPath" → m !! text "outputPath" = Some A) ∧
    (∀ k, k ≠ other → k ≠ text "outputPath" → m !! k = d !! k).
Proof.
  intros Hw Hd w1 w2. subst w2 w1.
  rewrite (save_settings_written _ d w Hw Hd). cbn [snd].
  rewrite (save_settings_written _ ({[ text "outputPath" := A ]} ∪ d))
    by done.
  exists ({[ other := B ]} ∪ ({[ text "outputPath" := A ]} ∪ d)).
  split_and!.
  - done.
  - apply lookup_union_Some_l, lookup_singleton_eq.
  - intros Hne. rewrite lookup_union_r by by apply lookup_singleton_ne.
    apply lookup_union_Some_l, lookup_singleton_eq.
  - intros k Hk1 Hk2.
    rewrite !lookup_union_r; [done|by apply lookup_singleton_ne..].
Qed.

(** C7.  [_load_settings] does not always return a dict, and then
    [_save_settings] saves nothing.  With [settings.json] holding the
    document [[1, 2]] and both reading and writing it possible, the load
    returns the list; each of the two saves raises [AttributeError] from
    [settings.update], which is outside the [try], and leaves the file as
    it is; so after saving a folder for [outputPath] and then a value for
    [quality] the file holds neither key.  The execute handler, which
    saves the folder, ends there: the folder is made, nothing is exported
    and the failure is shown. *)
Theorem settings_not_a_dict :
  let doc := JList [JNumber 1; JNumber 2] in
  let part := body_named "Part" "t1" in
  let w := set_settings_json (Some doc)
             (quiet_world (mkDesign [mkComponent [part]])
                (created_dialog (text "/out"))) in
  let r1 := _save_settings {[ text "outputPath" := JString (text "/out") ]} w in
  let r2 := _save_settings {[ text "quality" := JString (text "Low") ]} r1.2 in
  let failure := Exn AttributeError
                   (text "'list' object has no attribute 'update'") in
  settings_write w = WriteOk ∧
  _load_settings w = (Ok doc, w) ∧
  r1 = (Raise failure, w) ∧
  r2 = (Raise failure, w) ∧
  settings_json r2.2 = Some doc ∧
  trace (_OnExecute_notify
           (set_inputs (set_bodySelection [part] (inputs w)) w))
  = [EMakedirs (text "/out");
     EMessageBox (MsgTraceback (text "Export failed:" ++ [10%N]) failure)].
Proof. vm_compute. split_and!; reflexivity. Qed.

(** ** The re-entrancy guard *)

Lemma agree_bind {A B : Type} (c1 c2 : Py A) (f1 f2 : A → Py B) :
  agree c1 c2 → (∀ a, agree (f1 a) (f2 a)) → agree (c1 ≫= f1) (c2 ≫= f2).
Proof.
  intros Hc Hf w Hw. rewrite !run_bind.
  destruct (Hc w Hw) as [<- Hu].
  destruct (c1 w) as [[a|e] w']; cbn in *; [by apply Hf|done].
Qed.

Lemma agree_refl_keeps {A : Type} (c : Py A) :
  (∀ w, _updating (c w).2 = _updating w) → agree c c.
Proof. intros Hc w Hw. split; [done|]. by rewrite Hc. Qed.

Lemma agree_ret {A : Type} (a : A) : agree (mret a) (mret a).
Proof. by apply agree_refl_keeps. Qed.

Lemma agree_gets {A : Type} (f : World → A) : agree (gets f) (gets f).
Proof. by apply agree_refl_keeps. Qed.

Lemma agree_throw {A : Type} (e : exn) : agree (throw (A:=A) e) (throw e).
Proof. by apply agree_refl_keeps. Qed.

Lemma agree_py_raise {A : Type} (cls : ExnClass) (msg : string) :
  agree (py_raise (A:=A) cls msg) (py_raise cls msg).
Proof. apply agree_throw. Qed.

Lemma agree_modify (f : World → World) :
  (∀ w, _updating (f w) = _updating w) → agree (modify f) (modify f).
Proof. intros Hf. by apply agree_refl_keeps. Qed.

Lemma agree_attr {A : Type} (o : option A) : agree (attr o) (attr o).
Proof. apply agree_refl_keeps. by destruct o. Qed.

Lemma agree_try_except {A : Type} (c1 c2 : Py A) :
  agree c1 c2 → agree (try_except c1) (try_except c2).
Proof.
  intros Hc w Hw. unfold try_except. destruct (Hc w Hw) as [<- Hu].
  by destruct (c1 w).
Qed.

Lemma agree_for_each {A : Type} (f1 f2 : A → Py unit) (xs : list A) :
  (∀ x, agree (f1 x) (f2 x)) → agree (for_each f1 xs) (for_each f2 xs).
Proof.
  intros Hf. induction xs as [|x xs IH]; cbn.
  - apply agree_ret.
  - apply agree_bind; [apply Hf|done].
Qed.

Lemma agree_fire_event (f1 f2 : InputId → World → World) (changed : InputId) :
  guarded f1 → guarded f2 →
  agree (fire_event f1 changed) (fire_event f2 changed).
Proof.
  intros H1 H2 w Hw. unfold fire_event, modify. cbn.
  by rewrite H1, H2.
Qed.

Create HintDb agree.
#[local] Hint Resolve agree_ret agree_gets agree_throw agree_py_raise agree_attr
  agree_fire_event : agree.

(** Splits a goal [agree c1 c2] along the code. *)
Ltac agree_step :=
  first
    [ apply agree_bind; [|intros ?]
    | apply agree_try_except
    | apply agree_for_each; intros ?
    | apply agree_modify; done
    | solve [auto with agree]
    | match goal with
      | |- agree (match ?x with _ => _ end) _ => destruct x
      end ].

Lemma agree_rebuild_name_list : agree _rebuild_name_list _rebuild_name_list.
Proof. unfold _rebuild_name_list. repeat agree_step. Qed.

Lemma agree_reaction (f1 f2 : InputId → World → World) (changed : InputId) :
  guarded f1 → guarded f2 → agree (reaction f1 changed) (reaction f2 changed).
Proof.
  intros H1 H2. pose proof agree_rebuild_name_list.
  destruct changed; cbn; try apply agree_ret.
  - unfold on_bodySelection, assign_selectAll. repeat agree_step.
  - unfold on_selectAll, addSelection, clearSelection. repeat agree_step.
  - unfold on_browseFolder, assign_outputPath, assign_browseFolder,
      os_path_isdir, log. repeat agree_step.
  - unfold on_saveName. repeat agree_step.
Qed.

Lemma notify_frame_guarded (fire : InputId → World → World) :
  guarded (notify_frame fire).
Proof. intros changed w Hw. unfold notify_frame. by rewrite Hw. Qed.

Lemma notify_guarded (depth : nat) : guarded (_OnInputChanged_notify depth).
Proof. destruct depth; [done|]. apply notify_frame_guarded. Qed.

Lemma notify_frame_ext (f1 f2 : InputId → World → World)
    (changed : InputId) (w : World) :
  guarded f1 → guarded f2 →
  notify_frame f1 changed w = notify_frame f2 changed w.
Proof.
  intros H1 H2. unfold notify_frame. destruct (_updating w); [done|].
  by destruct (agree_reaction f1 f2 changed H1 H2 (set_updating true w))
    as [-> _].
Qed.

(** Two nested activations are all that is ever entered: the handler does
    the same at every positive depth. *)
Lemma notify_depth (depth : nat) (changed : InputId) (w : World) :
  _OnInputChanged_notify (S depth) changed w
  = notify_frame (λ _ w, w) changed w.
Proof. apply notify_frame_ext; [apply notify_guarded|done]. Qed.

Lemma notify_frame_restores (fire : InputId → World → World)
    (changed : InputId) (w : World) :
  _updating w = false → _updating (notify_frame fire changed w) = false.
Proof.
  intros Hw. unfold notify_frame. rewrite Hw.
  by destruct (reaction fire changed (set_updating true w)) as [[?|e] w'].
Qed.

Lemma deliver_handled (depth : nat) (events : list InputId) (w : World) :
  _updating w = false →
  (deliver (S depth) events w).1 = replicate (length events) true ∧
  _updating (deliver (S depth) events w).2 = false.
Proof.
  revert w. induction events as [|changed rest IH]; intros w Hw; [done|].
  cbn [deliver].
  pose proof (notify_frame_restores (_OnInputChanged_notify depth) changed w Hw)
    as Hw'.
  specialize (IH _ Hw').
  change (notify_frame (_OnInputChanged_notify depth) changed w)
    with (_OnInputChanged_notify (S depth) changed w) in *.
  destruct (deliver (S depth) rest _) as [hs w''].
  cbn in *. destruct IH as [-> ->]. by rewrite Hw.
Qed.

(** C9.  An activation of the input-changed handler that finds the guard
    clear leaves it clear when it returns, however the reaction ends: by
    falling through, by the early [return], or by an exception, which is
    reported in a message box.  While the reaction runs the guard stays
    set, and an event that arrives then changes nothing.  So of the events
    delivered one after the other, each after the handler has returned,
    none is dropped.  The nesting bound plays no part. *)
Theorem reactor_guard_restored (depth : nat) (changed : InputId)
    (events : list InputId) (w : World) :
  (_updating w = false →
   _updating (_OnInputChanged_notify (S depth) changed w) = false ∧
   ∀ e w', reaction (_OnInputChanged_notify depth) changed
             (set_updating true w) = (Raise e, w') →
           _OnInputChanged_notify (S depth) changed w
           = set_updating false
               (set_trace (trace w' ++ [EMessageBox (MsgTraceback [] e)]) w')) ∧
  (_updating w = true →
   _OnInputChanged_notify (S depth) changed w = w ∧
   _updating (reaction (_OnInputChanged_notify depth) changed w).2 = true) ∧
  (_updating w = false →
   (deliver (S depth) events w).1 = replicate (length events) true ∧
   _updating (deliver (S depth) events w).2 = false) ∧
  _OnInputChanged_notify (S depth) changed w
  = _OnInputChanged_notify 1 changed w.
Proof.
  split_and!.
  - intros Hw. split; [by apply notify_frame_restores|].
    intros e w' Hr. cbn [_OnInputChanged_notify]. unfold notify_frame.
    by rewrite Hw, Hr.
  - intros Hw. split; [by apply notify_guarded|].
    by destruct (agree_reaction _ _ changed (notify_guarded depth)
                   (notify_guarded depth) w Hw).
  - apply deliver_handled.
  - by rewrite !notify_depth.
Qed.

Lemma reactor_guard_restored_witness :
  let w := quiet_world (mkDesign [mkComponent [body_named "Part" "t1"]])
             (mkDialog (Some [body_named "Part" "t1"]) None (Some [])
                       None (Some (text "/out")) (Some false)) in
  _updating (_OnInputChanged_notify 2 bodySelection w) = false ∧
  trace (_OnInputChanged_notify 2 bodySelection w)
  = [EMessageBox
       (MsgTraceback []
          (Exn AttributeError (text "'NoneType' object has no attribute")))] ∧
  _OnInputChanged_notify 2 selectAll (set_updating true w)
  = set_updating true w ∧
  (deliver 2 [bodySelection; selectAll; saveName 0] w).1 = [true; true; true].
Proof.
  intros w.
  destruct (reactor_guard_restored 1 bodySelection
              [bodySelection; selectAll; saveName 0] w)
    as (Hexit & _ & Hdeliver & _).
  destruct (reactor_guard_restored 1 selectAll [] (set_updating true w))
    as (_ & Hdrop & _).
  destruct (Hexit eq_refl) as [Hclear Hraise].
  split_and!.
  - exact Hclear.
  - rewrite (Hraise (Exn AttributeError
                       (text "'NoneType' object has no attribute"))
               (set_updating true w)) by (vm_compute; reflexivity).
    reflexivity.
  - apply Hdrop. reflexivity.
  - apply Hdeliver. reflexivity.
Defined.

(** ** Select-all in step with the selection *)

Lemma rebuild_name_list_frame (w : World) :
  (_rebuild_name_list w).1 = Ok () ∧
  _updating (_rebuild_name_list w).2 = _updating w ∧
  activeProduct (_rebuild_name_list w).2 = activeProduct w ∧
  d_bodySelection (inputs (_rebuild_name_list w).2) = d_bodySelection (inputs w) ∧
  d_selectAll (inputs (_rebuild_name_list w).2) = d_selectAll (inputs w).
Proof.
  unfold _rebuild_name_list. py_run.
  destruct (d_bodySelection (inputs w)) as [sel|] eqn:Hsel; [|done].
  by destruct (d_bodyListGroup (inputs w)).
Qed.

(** What the handler does with a change of the selection. *)
Lemma manual_selection_change (depth : nat) (w : World) (design : Design)
    (sel : list Body) (v : bool) :
  _updating w = false →
  activeProduct w = Some design →
  d_bodySelection (inputs w) = Some sel →
  d_selectAll (inputs w) = Some v →
  let w' := _OnInputChanged_notify (S depth) bodySelection w in
  _updating w' = false ∧
  activeProduct w' = Some design ∧
  d_bodySelection (inputs w') = Some sel ∧
  d_selectAll (inputs w')
  = Some (bool_decide (length sel = length (_all_bodies design) ∧
                       0 < length (_all_bodies design))).
Proof.
  intros Hu Hd Hsel Hchk w'. subst w'. rewrite notify_depth.
  unfold notify_frame. rewrite Hu.
  unfold reaction, on_bodySelection, assign_selectAll, fire_event.
  rewrite run_bind. py_run. rewrite Hd, Hsel. cbn.
  set (total := length (_all_bodies design)).
  destruct (decide (0 < total)) as [Hpos|Hpos]; cbn; rewrite Hchk; cbn.
  - match goal with
    | |- context [_rebuild_name_list ?w0] =>
        destruct (rebuild_name_list_frame w0) as (Hr & Hu' & Hd' & Hs' & Hc');
        destruct (_rebuild_name_list w0) as [r w1]
    end.
    cbn in *. subst r. cbn. split_and!; [done|by rewrite Hd'|by rewrite Hs'|].
    rewrite Hc'. f_equal. apply bool_decide_ext. tauto.
  - match goal with
    | |- context [_rebuild_name_list ?w0] =>
        destruct (rebuild_name_list_frame w0) as (Hr & Hu' & Hd' & Hs' & Hc');
        destruct (_rebuild_name_list w0) as [r w1]
    end.
    cbn in *. subst r. cbn. split_and!; [done|by rewrite Hd'|by rewrite Hs'|].
    rewrite Hc'. f_equal. symmetry. apply bool_decide_eq_false. tauto.
Qed.

Lemma user_selects_each (depth : nat) (design : Design) (picked : list Body) :
  ∀ (w : World) (sel : list Body) (v : bool),
  _updating w = false →
  activeProduct w = Some design →
  d_bodySelection (inputs w) = Some sel →
  d_selectAll (inputs w) = Some v →
  let w' := foldl (λ w body, user_selects (S depth) body w) w picked in
  _updating w' = false ∧
  activeProduct w' = Some design ∧
  d_bodySelection (inputs w') = Some (sel ++ picked) ∧
  d_selectAll (inputs w')
  = Some (match picked with
          | [] => v
          | _ => bool_decide (length (sel ++ picked) = length (_all_bodies design)
                              ∧ 0 < length (_all_bodies design))
          end).
Proof.
  induction picked as [|body rest IH]; intros w sel v Hu Hd Hsel Hchk;
    cbn zeta.
  - cbn. by rewrite app_nil_r.
  - assert (user_selects (S depth) body w
            = _OnInputChanged_notify (S depth) bodySelection
                (set_inputs (set_bodySelection (sel ++ [body]) (inputs w)) w))
      as Hstep by (unfold user_selects; by rewrite Hsel).
    cbn [foldl]. rewrite Hstep.
    destruct (manual_selection_change depth
                (set_inputs (set_bodySelection (sel ++ [body]) (inputs w)) w)
                design (sel ++ [body]) v) as (Hu' & Hd' & Hsel' & Hchk');
      [done..|].
    specialize (IH _ _ _ Hu' Hd' Hsel' Hchk').
    cbn zeta in IH. rewrite <- (assoc_L (++)) in IH. cbn [app] in IH.
    destruct IH as (? & ? & ? & Hv). split_and!; [done..|].
    rewrite Hv. by destruct rest.
Qed.

Lemma addSelection_all_frame (bodies : list Body) :
  ∀ w,
  let r := for_each
             (λ body, _ ← try_except (addSelection (λ _ w, w) body); mret ())
             bodies w in
  r.1 = Ok () ∧ d_selectAll (inputs r.2) = d_selectAll (inputs w).
Proof.
  induction bodies as [|body rest IH]; intros w; [done|].
  cbn [for_each]. rewrite run_bind.
  assert (∃ w1, (try_except (addSelection (λ _ w, w) body)
                   ≫= λ _, mret ()) w = (Ok (), w1) ∧
                d_selectAll (inputs w1) = d_selectAll (inputs w))
    as (w1 & -> & Hw1).
  { unfold addSelection, fire_event. py_run.
    destruct (d_bodySelection (inputs w)) as [sel|]; cbn; [|by eexists].
    destruct (selectable body); cbn; [|by eexists].
    destruct (decide (body ∈ sel)); cbn; by eexists. }
  destruct (IH w1) as [Hr Hc]. split; [done|]. by rewrite Hc.
Qed.

Lemma click_selectAll_checked (depth : nat) (w : World) (design : Design) :
  _updating w = false →
  activeProduct w = Some design →
  d_selectAll (inputs w) = Some false →
  d_selectAll (inputs (user_clicks_selectAll (S depth) w)) = Some true.
Proof.
  intros Hu Hd Hchk. unfold user_clicks_selectAll. rewrite Hchk.
  rewrite notify_depth. unfold notify_frame. cbn [_updating set_inputs].
  rewrite Hu. unfold reaction, on_selectAll.
  rewrite run_bind. py_run. rewrite Hd. cbn.
  match goal with
  | |- context [for_each ?f ?bs ?w0] =>
      destruct (addSelection_all_frame bs w0) as [Hr Hc];
      change (for_each f bs w0)
        with (for_each
                (λ body, _ ← try_except (addSelection (λ _ w, w) body); mret ())
                bs w0);
      destruct (for_each
                  (λ body, _ ← try_except (addSelection (λ _ w, w) body);
                           mret ()) bs w0) as [r w1]
  end.
  cbn in Hr, Hc. subst r.
  destruct (rebuild_name_list_frame w1) as (Hr & _ & _ & _ & Hc').
  destruct (_rebuild_name_list w1) as [r w2]. cbn in *. subst r. cbn.
  by rewrite Hc', Hc.
Qed.

(** C8.  After the selection was changed by hand, with a design open, the
    select-all check box holds [True] exactly when the number of selected
    bodies is the number of bodies of the design and that number is not
    zero.  So in a design of at least one body, picking the bodies one by
    one from a fresh dialog leaves the box checked, as a click on it does. *)
Theorem selectAll_in_sync (depth : nat) (w : World) (design : Design) :
  _updating w = false →
  activeProduct w = Some design →
  (∀ sel v,
     d_bodySelection (inputs w) = Some sel →
     d_selectAll (inputs w) = Some v →
     d_selectAll
       (inputs (_OnInputChanged_notify (S depth) bodySelection w))
     = Some (bool_decide (length sel = length (_all_bodies design) ∧
                          0 < length (_all_bodies design)))) ∧
  (d_bodySelection (inputs w) = Some [] →
   d_selectAll (inputs w) = Some false →
   0 < length (_all_bodies design) →
   d_selectAll
     (inputs (foldl (λ w body, user_selects (S depth) body w) w
                    (_all_bodies design)))
   = Some true ∧
   d_selectAll (inputs (user_clicks_selectAll (S depth) w)) = Some true).
Proof.
  intros Hu Hd. split.
  - intros sel v Hsel Hchk.
    by destruct (manual_selection_change depth w design sel v)
      as (_ & _ & _ & ->).
  - intros Hsel Hchk Hpos. split; [|by eapply click_selectAll_checked].
    destruct (user_selects_each depth design (_all_bodies design) w [] false)
      as (_ & _ & _ & ->); [done..|].
    destruct (_all_bodies design) as [|b bs] eqn:Hb; [cbn in Hpos; lia|].
    f_equal. apply bool_decide_eq_true. done.
Qed.

Lemma selectAll_in_sync_witness :
  let design := mkDesign [mkComponent [body_named "Part" "t1"];
                          mkComponent [body_named "Cylinder1" "t2"]] in
  let w := quiet_world design (created_dialog (text "/out")) in
  d_selectAll
    (inputs (_OnInputChanged_notify 2 bodySelection
       (set_inputs (set_bodySelection [body_named "Part" "t1"] (inputs w)) w)))
  = Some false ∧
  d_selectAll
    (inputs (foldl (λ w body, user_selects 2 body w) w (_all_bodies design)))
  = Some true ∧
  d_selectAll (inputs (user_clicks_selectAll 2 w)) = Some true.
Proof.
  intros design w.
  destruct (selectAll_in_sync 1
              (set_inputs (set_bodySelection [body_named "Part" "t1"] (inputs w)) w)
              design eq_refl eq_refl) as [Hone _].
  destruct (selectAll_in_sync 1 w design eq_refl eq_refl) as [_ Hall].
  split.
  - apply (Hone [body_named "Part" "t1"] false); reflexivity.
  - apply Hall; [reflexivity|reflexivity|]. vm_compute. lia.
Defined.

(** In a design without bodies the two ways part: a click on select-all
    leaves the box checked, while after picking all (that is, none) of the
    bodies it is unchecked, and a change of the selection reported by the
    host leaves it unchecked too, also when it was checked by the click. *)
Lemma selectAll_out_of_sync :
  let design := mkDesign [mkComponent []] in
  let w := quiet_world design (created_dialog (text "/out")) in
  length (_all_bodies design) = 0 ∧
  d_selectAll (inputs (user_clicks_selectAll 2 w)) = Some true ∧
  d_selectAll
    (inputs (foldl (λ w body, user_selects 2 body w) w (_all_bodies design)))
  = Some false ∧
  d_selectAll (inputs (_OnInputChanged_notify 2 bodySelection w)) = Some false ∧
  d_selectAll
    (inputs (_OnInputChanged_notify 2 bodySelection
               (user_clicks_selectAll 2 w)))
  = Some false.
Proof. vm_compute. split_and!; reflexivity. Qed.

(** ** Collision numbering *)

Lemma occurrences_snoc (n x : str) (names : list str) :
  occurrences n (names ++ [x])
  = occurrences n names + (if decide (x = n) then 1 else 0).
Proof.
  unfold occurrences. rewrite filter_app, length_app. f_equal.
  rewrite filter_cons. by destruct (decide (x = n)).
Qed.

Lemma count_names_loop (names : list str) :
  ∀ (seen : list str) (name_count : gmap str nat),
  (∀ n, default 0 (name_count !! n) = occurrences n seen) →
  ∀ n, default 0
         (foldl (λ name_count n,
                   <[n := default 0 (name_count !! n) + 1]> name_count)
                name_count names !! n)
       = occurrences n (seen ++ names).
Proof.
  induction names as [|x rest IH]; intros seen name_count Hseen n.
  - cbn. by rewrite app_nil_r.
  - cbn [foldl]. rewrite (cons_middle x seen rest), (assoc_L (++)).
    apply IH. intros m. rewrite occurrences_snoc.
    destruct (decide (x = m)) as [->|Hne].
    + rewrite lookup_insert_eq. cbn. by rewrite Hseen.
    + rewrite lookup_insert_ne by done. rewrite Hseen. lia.
Qed.

(** [name_count[n]] is the number of bodies named [n]. *)
Lemma count_names_occurrences (raws : list str) (n : str) :
  count_names raws !!! n = occurrences n raws.
Proof.
  unfold count_names, lookup_total, map_lookup_total.
  change inhabitant with 0.
  by rewrite (count_names_loop raws [] ∅).
Qed.

(** [name_count[n]] never raises [KeyError] in the loop over the jobs. *)
Lemma count_names_key (raws : list str) (n : str) :
  n ∈ raws → is_Some (count_names raws !! n).
Proof.
  intros Hn. pose proof (count_names_occurrences raws n) as Hc.
  unfold lookup_total, map_lookup_total in Hc.
  destruct (count_names raws !! n) as [c|]; [by eexists|].
  cbn in Hc. unfold occurrences in Hc. symmetry in Hc.
  apply length_zero_iff_nil in Hc.
  assert (n ∈ filter (λ x, x = n) raws) as Hin
    by by apply list_elem_of_filter.
  rewrite Hc in Hin. by apply elem_of_nil in Hin.
Qed.

Lemma number_loop (pf : Platform) (output_dir : str)
    (name_count : gmap str nat) (pairs : list (Body * str)) :
  ∀ (seen : list str) (name_idx : gmap str nat) (jobs : list (Body * str)),
  (∀ n, default 0 (name_idx !! n) = occurrences n seen) →
  (foldl (number_step pf output_dir name_count) (name_idx, jobs) pairs).2
  = jobs ++
    imap (λ i bn,
            (bn.1,
             os_path_join pf output_dir
               (numbered name_count bn.2
                  (S (occurrences bn.2 (seen ++ take i pairs.*2)))
                ++ text ".stl"))) pairs.
Proof.
  induction pairs as [|[body n] rest IH]; intros seen name_idx jobs Hseen.
  - cbn. by rewrite app_nil_r.
  - cbn [foldl]. unfold number_step at 2. cbn [fst snd].
    rewrite (IH (seen ++ [n])).
    + cbn [imap fmap list_fmap take]. rewrite app_nil_r, <- (assoc_L (++)).
      cbn [app]. rewrite Hseen, Nat.add_1_r. do 2 f_equal.
      apply imap_ext. intros i [b m] _. cbn.
      by rewrite <- (assoc_L (++)).
    + intros m. rewrite occurrences_snoc.
      destruct (decide (n = m)) as [->|Hne].
      * rewrite lookup_insert_eq. cbn. by rewrite Hseen.
      * rewrite lookup_insert_ne by done. rewrite Hseen. lia.
Qed.

(** The job of the [i]-th body: its name as it is when no other body has
    it, and with the 1-based count of its occurrences so far in
    parentheses when another body has it too. *)
Lemma build_jobs_lookup (pf : Platform) (output_dir : str)
    (bodies : list Body) (raws : list str) (i : nat) (body : Body) (n : str) :
  length bodies = length raws →
  bodies !! i = Some body →
  raws !! i = Some n →
  build_jobs pf output_dir bodies raws !! i
  = Some (body,
          os_path_join pf output_dir
            ((if decide (1 < occurrences n raws)
              then n ++ text " (" ++
                   str_of_nat (S (occurrences n (take i raws))) ++ text ")"
              else n) ++ text ".stl")).
Proof.
  intros Hlen Hb Hn. unfold build_jobs.
  rewrite (number_loop _ _ _ _ [] ∅ []) by done. cbn [app].
  rewrite list_lookup_imap.
  assert (zip bodies raws !! i = Some (body, n)) as ->.
  { rewrite lookup_zip_with. by rewrite Hb, Hn. }
  cbn. rewrite snd_zip by lia. unfold numbered.
  by rewrite count_names_occurrences.
Qed.

(** The two halves of the numbering rule that hold for every batch: a name
    that no other body has is used as it is, and a name that several bodies
    have gets the 1-based count of its occurrences so far, in parentheses. *)
Lemma numbering_rule (pf : Platform) (output_dir : str)
    (bodies : list Body) (raws : list str) (i : nat) (body : Body) (n : str) :
  length bodies = length raws →
  bodies !! i = Some body →
  raws !! i = Some n →
  (occurrences n raws = 1 →
   build_jobs pf output_dir bodies raws !! i
   = Some (body, os_path_join pf output_dir (n ++ text ".stl"))) ∧
  (1 < occurrences n raws →
   build_jobs pf output_dir bodies raws !! i
   = Some (body,
           os_path_join pf output_dir
             (n ++ text " (" ++ str_of_nat (S (occurrences n (take i raws)))
                ++ text ")" ++ text ".stl"))).
Proof.
  intros Hlen Hb Hn.
  rewrite (build_jobs_lookup pf output_dir bodies raws i body n) by done.
  split; intros Hocc.
  - rewrite decide_False by lia. done.
  - rewrite decide_True by done. by rewrite <- !(assoc_L (++)).
Qed.

(** The scenario of the bodies Part, Part and Cylinder1, on macOS and on
    Windows. *)
Lemma numbering_scenario (lower : str → str) :
  let bodies := [body_named "Part" "t1"; body_named "Part" "t2";
                 body_named "Cylinder1" "t3"] in
  (build_jobs posix (text "/out") bodies (raw_names None bodies)).*2
  = [text "/out/Part (1).stl"; text "/out/Part (2).stl";
     text "/out/Cylinder1.stl"] ∧
  (build_jobs (nt lower) (text "C:\out") bodies (raw_names None bodies)).*2
  = [text "C:\out\Part (1).stl"; text "C:\out\Part (2).stl";
     text "C:\out\Cylinder1.stl"].
Proof. split; vm_compute; reflexivity. Qed.

(** The clash of C1 does not depend on the folder or on the platform: the
    first and the third destination are one path. *)
Lemma numbering_clash_everywhere (pf : Platform) (output_dir : str) :
  let bodies := [body_named "Part" "t1"; body_named "Part" "t2";
                 body_named "Part (1)" "t3"] in
  let jobs := build_jobs pf output_dir bodies (raw_names None bodies) in
  jobs.*2 !! 0 = Some (os_path_join pf output_dir (text "Part (1).stl")) ∧
  jobs.*2 !! 2 = Some (os_path_join pf output_dir (text "Part (1).stl")).
Proof.
  intros bodies jobs. subst jobs. rewrite !list_lookup_fmap.
  rewrite (build_jobs_lookup pf output_dir bodies _ 0
             (body_named "Part" "t1") (text "Part")) by done.
  rewrite (build_jobs_lookup pf output_dir bodies _ 2
             (body_named "Part (1)" "t3") (text "Part (1)")) by done.
  split; reflexivity.
Qed.

(** C1.  The numbering does not keep the destinations apart when a
    numbered name is also the name of another body.  For bodies named
    Part, Part and Part (1), all selected through select-all and exported
    to /out, the first and the third job both go to /out/Part (1).stl, and
    the export facility is called on that path twice. *)
Theorem numbering_clash :
  let bodies := [body_named "Part" "t1"; body_named "Part" "t2";
                 body_named "Part (1)" "t3"] in
  let w := user_clicks_selectAll 2
             (quiet_world (mkDesign [mkComponent bodies])
                          (created_dialog (text "/out"))) in
  let raws := raw_names (d_bodyListGroup (inputs w)) bodies in
  let jobs := build_jobs (os_name w) (text "/out") bodies raws in
  d_bodySelection (inputs w) = Some bodies ∧
  raws = [text "Part"; text "Part"; text "Part (1)"] ∧
  jobs.*2 = [text "/out/Part (1).stl"; text "/out/Part (2).stl";
             text "/out/Part (1).stl"] ∧
  ¬ NoDup jobs.*2 ∧
  exports (trace (_OnExecute_notify w))
  = [(body_named "Part" "t1", text "/out/Part (1).stl", None);
     (body_named "Part" "t2", text "/out/Part (2).stl", None);
     (body_named "Part (1)" "t3", text "/out/Part (1).stl", None)].
Proof.
  vm_compute. split_and!; try reflexivity.
  intros Hnd. apply NoDup_cons in Hnd as [Hnotin _]. apply Hnotin.
  apply list_elem_of_further, list_elem_of_here.
Qed.

(** ** Cancellation as the progress dialog reports it *)

Lemma clicked_by_shift (w w' : World) (m n : nat) :
  cancel_click w' = cancel_click w →
  pumps w' = pumps w + m →
  shown (prog w') = shown (prog w) →
  wasCancelled (prog w') = clicked_by w m →
  clicked_by w' n = clicked_by w (m + n).
Proof.
  intros Hc Hp Hs Hf. unfold clicked_by in *.
  rewrite Hc, Hp, Hs, Hf, seq_app, existsb_app.
  destruct (wasCancelled (prog w)), (shown (prog w)); cbn;
    rewrite ?orb_false_r; done.
Qed.

Lemma clicked_by_mono (w : World) (n m : nat) :
  n ≤ m → clicked_by w n = true → clicked_by w m = true.
Proof.
  intros Hle. replace m with (n + (m - n)) by lia.
  unfold clicked_by. rewrite seq_app, existsb_app.
  destruct (wasCancelled (prog w)), (shown (prog w)); cbn; try done.
  by intros ->.
Qed.

Lemma doEvents_run (w : World) :
  ∃ w', doEvents w = (Ok (), w') ∧
    cancel_click w' = cancel_click w ∧
    export_fault w' = export_fault w ∧
    pumps w' = pumps w + 1 ∧
    shown (prog w') = shown (prog w) ∧
    wasCancelled (prog w') = clicked_by w 1 ∧
    files w' = files w ∧
    trace w' = trace w.
Proof.
  eexists. split; [reflexivity|]. cbn. unfold clicked_by. cbn.
  split_and!; try done; [lia|]. by rewrite orb_false_r.
Qed.

(** ** The export loop *)

#[local] Arguments Nat.mul : simpl never.

Lemma successes_cons (x : Body * str * option str)
    (outcome : list (Body * str * option str)) :
  successes (x :: outcome) = successes [x] + successes outcome.
Proof.
  unfold successes. rewrite !filter_cons.
  by destruct (decide (x.2 = None)).
Qed.

Lemma error_lines_cons (x : Body * str * option str)
    (outcome : list (Body * str * option str)) :
  error_lines (x :: outcome) = error_lines [x] ++ error_lines outcome.
Proof. unfold error_lines. cbn. by destruct (x.2). Qed.

Lemma export_execute_run (job : Body * str) (q : MeshRefinement) (w : World) :
  let fault := export_fault w (files w) job.1 job.2 in
  ∃ w', export_execute job.1 job.2 q w
        = (match fault with
           | None => Ok ()
           | Some msg => Raise (Exn RuntimeError msg)
           end, w') ∧
    cancel_click w' = cancel_click w ∧
    export_fault w' = export_fault w ∧
    pumps w' = pumps w ∧
    prog w' = prog w ∧
    trace w' = trace w ++ [EExport job.1 job.2 q fault].
Proof.
  intros fault. unfold export_execute. py_run. fold fault.
  destruct fault; eexists; split; reflexivity || done.
Qed.

Lemma export_loop_run (q : MeshRefinement) (jobs : list (Body * str)) :
  ∀ (i : nat) (t : Tally) (w : World),
  ∃ t' w' outcome,
    export_loop q i jobs t w = (Ok t', w') ∧
    trace w' = trace w ++ ((λ x, EExport x.1.1 x.1.2 q x.2) <$> outcome) ∧
    outcome.*1 = take (length outcome) jobs ∧
    length outcome ≤ length jobs ∧
    exported t' = exported t + successes outcome ∧
    errors t' = errors t ++ error_lines outcome ∧
    cancelled t' = cancelled t || bool_decide (length outcome < length jobs) ∧
    (∀ j, j < length jobs →
          (j < length outcome ↔ clicked_by w (2 * j + 1) = false)) ∧
    Forall (λ x, ∃ fs, x.2 = export_fault w fs x.1.1 x.1.2) outcome.
Proof.
  induction jobs as [|job rest IH]; intros i t w.
  - exists t, w, []. cbn. rewrite !app_nil_r, orb_false_r, Nat.add_0_r.
    split_and!; try done. intros; lia.
  - cbn [export_loop]. rewrite run_bind.
    destruct (doEvents_run w) as (w1 & -> & Hc1 & He1 & Hp1 & Hs1 & Hf1 & _ & Ht1).
    rewrite run_bind. unfold gets at 1. cbn beta iota. rewrite Hf1.
    destruct (clicked_by w 1) eqn:Hflag.
    + exists (mkTally (exported t) (errors t) true), w1, [].
      cbn. rewrite !app_nil_r, orb_true_r, !Nat.add_0_r.
      split_and!; try done; [lia|].
      intros j _. split; [lia|]. intros Hj.
      rewrite (clicked_by_mono w 1 (2 * j + 1)) in Hj by (done || lia). done.
    + rewrite run_bind. unfold prog_set_progressValue at 1, modify at 1.
      cbn beta iota.
      rewrite run_bind.
      match goal with |- context [doEvents ?w0] =>
        destruct (doEvents_run w0) as (w2 & Hrun2 & Hc2 & He2 & Hp2 & Hs2 & Hf2 & _ & Ht2)
      end.
      rewrite Hrun2, run_bind. unfold try_except at 1.
      destruct (export_execute_run job q w2) as (w3 & -> & Hc3 & He3 & Hp3 & Hg3 & Ht3).
      cbn in Hc2, He2, Hp2, Hs2, Ht2.
      rewrite (clicked_by_shift w _ 1 1) in Hf2
        by (cbn; rewrite ?Hflag; done).
      assert (∀ n, clicked_by w3 n = clicked_by w (2 + n)) as Hshift.
      { intros n. apply clicked_by_shift.
        - by rewrite Hc3, Hc2.
        - rewrite Hp3, Hp2, Hp1. lia.
        - by rewrite Hg3, Hs2.
        - by rewrite Hg3, Hf2. }
      set (fault := export_fault w2 (files w2) job.1 job.2) in *.
      assert (∀ t2,
        exported t2 = exported t + successes [(job, fault)] →
        errors t2 = errors t ++ error_lines [(job, fault)] →
        cancelled t2 = cancelled t →
        ∃ t' w' outcome,
          export_loop q (S i) rest t2 w3 = (Ok t', w') ∧
          trace w' = trace w ++
            ((λ x, EExport x.1.1 x.1.2 q x.2) <$> outcome) ∧
          outcome.*1 = take (length outcome) (job :: rest) ∧
          length outcome ≤ length (job :: rest) ∧
          exported t' = exported t + successes outcome ∧
          errors t' = errors t ++ error_lines outcome ∧
          cancelled t' = cancelled t
                         || bool_decide (length outcome < length (job :: rest)) ∧
          (∀ j, j < length (job :: rest) →
                (j < length outcome ↔ clicked_by w (2 * j + 1) = false)) ∧
          Forall (λ x, ∃ fs, x.2 = export_fault w fs x.1.1 x.1.2) outcome)
        as Hrest.
      { intros t2 Hx He Hcn.
        destruct (IH (S i) t2 w3)
          as (t' & w' & outcome & Hrun & Htr & Hpre & Hlen & Hex & Her & Hcan
              & Hpoll & Hor).
        exists t', w', ((job, fault) :: outcome).
        split_and!.
        - done.
        - rewrite Htr, Ht3, Ht2, Ht1, <- (assoc_L (++)). done.
        - cbn. by rewrite Hpre.
        - cbn. lia.
        - rewrite Hex, Hx, (successes_cons _ outcome). lia.
        - by rewrite Her, He, (error_lines_cons _ outcome), <- (assoc_L (++)).
        - rewrite Hcan, Hcn. f_equal. cbn. apply bool_decide_ext. lia.
        - intros [|j] Hj.
          + cbn. split; [done|]. lia.
          + cbn [length] in *. rewrite <- Nat.succ_lt_mono.
            rewrite Hpoll by lia. rewrite Hshift.
            by replace (2 + (2 * j + 1)) with (2 * S j + 1) by lia.
        - constructor.
          + exists (files w2). cbn. subst fault. by rewrite He2, He1.
          + eapply Forall_impl; [exact Hor|]. intros x [fs Hx'].
            exists fs. by rewrite Hx', He3, He2, He1. }
      destruct fault as [msg|]; apply Hrest; cbn; rewrite ?app_nil_r;
        try done; unfold successes; cbn; lia.
Qed.

(** ** Phase 1: the files in the way *)

Lemma remove_if_exists_run (n : nat) (job : Body * str) (w : World) :
  remove_if_exists n job w
  = match files w !! job.2 with
    | None => (Ok n, w)
    | Some (File true) =>
        (Ok (n + 1),
         set_trace (trace w ++ [ERemove job.2 true])
           (set_files (delete job.2 (files w)) w))
    | Some _ => (Ok n, set_trace (trace w ++ [ERemove job.2 false]) w)
    end.
Proof.
  unfold remove_if_exists, os_path_exists, os_remove. py_run.
  destruct (files w !! job.2) as [[[|]|]|] eqn:Hf; cbn; try done;
    rewrite Hf; done.
Qed.

(** The turn of a path whose entry stays: a file that cannot be removed,
    or a directory. *)
Ltac kept_in_place IH n w job Hf :=
  let w' := fresh "w'" in
  let rems := fresh "rems" in
  destruct (IH n (set_trace (trace w ++ [ERemove job.2 false]) w))
    as (w' & rems & -> & Htr & Hc & He & Hp & Hg & Hatt & Hin & Hfs & Hfail);
  cbn in Htr, Hc, He, Hp, Hg, Hatt, Hin, Hfs;
  exists w', ((job.2, false) :: rems); split_and!; try done;
  [ rewrite Htr, <- (assoc_L (++)); done
  | intros p Hp' Hsome; cbn in Hp';
    apply elem_of_cons in Hp' as [->|Hp']; [exists false; by left|];
    destruct (Hatt p Hp' Hsome) as [ok Hok]; exists ok; by right
  | intros p ok Hp'; apply elem_of_cons in Hp' as [[= -> ->]|Hp'];
    [ split_and!; [by left|by rewrite Hf|done]
    | destruct (Hin p ok Hp') as (? & Hs & Hok);
      split_and!; [by right|done|done] ]
  | intros p; destruct (Hfs p) as [Hsame|[Hnone Hrem]]; [by left|];
    right; split; [done|by right]
  | intros p Hp'; apply elem_of_cons in Hp' as [[= ->]|Hp'];
    [|by apply Hfail];
    destruct (Hfs job.2) as [->|[_ Hrem]]; [by rewrite Hf|];
    destruct (Hin _ _ Hrem) as (_ & _ & Hs); rewrite Hf in Hs;
    by specialize (Hs eq_refl) ].

Lemma remove_existing_run (jobs : list (Body * str)) :
  ∀ (n : nat) (w : World),
  ∃ w' rems,
    for_fold remove_if_exists n jobs w
    = (Ok (n + length (filter (λ r, r.2 = true) rems)), w') ∧
    trace w' = trace w ++ ((λ r, ERemove r.1 r.2) <$> rems) ∧
    cancel_click w' = cancel_click w ∧
    export_fault w' = export_fault w ∧
    pumps w' = pumps w ∧
    prog w' = prog w ∧
    (∀ p, p ∈ jobs.*2 → is_Some (files w !! p) → ∃ ok, (p, ok) ∈ rems) ∧
    (∀ p ok, (p, ok) ∈ rems →
             p ∈ jobs.*2 ∧ is_Some (files w !! p) ∧
             (ok = true → files w !! p = Some (File true))) ∧
    (∀ p, files w' !! p = files w !! p ∨
          files w' !! p = None ∧ (p, true) ∈ rems) ∧
    (∀ p, (p, false) ∈ rems → is_Some (files w' !! p)).
Proof.
  induction jobs as [|job rest IH]; intros n w.
  - exists w, []. cbn. rewrite app_nil_r, Nat.add_0_r.
    split_and!; try done.
    + intros p Hp. by apply elem_of_nil in Hp.
    + intros p ok Hp. by apply elem_of_nil in Hp.
    + by left.
    + intros p Hp. by apply elem_of_nil in Hp.
  - cbn [for_fold]. rewrite run_bind, remove_if_exists_run.
    destruct (files w !! job.2) as [[[|]|]|] eqn:Hf.
    + (* a removable file *)
      destruct (IH (n + 1)
                  (set_trace (trace w ++ [ERemove job.2 true])
                     (set_files (delete job.2 (files w)) w)))
        as (w' & rems & -> & Htr & Hc & He & Hp & Hg & Hatt & Hin & Hfs & Hfail).
      cbn in Htr, Hc, He, Hp, Hg, Hatt, Hin, Hfs.
      exists w', ((job.2, true) :: rems). split_and!; try done.
      * rewrite filter_cons_True by done. cbn. do 2 f_equal. lia.
      * rewrite Htr, <- (assoc_L (++)). done.
      * intros p Hp' Hsome. destruct (decide (p = job.2)) as [->|Hne].
        -- exists true. by left.
        -- cbn in Hp'. apply elem_of_cons in Hp' as [?|Hp']; [done|].
           destruct (Hatt p Hp') as [ok Hok].
           ++ by rewrite lookup_delete_ne.
           ++ exists ok. by right.
      * intros p ok Hp'. apply elem_of_cons in Hp' as [[= -> ->]|Hp'].
        -- split_and!; [by left|by rewrite Hf|done].
        -- destruct (Hin p ok Hp') as (? & Hs & Hok).
           destruct (decide (p = job.2)) as [->|Hne].
           ++ by rewrite lookup_delete_eq in Hs; destruct Hs.
           ++ rewrite lookup_delete_ne in Hs, Hok by done.
              split_and!; [by right|done|done].
      * intros p. destruct (Hfs p) as [Hsame|[Hnone Hrem]].
        -- destruct (decide (p = job.2)) as [->|Hne].
           ++ right. rewrite lookup_delete_eq in Hsame. split; [done|by left].
           ++ left. by rewrite lookup_delete_ne in Hsame.
        -- right. split; [done|by right].
      * intros p Hp'. apply elem_of_cons in Hp' as [[=]|Hp']. by apply Hfail.
    + (* a file that cannot be removed *)
      kept_in_place IH n w job Hf.
    + (* a directory *)
      kept_in_place IH n w job Hf.
    + (* nothing there *)
      destruct (IH n w)
        as (w' & rems & -> & Htr & Hc & He & Hp & Hg & Hatt & Hin & Hfs & Hfail).
      exists w', rems. split_and!; try done.
      * intros p Hp' Hsome. cbn in Hp'.
        apply elem_of_cons in Hp' as [->|Hp']; [|by apply Hatt].
        rewrite Hf in Hsome. by destruct Hsome.
      * intros p ok Hp'. destruct (Hin p ok Hp') as (? & ? & ?).
        split_and!; [by right|done|done].
Qed.

(** ** The batch *)

Lemma removals_app (t1 t2 : list Effect) :
  removals (t1 ++ t2) = removals t1 ++ removals t2.
Proof. apply omap_app. Qed.

Lemma exports_app (t1 t2 : list Effect) :
  exports (t1 ++ t2) = exports t1 ++ exports t2.
Proof. apply omap_app. Qed.

Lemma removals_of_removes (rems : list (str * bool)) :
  removals ((λ r, ERemove r.1 r.2) <$> rems) = rems ∧
  exports ((λ r, ERemove r.1 r.2) <$> rems) = [].
Proof.
  induction rems as [|[p ok] rems [IH1 IH2]]; [done|].
  cbn. split; [by f_equal|done].
Qed.

Lemma exports_of_exports (q : MeshRefinement)
    (outcome : list (Body * str * option str)) :
  exports ((λ x, EExport x.1.1 x.1.2 q x.2) <$> outcome) = outcome ∧
  removals ((λ x, EExport x.1.1 x.1.2 q x.2) <$> outcome) = [].
Proof.
  induction outcome as [|[[b p] f] outcome [IH1 IH2]]; [done|].
  cbn. split; [by f_equal|done].
Qed.

(** What [run_jobs] does, for every job list and every world. *)
Lemma run_jobs_run (q : MeshRefinement) (output_dir : str)
    (jobs : list (Body * str)) (w : World) :
  ∃ t n w' rems outcome,
    run_jobs q output_dir jobs w = (Ok (t, n), w') ∧
    trace w' = trace w ++ ((λ r, ERemove r.1 r.2) <$> rems)
                       ++ ((λ x, EExport x.1.1 x.1.2 q x.2) <$> outcome)
                       ++ [EMessageBox
                             (MsgText (join [10%N] (summary t n output_dir)))] ∧
    n = length (filter (λ r, r.2 = true) rems) ∧
    (∀ p, p ∈ jobs.*2 → is_Some (files w !! p) → ∃ ok, (p, ok) ∈ rems) ∧
    (∀ p ok, (p, ok) ∈ rems → p ∈ jobs.*2 ∧ is_Some (files w !! p)) ∧
    outcome.*1 = take (length outcome) jobs ∧
    length outcome ≤ length jobs ∧
    exported t = successes outcome ∧
    errors t = error_lines outcome ∧
    cancelled t = bool_decide (length outcome < length jobs) ∧
    (∀ j, j < length jobs →
          (j < length outcome ↔ cancel_delivered w (2 * j + 2) = false)) ∧
    Forall (λ x, ∃ fs, x.2 = export_fault w fs x.1.1 x.1.2) outcome.
Proof.
  unfold run_jobs, remove_existing. rewrite run_bind.
  destruct (remove_existing_run jobs 0 w)
    as (wa & rems & -> & Htra & Hca & Hea & Hpa & Hga & Hatt & Hin & _ & _).
  rewrite run_bind. unfold prog_show at 1, modify at 1. cbn beta iota.
  rewrite run_bind.
  match goal with |- context [doEvents ?w0] =>
    destruct (doEvents_run w0)
      as (wb & -> & Hcb & Heb & Hpb & Hsb & Hfb & _ & Htb);
    set (w0' := w0) in *
  end.
  rewrite run_bind.
  destruct (export_loop_run q jobs 0 (mkTally 0 [] false) wb)
    as (t & wc & outcome & -> & Htrc & Hpre & Hlen & Hex & Her & Hcan
        & Hpoll & Hor).
  exists t, (length (filter (λ r, r.2 = true) rems)).
  eexists. exists rems, outcome. split; [py_run; reflexivity|].
  cbn in *. split_and!; try done.
  - rewrite Htrc, Htb, Htra. by rewrite <- !(assoc_L (++)).
  - intros p ok Hp. by destruct (Hin p ok Hp) as (? & ? & _).
  - intros j Hj. rewrite (Hpoll j Hj).
    unfold clicked_by, cancel_delivered in *. rewrite Hfb, Hsb, Hcb, Hpb.
    subst w0'. cbn. rewrite Hca, Hpa.
    replace (2 * j + 2) with (1 + (2 * j + 1)) by lia.
    rewrite (seq_app 1). cbn [seq existsb]. rewrite Nat.add_1_r.
    by rewrite !orb_false_r.
  - eapply Forall_impl; [exact Hor|]. intros x [fs Hx]. exists fs.
    by rewrite Hx, Heb, Hea.
Qed.

Lemma cancel_delivered_mono (w : World) (n m : nat) :
  n ≤ m → cancel_delivered w m = false → cancel_delivered w n = false.
Proof.
  intros Hle. replace m with (n + (m - n)) by lia.
  unfold cancel_delivered. rewrite seq_app, existsb_app.
  by intros [-> _]%orb_false_elim.
Qed.

Lemma successes_app (o1 o2 : list (Body * str * option str)) :
  successes (o1 ++ o2) = successes o1 + successes o2.
Proof. unfold successes. by rewrite filter_app, length_app. Qed.

Lemma error_lines_app (o1 o2 : list (Body * str * option str)) :
  error_lines (o1 ++ o2) = error_lines o1 ++ error_lines o2.
Proof. apply omap_app. Qed.

Lemma all_succeeded (outcome : list (Body * str * option str)) :
  Forall (λ x, x.2 = None) outcome →
  successes outcome = length outcome ∧ error_lines outcome = [].
Proof.
  induction 1 as [|x rest Hx _ [IH1 IH2]]; [done|].
  rewrite successes_cons, error_lines_cons, IH1, IH2.
  unfold successes, error_lines. cbn. rewrite Hx. cbn.
  by rewrite decide_True.
Qed.

Lemma tally_total (outcome : list (Body * str * option str)) :
  successes outcome + length (error_lines outcome) = length outcome.
Proof.
  induction outcome as [|x rest IH]; [done|].
  rewrite successes_cons, error_lines_cons, length_app. cbn [length].
  assert (successes [x] + length (error_lines [x]) = 1) as Hx
    by (destruct x as [bp [msg|]]; reflexivity).
  lia.
Qed.

Lemma batch_trace (q : MeshRefinement) (before : list Effect)
    (rems : list (str * bool)) (outcome : list (Body * str * option str))
    (m : Message) (after : list Effect) :
  after = before ++ ((λ r, ERemove r.1 r.2) <$> rems)
                 ++ ((λ x, EExport x.1.1 x.1.2 q x.2) <$> outcome)
                 ++ [EMessageBox m] →
  exports after = exports before ++ outcome ∧
  removals after = removals before ++ rems ∧
  last after = Some (EMessageBox m).
Proof.
  intros ->. rewrite !exports_app, !removals_app.
  destruct (removals_of_removes rems) as [-> ->].
  destruct (exports_of_exports q outcome) as [-> ->].
  cbn. rewrite !app_nil_r. split_and!; [done..|].
  rewrite !(assoc_L (++)). apply last_snoc.
Qed.

Lemma all_jobs_tried (w : World) (jobs : list (Body * str))
    (outcome : list (Body * str * option str)) :
  outcome.*1 = take (length outcome) jobs →
  length outcome ≤ length jobs →
  (∀ j, j < length jobs →
        (j < length outcome ↔ cancel_delivered w (2 * j + 2) = false)) →
  cancel_delivered w (2 * length jobs) = false →
  outcome.*1 = jobs.
Proof.
  intros Hpre Hlen Hpoll Hquiet.
  assert (length outcome = length jobs) as Hall.
  { destruct (decide (length outcome = length jobs)) as [|Hne]; [done|].
    exfalso. assert (length outcome < length jobs) as Hlt by lia.
    apply (Nat.lt_irrefl (length outcome)).
    apply (Hpoll _ Hlt). eapply cancel_delivered_mono; [|exact Hquiet]. lia. }
  by rewrite Hpre, Hall, firstn_all.
Qed.

(** C2.  Phase 1 calls [os.remove] on every destination that exists, and
    all these calls come before the first export.  A call that fails
    changes no count and stops nothing: [run_jobs] goes on to the exports
    and to the summary, and with no click on Cancel every job is exported.
    The overwritten count is the number of calls that succeeded, and the
    summary has a line for it when it is not zero. *)
Theorem cleanup_before_export (q : MeshRefinement) (output_dir : str)
    (jobs : list (Body * str)) (w : World) :
  ∃ t n w' rems outcome,
    run_jobs q output_dir jobs w = (Ok (t, n), w') ∧
    trace w' = trace w ++ ((λ r, ERemove r.1 r.2) <$> rems)
                       ++ ((λ x, EExport x.1.1 x.1.2 q x.2) <$> outcome)
                       ++ [EMessageBox
                             (MsgText (join [10%N] (summary t n output_dir)))] ∧
    (∀ p, p ∈ jobs.*2 → is_Some (files w !! p) → ∃ ok, (p, ok) ∈ rems) ∧
    (∀ p ok, (p, ok) ∈ rems → p ∈ jobs.*2 ∧ is_Some (files w !! p)) ∧
    n = length (filter (λ r, r.2 = true) rems) ∧
    (n ≠ 0 → text "Overwritten: " ++ str_of_nat n ∈ summary t n output_dir) ∧
    (cancel_delivered w (2 * length jobs) = false → outcome.*1 = jobs).
Proof.
  destruct (run_jobs_run q output_dir jobs w)
    as (t & n & w' & rems & outcome & Hrun & Htr & Hn & Hatt & Hin & Hpre
        & Hlen & _ & _ & _ & Hpoll & _).
  exists t, n, w', rems, outcome. split_and!; try done.
  - intros Hne. unfold summary. rewrite decide_False by done.
    apply elem_of_app. right. apply elem_of_app. left. by left.
  - by apply all_jobs_tried.
Qed.

Lemma cleanup_before_export_witness :
  let jobs := [(body_named "Part" "t1", text "/out/Part.stl");
               (body_named "Lid" "t2", text "/out/Lid.stl")] in
  let w := set_files {[ text "/out/Part.stl" := File false;
                        text "/out/Lid.stl" := File true ]}
             (quiet_world (mkDesign []) (created_dialog (text "/out"))) in
  ∃ t n w' rems (outcome : list (Body * str * option str)),
    run_jobs MeshRefinementHigh (text "/out") jobs w = (Ok (t, n), w') ∧
    n = length (filter (λ r, r.2 = true) rems) ∧
    (∃ ok, (text "/out/Part.stl", ok) ∈ rems) ∧
    outcome.*1 = jobs.
Proof.
  intros jobs w.
  destruct (cleanup_before_export MeshRefinementHigh (text "/out") jobs w)
    as (t & n & w' & rems & outcome & Hrun & _ & Hatt & _ & Hn & _ & Hall).
  exists t, n, w', rems, outcome. split_and!.
  - exact Hrun.
  - exact Hn.
  - apply Hatt; [elem_now|]. vm_compute. eexists. reflexivity.
  - apply Hall. reflexivity.
Defined.

(** A file that cannot be removed is in the way of the only job: the
    removal fails, the export runs with the file still there, the
    overwritten count is zero and the summary is word for word the one of
    the same batch on an empty disk. *)
Lemma cleanup_failure_uncounted :
  let p := text "/out/Part.stl" in
  let jobs := [(body_named "Part" "t1", p)] in
  let empty := quiet_world (mkDesign []) (created_dialog (text "/out")) in
  let w := set_files {[ p := File false ]} empty in
  let r := run_jobs MeshRefinementHigh (text "/out") jobs w in
  is_Some (files w !! p) ∧
  r.1 = Ok (mkTally 1 [] false, 0) ∧
  trace r.2
  = [ERemove p false;
     EExport (body_named "Part" "t1") p MeshRefinementHigh None;
     EMessageBox
       (MsgText (text "Exported: 1" ++ [10%N; 10%N] ++ text "Location: /out"))] ∧
  r.1 = (run_jobs MeshRefinementHigh (text "/out") jobs empty).1 ∧
  last (trace r.2)
  = last (trace (run_jobs MeshRefinementHigh (text "/out") jobs empty).2).
Proof.
  vm_compute. split_and!; try reflexivity. eexists. reflexivity.
Qed.

(** C4.  The flag of the progress dialog is read before each job, after a
    call of [adsk.doEvents]: the jobs exported are a first part of the job
    list, the j-th job is exported exactly when no click on Cancel was
    delivered by the calls made up to its check, and a job that is not
    exported adds neither to the count of exports nor to the errors.  When
    a click is delivered after the second of five jobs and these two
    exports raise nothing, the summary says 2 exported, carries the
    cancellation notice, and has no error line. *)
Theorem cancel_stops_batch (q : MeshRefinement) (output_dir : str)
    (jobs : list (Body * str)) (w : World) :
  ∃ t n w' outcome,
    run_jobs q output_dir jobs w = (Ok (t, n), w') ∧
    exports (trace w') = exports (trace w) ++ outcome ∧
    last (trace w')
    = Some (EMessageBox (MsgText (join [10%N] (summary t n output_dir)))) ∧
    outcome.*1 = take (length outcome) jobs ∧
    (∀ j, j < length jobs →
          (j < length outcome ↔ cancel_delivered w (2 * j + 2) = false)) ∧
    exported t + length (errors t) = length outcome ∧
    cancelled t = bool_decide (length outcome < length jobs) ∧
    (length jobs = 5 →
     cancel_delivered w 4 = false →
     cancel_delivered w 6 = true →
     (∀ fs job, job ∈ take 2 jobs → export_fault w fs job.1 job.2 = None) →
     outcome.*1 = take 2 jobs ∧
     exported t = 2 ∧ errors t = [] ∧ cancelled t = true ∧
     summary t n output_dir
     = [text "Exported: 2"] ++
       (if decide (n = 0) then []
        else [text "Overwritten: " ++ str_of_nat n]) ++
       [[10%N] ++ text "Export cancelled by user.";
        [10%N] ++ text "Location: " ++ output_dir]).
Proof.
  destruct (run_jobs_run q output_dir jobs w)
    as (t & n & w' & rems & outcome & Hrun & Htr & Hn & Hatt & Hin & Hpre
        & Hlen & Hex & Her & Hcan & Hpoll & Hor).
  destruct (batch_trace q _ _ _ _ _ Htr) as (Hexp & _ & Hlast).
  exists t, n, w', outcome. split_and!; try done.
  - rewrite Hex, Her. apply tally_total.
  - intros Hfive Hbefore Hafter Hfine.
    assert (length outcome = 2) as Htwo.
    { pose proof (Hpoll 1 ltac:(lia)) as H1.
      pose proof (Hpoll 2 ltac:(lia)) as H2.
      change (2 * 1 + 2) with 4 in H1. change (2 * 2 + 2) with 6 in H2.
      rewrite Hafter in H2. apply H1 in Hbefore.
      destruct (decide (2 < length outcome)) as [Hgt|Hgt]; [|lia].
      by apply H2 in Hgt. }
    rewrite Htwo in Hpre.
    assert (Forall (λ x, x.2 = None) outcome) as Hnone.
    { apply Forall_forall. intros x Hx.
      destruct (proj1 (Forall_forall _ _) Hor x Hx) as [fs ->].
      apply (Hfine fs x.1). rewrite <- Hpre.
      by apply list_elem_of_fmap_2. }
    destruct (all_succeeded outcome Hnone) as [Hs He].
    rewrite Hs, Htwo in Hex. rewrite He in Her.
    rewrite Htwo, Hfive in Hcan. split_and!; try done.
    destruct t as [ex er ca]. cbn in *. subst ex er ca.
    unfold summary. cbn. by destruct (decide (n = 0)).
Qed.

Lemma cancel_stops_batch_witness :
  let jobs := [(body_named "A" "t1", text "/out/A.stl");
               (body_named "B" "t2", text "/out/B.stl");
               (body_named "C" "t3", text "/out/C.stl");
               (body_named "D" "t4", text "/out/D.stl");
               (body_named "E" "t5", text "/out/E.stl")] in
  let w := mkWorld false ∅ (Some (mkDesign [])) (created_dialog (text "/out"))
             ∅ None WriteOk None (λ n, bool_decide (n = 5)) (λ _ _ _, None)
             0 (mkProgress false 0 0 false) [] posix (λ _, None) in
  ∃ t n w' (outcome : list (Body * str * option str)),
    run_jobs MeshRefinementHigh (text "/out") jobs w = (Ok (t, n), w') ∧
    outcome.*1 = take 2 jobs ∧
    exported t = 2 ∧ errors t = [] ∧ cancelled t = true.
Proof.
  intros jobs w.
  destruct (cancel_stops_batch MeshRefinementHigh (text "/out") jobs w)
    as (t & n & w' & outcome & Hrun & _ & _ & _ & _ & _ & _ & Hscenario).
  destruct Hscenario as (Hpre & Hex & Her & Hcan & _);
    [reflexivity|reflexivity|reflexivity|reflexivity|].
  exists t, n, w', outcome.
  split; [exact Hrun|]. split; [exact Hpre|]. split; [exact Hex|].
  split; [exact Her|exact Hcan].
Defined.

(** C5.  [run_jobs] never raises, whatever the export facility does: an
    export that raises is logged as one line of [errors], made of the name
    of the body and the text of the exception, and the loop goes on.  With
    no click on Cancel every job is tried; if then exactly one export
    raised, the summary counts all the others as exported and has one
    error line, with the name of that body. *)
Theorem export_fault_contained (q : MeshRefinement) (output_dir : str)
    (jobs : list (Body * str)) (w : World) :
  ∃ t n w' outcome,
    run_jobs q output_dir jobs w = (Ok (t, n), w') ∧
    exports (trace w') = exports (trace w) ++ outcome ∧
    last (trace w')
    = Some (EMessageBox (MsgText (join [10%N] (summary t n output_dir)))) ∧
    Forall (λ x, ∃ fs, x.2 = export_fault w fs x.1.1 x.1.2) outcome ∧
    exported t = successes outcome ∧
    errors t = error_lines outcome ∧
    (∀ body p msg, (body, p, Some msg) ∈ outcome →
                   name body ++ text ": " ++ msg ∈ errors t) ∧
    (cancel_delivered w (2 * length jobs) = false →
     outcome.*1 = jobs ∧
     ∀ pre body p msg post,
       outcome = pre ++ [(body, p, Some msg)] ++ post →
       Forall (λ x, x.2 = None) (pre ++ post) →
       exported t = length jobs - 1 ∧
       errors t = [name body ++ text ": " ++ msg] ∧
       cancelled t = false ∧
       summary t n output_dir
       = [text "Exported: " ++ str_of_nat (length jobs - 1)] ++
         (if decide (n = 0) then []
          else [text "Overwritten: " ++ str_of_nat n]) ++
         [text "Errors:   1";
          text "  " ++ [8226%N] ++ text " " ++ name body ++ text ": " ++ msg;
          [10%N] ++ text "Location: " ++ output_dir]).
Proof.
  destruct (run_jobs_run q output_dir jobs w)
    as (t & n & w' & rems & outcome & Hrun & Htr & Hn & Hatt & Hin & Hpre
        & Hlen & Hex & Her & Hcan & Hpoll & Hor).
  destruct (batch_trace q _ _ _ _ _ Htr) as (Hexp & _ & Hlast).
  exists t, n, w', outcome. split_and!; try done.
  - intros body p msg Hin'. rewrite Her. unfold error_lines.
    apply list_elem_of_omap. by exists (body, p, Some msg).
  - intros Hquiet.
    assert (outcome.*1 = jobs) as Hjobs by by apply (all_jobs_tried w).
    split; [done|].
    intros pre body p msg post Hout Hnone.
    apply Forall_app in Hnone as [Hn1 Hn2].
    destruct (all_succeeded pre Hn1) as [Hs1 He1].
    destruct (all_succeeded post Hn2) as [Hs2 He2].
    assert (length jobs = length pre + 1 + length post) as Hlen'.
    { rewrite <- Hjobs, length_fmap, Hout, !length_app. cbn. lia. }
    assert (exported t = length jobs - 1) as Hex'.
    { rewrite Hex, Hout, !successes_app, Hs1, Hs2, Hlen'.
      unfold successes. cbn. rewrite decide_False by done. cbn. lia. }
    assert (errors t = [name body ++ text ": " ++ msg]) as Her'.
    { rewrite Her, Hout, !error_lines_app, He1, He2. done. }
    assert (cancelled t = false) as Hcan'.
    { rewrite Hcan. apply bool_decide_eq_false.
      rewrite <- Hjobs, length_fmap. lia. }
    split_and!; try done.
    destruct t as [ex er ca]. cbn in *. rewrite Hex', Her', Hcan'.
    unfold summary. cbn. by destruct (decide (n = 0)).
Qed.

Lemma export_fault_contained_witness :
  let part := body_named "Part" "t1" in
  let lid := body_named "Lid" "t2" in
  let base := body_named "Base" "t3" in
  let jobs := [(part, text "/out/Part.stl"); (lid, text "/out/Lid.stl");
               (base, text "/out/Base.stl")] in
  let w := mkWorld false ∅ (Some (mkDesign [])) (created_dialog (text "/out"))
             ∅ None WriteOk None (λ _, false)
             (λ _ body _, if decide (name body = text "Lid")
                          then Some (text "disk full") else None)
             0 (mkProgress false 0 0 false) [] posix (λ _, None) in
  ∃ t n w',
    run_jobs MeshRefinementHigh (text "/out") jobs w = (Ok (t, n), w') ∧
    exported t = 2 ∧
    errors t = [text "Lid: disk full"] ∧
    cancelled t = false ∧
    summary t n (text "/out")
    = [text "Exported: 2"; text "Errors:   1";
       text "  " ++ [8226%N] ++ text " Lid: disk full";
       [10%N] ++ text "Location: /out"].
Proof.
  intros part lid base jobs w.
  destruct (export_fault_contained MeshRefinementHigh (text "/out") jobs w)
    as (t & n & w' & outcome & Hrun & Hexp & _ & _ & _ & _ & _ & Hquiet).
  destruct (Hquiet eq_refl) as [_ Hone].
  assert (n = 0 ∧
          outcome = [(part, text "/out/Part.stl", None)] ++
                    [(lid, text "/out/Lid.stl", Some (text "disk full"))] ++
                    [(base, text "/out/Base.stl", None)]) as [Hn Hout].
  { vm_compute in Hrun. injection Hrun as <- <- <-.
    vm_compute in Hexp. by subst outcome. }
  destruct (Hone _ _ _ _ _ Hout) as (Hex & Her & Hcan & Hsum).
  { repeat constructor. }
  exists t, n, w'. split; [exact Hrun|]. split; [exact Hex|].
  split; [exact Her|]. split; [exact Hcan|].
  rewrite Hsum, Hn. reflexivity.
Defined.


(** ** More on the sanitizer *)

Lemma filter_legal_id (name : str) :
  (∀ c, c ∈ name → c ∉ illegal_chars) →
  filter (λ c, c ∉ illegal_chars) name = name.
Proof.
  intros Hall. induction name as [|c r IH]; [done|].
  rewrite filter_cons_True by (apply Hall; by left).
  f_equal. apply IH. intros d Hd. apply Hall. by right.
Qed.

Lemma lstrip_id (s : str) (c : N) :
  head s = Some c → isspace c = false → lstrip s = s.
Proof. destruct s as [|d r]; [done|]. cbn. intros [= ->] ->. done. Qed.

Lemma strip_id (s : str) (c d : N) :
  head s = Some c → isspace c = false →
  last s = Some d → isspace d = false →
  strip s = s.
Proof.
  intros Hh Hc Hl Hd. unfold strip, rstrip.
  rewrite (lstrip_id s c) by done.
  rewrite (lstrip_id (reverse s) d); [by rewrite reverse_involutive| |done].
  by rewrite head_reverse.
Qed.

Lemma clean_name_kept (name : str) (c d : N) :
  (∀ x, x ∈ name → x ∉ illegal_chars) →
  head name = Some c → isspace c = false →
  last name = Some d → isspace d = false →
  _safe_filename name = name.
Proof.
  intros Hlegal Hh Hc Hl Hd. unfold _safe_filename.
  rewrite filter_legal_id by done.
  rewrite (strip_id name c d) by done.
  by destruct name.
Qed.

Lemma safe_filename_is_clean (name : str) :
  (∀ x, x ∈ _safe_filename name → x ∉ illegal_chars) ∧
  ∃ c d, head (_safe_filename name) = Some c ∧ isspace c = false ∧
         last (_safe_filename name) = Some d ∧ isspace d = false.
Proof.
  destruct (_safe_filename_cases name) as [[_ ->]|[Hne ->]].
  - split; [intros x Hx Hbad; by apply (body_legal x)|].
    exists 98%N, 121%N. done.
  - split.
    + intros x Hx. by apply strip_elem, filter_legal in Hx.
    + destruct (strip _) as [|c r] eqn:Hs; [done|].
      destruct (last (c :: r)) as [d|] eqn:Hl.
      * exists c, d. split_and!; [done| |done|].
        -- apply (strip_head (filter (λ c, c ∉ illegal_chars) name)).
           by rewrite Hs.
        -- apply (strip_last (filter (λ c, c ∉ illegal_chars) name)).
           by rewrite Hs.
      * by apply last_None in Hl.
Qed.

(** X1.  Sanitizing twice is sanitizing once. *)
Theorem safe_filename_idempotent (name : str) :
  _safe_filename (_safe_filename name) = _safe_filename name.
Proof.
  destruct (safe_filename_is_clean name) as (Hlegal & c & d & Hh & Hc & Hl & Hd).
  by apply (clean_name_kept _ c d).
Qed.

(** X2.  The names the sanitizer leaves as they are, are the names fit for
    a file name: not empty, none of the nine characters in them, and no
    whitespace at either end. *)
Theorem safe_filename_fixed_points (name : str) :
  _safe_filename name = name ↔
  (∀ x, x ∈ name → x ∉ illegal_chars) ∧
  ∃ c d, head name = Some c ∧ isspace c = false ∧
         last name = Some d ∧ isspace d = false.
Proof.
  split.
  - intros Hfix. rewrite <- Hfix. apply safe_filename_is_clean.
  - intros (Hlegal & c & d & Hh & Hc & Hl & Hd).
    by apply (clean_name_kept _ c d).
Qed.

(** ** More on the settings *)

(** X3.  When the settings file can be written, two saves in a row leave
    the world that one save of the merged dict leaves, the later dict
    winning on the keys both have; so saving the same dict twice is
    saving it once. *)
Theorem save_settings_compose (d1 d2 : gmap str jval) (w : World) :
  settings_write w = WriteOk →
  (_save_settings d2 (_save_settings d1 w).2).2
  = (_save_settings (d2 ∪ d1) w).2 ∧
  (_save_settings d1 (_save_settings d1 w).2).2 = (_save_settings d1 w).2.
Proof.
  intros Hw. rewrite !(save_settings_run _ w), Hw.
  destruct (default (JObject ∅) (settings_json w)) as [d|items|v] eqn:Hd;
    cbn [snd]; rewrite ?save_settings_run, ?Hd; try done.
  cbn. rewrite Hw. unfold set_settings_json. cbn.
  by rewrite !(assoc_L (∪)), (idemp_L (∪)).
Qed.

Lemma save_settings_compose_witness :
  let w := quiet_world (mkDesign []) (created_dialog (text "/tmp")) in
  (_save_settings {[ text "outputPath" := JString (text "/b") ]}
     (_save_settings {[ text "outputPath" := JString (text "/a") ]} w).2).2
  = (_save_settings
       ({[ text "outputPath" := JString (text "/b") ]}
        ∪ {[ text "outputPath" := JString (text "/a") ]}) w).2.
Proof.
  intros w.
  destruct (save_settings_compose
              {[ text "outputPath" := JString (text "/a") ]}
              {[ text "outputPath" := JString (text "/b") ]} w eq_refl)
    as [H _].
  exact H.
Defined.

(** ** The name list and the names the export reads *)

Lemma rebuild_name_list_rows (w : World) (sel : list Body) (old : list Row) :
  d_bodySelection (inputs w) = Some sel →
  d_bodyListGroup (inputs w) = Some old →
  _rebuild_name_list w
  = (Ok (),
     set_inputs
       (set_bodyListGroup
          (imap (λ i body,
                   mkRow i (name body)
                     (default (_safe_filename (name body))
                              (_custom_names w !! entityToken body))) sel)
          (inputs w)) w).
Proof.
  intros Hsel Hgrp. unfold _rebuild_name_list. py_run.
  by rewrite Hsel, Hgrp.
Qed.

Lemma find_row_imap (f : nat → Body → str) (sel : list Body) (i : nat)
    (body : Body) :
  sel !! i = Some body →
  list_find (λ r, row_index r = i)
    (imap (λ i body, mkRow i (name body) (f i body)) sel)
  = Some (i, mkRow i (name body) (f i body)).
Proof.
  intros Hi. apply list_find_Some. split_and!.
  - by rewrite list_lookup_imap, Hi.
  - done.
  - intros j r Hj Hlt. rewrite list_lookup_imap in Hj.
    destruct (sel !! j); [|done]. cbn in Hj. injection Hj as <-. cbn. lia.
Qed.

(** X4.  Once the name list is rebuilt it has one row per selected body,
    in the order of the selection, labelled with the name of the body and
    holding the name stored for the token of the body, or else its
    sanitized display name.  The name the execute handler then reads for
    each body is the sanitized stored name, or else the sanitized display
    name. *)
Theorem rebuilt_names_read_back (w : World) (sel : list Body)
    (old : list Row) :
  d_bodySelection (inputs w) = Some sel →
  d_bodyListGroup (inputs w) = Some old →
  ∃ rows,
    d_bodyListGroup (inputs (_rebuild_name_list w).2) = Some rows ∧
    d_bodySelection (inputs (_rebuild_name_list w).2) = Some sel ∧
    length rows = length sel ∧
    (∀ i body, sel !! i = Some body →
       rows !! i
       = Some (mkRow i (name body)
                 (default (_safe_filename (name body))
                          (_custom_names w !! entityToken body)))) ∧
    raw_names (Some rows) sel
    = (λ body, _safe_filename
                 (default (name body) (_custom_names w !! entityToken body)))
      <$> sel.
Proof.
  intros Hsel Hgrp. rewrite (rebuild_name_list_rows w sel old) by done.
  eexists. split; [reflexivity|]. cbn. split_and!.
  - done.
  - apply length_imap.
  - intros i body Hi. by rewrite list_lookup_imap, Hi.
  - unfold raw_names. apply list_eq. intros i.
    rewrite list_lookup_imap, list_lookup_fmap.
    destruct (sel !! i) as [body|] eqn:Hi; [|done]. cbn. f_equal.
    unfold raw_name. rewrite length_imap.
    rewrite decide_True by by eapply lookup_lt_Some.
    rewrite (find_row_imap
               (λ _ body, default (_safe_filename (name body))
                                  (_custom_names w !! entityToken body))
               sel i body Hi).
    cbn. destruct (_custom_names w !! entityToken body); cbn; [done|].
    destruct (safe_filename_is_clean (name body))
      as (Hlegal & c & d & Hh & Hc & Hl & Hd).
    by apply (clean_name_kept _ c d).
Qed.

Lemma rebuilt_names_read_back_witness :
  let part := body_named "Part" "t1" in
  let lid := body_named "a/b" "t2" in
  let w := set_custom_names {[ text "t1" := text " Top: " ]}
             (set_inputs (set_bodySelection [part; lid]
                            (created_dialog (text "/out")))
                (quiet_world (mkDesign []) (created_dialog (text "/out")))) in
  ∃ rows,
    d_bodyListGroup (inputs (_rebuild_name_list w).2) = Some rows ∧
    (row_value <$> rows) = [text " Top: "; text "ab"] ∧
    raw_names (Some rows) [part; lid] = [text "Top"; text "ab"].
Proof.
  intros part lid w.
  destruct (rebuilt_names_read_back w [part; lid] [] eq_refl eq_refl)
    as (rows & Hrows & _ & _ & Hrow & Hraw).
  exists rows. split; [exact Hrows|]. split; [|by rewrite Hraw].
  vm_compute in Hrows. injection Hrows as <-. reflexivity.
Defined.

Lemma rebuilt_names_rows_at (w : World) (sel : list Body) (i : nat)
    (body : Body) :
  d_bodySelection (inputs w) = Some sel →
  is_Some (d_bodyListGroup (inputs w)) →
  sel !! i = Some body →
  ∃ rows,
    d_bodyListGroup (inputs (_rebuild_name_list w).2) = Some rows ∧
    rows !! i
    = Some (mkRow i (name body)
              (default (_safe_filename (name body))
                       (_custom_names w !! entityToken body))).
Proof.
  intros Hsel [old Hgrp] Hi.
  rewrite (rebuild_name_list_rows w sel old) by done.
  eexists. split; [reflexivity|]. by rewrite list_lookup_imap, Hi.
Qed.

Lemma find_edited_row (rows : list Row) (i : nat) (v : str) :
  (∃ r, r ∈ rows ∧ row_index r = i) →
  ∃ k r, list_find (λ r, row_index r = i)
           ((λ r, if decide (row_index r = i)
                  then mkRow (row_index r) (row_label r) v else r) <$> rows)
         = Some (k, r) ∧ row_value r = v.
Proof.
  intros (r & Hr & Hi). rewrite list_find_fmap.
  destruct (list_find_elem_of (λ r, row_index r = i) rows r Hr Hi)
    as [[k r'] Hfind].
  assert (list_find
            ((λ r, row_index r = i) ∘
             (λ r, if decide (row_index r = i)
                   then mkRow (row_index r) (row_label r) v else r)) rows
          = Some (k, r')) as ->.
  { apply list_find_Some in Hfind as (Hk & Hp & Hmin).
    apply list_find_Some. split_and!; [done| |].
    - cbn. by rewrite decide_True.
    - intros j y Hj Hlt. cbn. specialize (Hmin j y Hj Hlt).
      by destruct (decide (row_index y = i)). }
  apply list_find_Some in Hfind as (_ & Hp & _).
  eexists _, _. split; [reflexivity|]. cbn. by rewrite decide_True.
Qed.

(** X5.  A name typed into the row of a selected body is stored under the
    token of that body, and the next rebuild of the name list shows it
    again in the row of that body. *)
Theorem edited_name_kept (depth : nat) (i : nat) (v : str) (w : World)
    (sel : list Body) (rows : list Row) (body : Body) :
  _updating w = false →
  d_bodySelection (inputs w) = Some sel →
  d_bodyListGroup (inputs w) = Some rows →
  sel !! i = Some body →
  (∃ r, r ∈ rows ∧ row_index r = i) →
  let w' := user_edits_name (S depth) i v w in
  _custom_names w' = <[entityToken body := v]> (_custom_names w) ∧
  _updating w' = false ∧
  trace w' = trace w ∧
  ∃ rows',
    d_bodyListGroup (inputs (_rebuild_name_list w').2) = Some rows' ∧
    rows' !! i = Some (mkRow i (name body) v).
Proof.
  intros Hu Hsel Hgrp Hi Hrow w'. subst w'.
  unfold user_edits_name. rewrite Hgrp, notify_depth.
  unfold notify_frame. cbn [_updating set_inputs]. rewrite Hu.
  unfold reaction, on_saveName. py_run. rewrite Hsel, Hi. cbn.
  destruct (find_edited_row rows i v Hrow) as (k & r & -> & Hv). cbn.
  rewrite Hv. split_and!; [done..|].
  match goal with |- context [_rebuild_name_list ?w0] =>
    destruct (rebuilt_names_rows_at w0 sel i body) as (rows' & Hr & Hri)
  end; [done|by eexists|done|].
  exists rows'. split; [done|]. rewrite Hri. cbn.
  by rewrite lookup_insert_eq.
Qed.

Lemma edited_name_kept_witness :
  let part := body_named "Part" "t1" in
  let w0 := quiet_world (mkDesign [mkComponent [part]])
              (created_dialog (text "/out")) in
  let w := user_selects 2 part w0 in
  let w' := user_edits_name 2 0 (text "Top") w in
  _custom_names w' = <[text "t1" := text "Top"]> (_custom_names w) ∧
  ∃ rows',
    d_bodyListGroup (inputs (_rebuild_name_list w').2) = Some rows' ∧
    rows' !! 0 = Some (mkRow 0 (text "Part") (text "Top")).
Proof.
  intros part w0 w w'.
  destruct (edited_name_kept 1 0 (text "Top") w [part]
              [mkRow 0 (text "Part") (text "Part")] part)
    as (Hnames & _ & _ & Hrows);
    [reflexivity|reflexivity|reflexivity|reflexivity| |].
  - exists (mkRow 0 (text "Part") (text "Part")).
    split; [apply list_elem_of_here|reflexivity].
  - split; [exact Hnames|exact Hrows].
Defined.


(** ** Select-all and browse *)

Lemma set_bodySelection_same (w : World) (sel : list Body) :
  d_bodySelection (inputs w) = Some sel →
  set_inputs (set_bodySelection sel (inputs w)) w = w.
Proof.
  destruct w as [u cn ap [s chk grp qd op bf] fs sj sw fp cc ef pm pg tr].
  cbn. by intros ->.
Qed.

Lemma addSelection_step (body : Body) (w : World) (sel : list Body) :
  d_bodySelection (inputs w) = Some sel →
  (try_except (addSelection (λ _ w, w) body) ≫= λ _, mret ()) w
  = (Ok (),
     if selectable body && bool_decide (body ∉ sel)
     then set_inputs (set_bodySelection (sel ++ [body]) (inputs w)) w
     else w).
Proof.
  intros Hsel. unfold addSelection, fire_event. py_run. rewrite Hsel. cbn.
  destruct (selectable body); cbn; [|done].
  destruct (decide (body ∈ sel)) as [Hin|Hin]; cbn.
  - by rewrite bool_decide_eq_false_2 by (intros ?; done).
  - by rewrite bool_decide_eq_true_2.
Qed.

Lemma addSelection_all (bodies : list Body) :
  ∀ (w : World) (sel : list Body),
  d_bodySelection (inputs w) = Some sel →
  ∃ sel',
    for_each (λ body, _ ← try_except (addSelection (λ _ w, w) body); mret ())
             bodies w
    = (Ok (), set_inputs (set_bodySelection sel' (inputs w)) w) ∧
    sel `prefix_of` sel' ∧
    (∀ b, b ∈ sel' ↔ b ∈ sel ∨ (b ∈ bodies ∧ selectable b = true)).
Proof.
  induction bodies as [|body rest IH]; intros w sel Hsel.
  - exists sel. cbn. rewrite set_bodySelection_same by done.
    split_and!; [done..|]. intros b. split; [by left|].
    intros [?|[Hb _]]; [done|]. by apply elem_of_nil in Hb.
  - cbn [for_each]. rewrite run_bind, (addSelection_step body w sel Hsel).
    destruct (selectable body) eqn:Hok; cbn [andb].
    + destruct (decide (body ∈ sel)) as [Hin|Hin].
      * rewrite bool_decide_eq_false_2 by (intros ?; done).
        destruct (IH w sel Hsel) as (sel' & -> & Hpre & Hiff).
        exists sel'. split_and!; [done..|]. intros b. rewrite Hiff.
        rewrite elem_of_cons. intuition (subst; auto).
      * rewrite bool_decide_eq_true_2 by done.
        destruct (IH (set_inputs (set_bodySelection (sel ++ [body]) (inputs w)) w)
                     (sel ++ [body]) eq_refl) as (sel' & -> & Hpre & Hiff).
        exists sel'. split_and!; [done| |].
        -- etrans; [|exact Hpre]. by apply prefix_app_r.
        -- intros b. rewrite Hiff, elem_of_app, !elem_of_cons, elem_of_nil.
           intuition (subst; auto).
    + destruct (IH w sel Hsel) as (sel' & -> & Hpre & Hiff).
      exists sel'. split_and!; [done..|]. intros b. rewrite Hiff.
      rewrite elem_of_cons. intuition (subst; auto; congruence).
Qed.

(** X6.  A click that checks select-all, with a design open, leaves in the
    selection what was selected before, followed by the bodies of the
    design that [addSelection] accepts; a body it refuses is passed over
    without a message box.  A click that unchecks select-all empties the
    selection.  Either way the name list is rebuilt to one row per
    selected body, and the check box keeps what the click set. *)
Theorem selectAll_click (depth : nat) (w : World) (design : Design)
    (sel : list Body) (old : list Row) (checked : bool) :
  _updating w = false →
  activeProduct w = Some design →
  d_selectAll (inputs w) = Some checked →
  d_bodySelection (inputs w) = Some sel →
  d_bodyListGroup (inputs w) = Some old →
  let w' := user_clicks_selectAll (S depth) w in
  ∃ sel' rows,
    d_bodySelection (inputs w') = Some sel' ∧
    d_bodyListGroup (inputs w') = Some rows ∧
    length rows = length sel' ∧
    d_selectAll (inputs w') = Some (negb checked) ∧
    trace w' = trace w ∧
    _updating w' = false ∧
    (checked = true → sel' = []) ∧
    (checked = false →
     sel `prefix_of` sel' ∧
     ∀ b, b ∈ sel' ↔
          b ∈ sel ∨ (b ∈ _all_bodies design ∧ selectable b = true)).
Proof.
  intros Hu Hd Hchk Hsel Hgrp w'. subst w'.
  unfold user_clicks_selectAll. rewrite Hchk, notify_depth.
  unfold notify_frame. cbn [_updating set_inputs]. rewrite Hu.
  unfold reaction, on_selectAll. rewrite run_bind. py_run. rewrite Hd. cbn.
  destruct checked; cbn.
  - unfold clearSelection, fire_event. py_run. rewrite Hsel. cbn.
    match goal with |- context [_rebuild_name_list ?w0] =>
      rewrite (rebuild_name_list_rows w0 [] old) by (cbn; done)
    end.
    cbn. exists [], []. split_and!; done.
  - match goal with |- context [for_each ?f ?bs ?w0] =>
      destruct (addSelection_all bs w0 sel) as (sel' & Hloop & Hpre & Hiff);
        [by cbn|];
      change (for_each f bs w0)
        with (for_each
                (λ body, _ ← try_except (addSelection (λ _ w, w) body); mret ())
                bs w0);
      rewrite Hloop
    end.
    cbn.
    match goal with |- context [_rebuild_name_list ?w0] =>
      rewrite (rebuild_name_list_rows w0 sel' old) by (cbn; done)
    end.
    cbn. eexists sel', _. split_and!; try done.
    apply length_imap.
Qed.

Lemma selectAll_click_witness :
  let part := body_named "Part" "t1" in
  let hidden := mkBody (text "Hidden") (text "t2") false in
  let lid := body_named "Lid" "t3" in
  let w := quiet_world (mkDesign [mkComponent [part; hidden];
                                  mkComponent [lid]])
             (created_dialog (text "/out")) in
  d_bodySelection (inputs (user_clicks_selectAll 2 w)) = Some [part; lid] ∧
  trace (user_clicks_selectAll 2 w) = [].
Proof.
  intros part hidden lid w.
  destruct (selectAll_click 1 w
              (mkDesign [mkComponent [part; hidden]; mkComponent [lid]])
              [] [] false eq_refl eq_refl eq_refl eq_refl eq_refl)
    as (sel' & rows & Hsel & _ & _ & _ & Htr & _).
  split; [|exact Htr].
  rewrite Hsel. vm_compute in Hsel. by injection Hsel as <-.
Defined.

(** X7.  When the browse button is pressed the folder dialog opens, seeded
    with the text of the path field only if that is a directory; the path
    field takes the folder the user chose, or keeps its text if the dialog
    was dismissed; and the button is up again either way. *)
Theorem browse_click (depth : nat) (w : World) (path : str) (pressed : bool) :
  _updating w = false →
  d_browseFolder (inputs w) = Some pressed →
  d_outputPath (inputs w) = Some path →
  let w' := user_clicks_browse (S depth) w in
  d_browseFolder (inputs w') = Some false ∧
  d_outputPath (inputs w') = Some (default path (folder_pick w)) ∧
  trace w'
  = trace w ++
    [EFolderDialog (match files w !! path with
                    | Some Dir => Some path
                    | _ => None
                    end)] ∧
  d_bodySelection (inputs w') = d_bodySelection (inputs w) ∧
  d_bodyListGroup (inputs w') = d_bodyListGroup (inputs w) ∧
  _updating w' = false.
Proof.
  intros Hu Hbf Hop w'. subst w'.
  unfold user_clicks_browse. rewrite Hbf, notify_depth.
  unfold notify_frame. cbn [_updating set_inputs]. rewrite Hu.
  unfold reaction, on_browseFolder, assign_outputPath, assign_browseFolder,
    os_path_isdir, fire_event.
  py_run. rewrite Hop. cbn.
  destruct (folder_pick w) as [folder|]; cbn; rewrite ?Hop; cbn;
    (split_and!; try done); by destruct (files w !! path) as [[]|].
Qed.

Lemma browse_click_witness :
  let w := mkWorld false ∅ (Some (mkDesign [])) (created_dialog (text "/out"))
             {[ text "/out" := Dir ]} None WriteOk (Some (text "/exports"))
             (λ _, false) (λ _ _ _, None) 0 (mkProgress false 0 0 false) []
             posix (λ _, None) in
  d_browseFolder (inputs (user_clicks_browse 2 w)) = Some false ∧
  d_outputPath (inputs (user_clicks_browse 2 w)) = Some (text "/exports") ∧
  trace (user_clicks_browse 2 w) = [EFolderDialog (Some (text "/out"))].
Proof.
  intros w.
  destruct (browse_click 1 w (text "/out") false eq_refl eq_refl eq_refl)
    as (Hb & Hp & Ht & _).
  split; [exact Hb|]. split; [exact Hp|]. exact Ht.
Defined.

(** ** The destinations *)

Lemma posixpath_join_unfold (a b : str) :
  posixpath_join a b
  = if decide (head b = Some 47%N) then b
    else match last a with
         | None => a ++ b
         | Some c => if decide (c = 47%N) then a ++ b else a ++ [47%N] ++ b
         end.
Proof.
  assert (∀ c : N, c ≠ 47%N → ∀ (X : Type) (x y : X),
            match c with 47%N => x | _ => y end = y) as Hne.
  { intros c Hc X x y. destruct c as [|p]; [done|].
    do 6 (try destruct p as [p|p|]); try done. }
  unfold posixpath_join. destruct b as [|c b'].
  - rewrite decide_False by done.
    destruct (last a) as [d|]; [|done].
    destruct (decide (d = 47%N)) as [->|Hd]; [done|]. by rewrite Hne.
  - cbn [head]. destruct (decide (c = 47%N)) as [->|Hc].
    + by rewrite decide_True.
    + rewrite decide_False by congruence. rewrite (Hne c Hc).
      destruct (last a) as [d|]; [|done].
      destruct (decide (d = 47%N)) as [->|Hd]; [done|]. by rewrite Hne.
Qed.

Lemma posixpath_join_inj (a b1 b2 : str) :
  head b1 = head b2 → posixpath_join a b1 = posixpath_join a b2 → b1 = b2.
Proof.
  intros Hh. rewrite !posixpath_join_unfold, Hh.
  destruct (decide (head b2 = Some 47%N)); [done|].
  destruct (last a) as [d|]; [|by intros ?%(inj (app a))].
  destruct (decide (d = 47%N)); [by intros ?%(inj (app a))|].
  by intros ?%(inj (app a))%(inj (app [47%N])).
Qed.

(** A text without a separator or a colon has no drive and is not
    absolute. *)
Lemma nt_splitdrive_plain (b : str) :
  (∀ c, c ∈ b → c ∉ illegal_chars) →
  nt_splitdrive b = ([], b) ∧ nt_starts_sep b = false.
Proof.
  intros Hplain.
  assert (∀ c, c ∈ b → nt_is_sep c = false ∧ (c =? 58)%N = false) as Hc.
  { intros c Hin. specialize (Hplain c Hin). split.
    - destruct (nt_is_sep c) eqn:Hs; [|done]. exfalso. apply Hplain.
      unfold nt_is_sep in Hs.
      apply orb_true_iff in Hs as [->%N.eqb_eq| ->%N.eqb_eq]; elem_now.
    - destruct (c =? 58)%N eqn:Hs; [|done]. exfalso. apply Hplain.
      apply N.eqb_eq in Hs as ->. elem_now. }
  destruct b as [|c0 [|c1 r]]; [done| |].
  - split; [done|]. cbn. apply Hc. by left.
  - destruct (Hc c0) as [H0 _]; [by left|].
    destruct (Hc c1) as [_ H1]; [by right; left|].
    unfold nt_splitdrive. cbn [nt_starts_sep]. by rewrite H0, H1.
Qed.

Lemma nt_find_sep_Some (p : str) (start i : nat) :
  nt_find_sep p start = Some i → nt_starts_sep (drop i p) = true.
Proof.
  unfold nt_find_sep. intros Hf.
  apply fmap_Some in Hf as ([k c] & Hf & ->).
  apply list_find_Some in Hf as (Hk & Hc & _).
  rewrite lookup_drop in Hk. cbn [fst].
  by rewrite (drop_S _ c _ Hk).
Qed.

(** [ntpath.splitdrive] cuts its argument in two; a drive ends in a
    colon, or what follows it is empty or starts with a separator. *)
Lemma nt_splitdrive_shape (a : str) :
  (nt_splitdrive a).1 ++ (nt_splitdrive a).2 = a ∧
  ((nt_splitdrive a).1 = [] ∨ last (nt_splitdrive a).1 = Some 58%N ∨
   (nt_splitdrive a).2 = [] ∨ nt_starts_sep (nt_splitdrive a).2 = true).
Proof.
  unfold nt_splitdrive. destruct a as [|c0 [|c1 r]]; [by auto..|].
  destruct (nt_is_sep c0 && nt_is_sep c1).
  - set (start := if nt_unc_prefix _ then 8 else 2).
    destruct (nt_find_sep _ start) as [index|]; [|rewrite app_nil_r; auto].
    destruct (nt_find_sep _ (index + 1)) as [index2|] eqn:Hf;
      [|rewrite app_nil_r; auto].
    cbn [fst snd]. split; [apply take_drop|].
    do 3 right. by apply (nt_find_sep_Some _ (index + 1)).
  - destruct (c1 =? 58)%N eqn:Hc; [|by auto].
    apply N.eqb_eq in Hc as ->. cbn. auto.
Qed.

(** What [os.path.join] makes of a folder and a text that has no
    separator and no colon: the folder is kept, whatever it is. *)
Lemma os_path_join_plain (pf : Platform) (a b : str) :
  b ≠ [] → (∀ c, c ∈ b → c ∉ illegal_chars) →
  os_path_join pf a b = a ++ joint pf a ++ b.
Proof.
  intros Hne Hplain. destruct pf as [|lower]; cbn [os_path_join joint].
  - rewrite posixpath_join_unfold.
    rewrite decide_False.
    2: { destruct b as [|c r]; [done|]. cbn. intros [= ->].
         apply (Hplain 47%N); [by left|elem_now]. }
    destruct (last a) as [d|] eqn:Hl.
    + destruct (decide (d = 47%N)) as [->|Hd].
      * by rewrite decide_True by by right.
      * rewrite decide_False; [done|].
        intros [->|[=]]; done.
    + apply last_None in Hl as ->. by rewrite decide_True by by left.
  - unfold ntpath_join.
    destruct (nt_splitdrive_plain b Hplain) as [-> Hb].
    destruct (nt_splitdrive_shape a) as [Ha Hshape].
    destruct (nt_splitdrive a) as [rd rp]. cbn [fst snd] in *. subst a.
    rewrite Hb.
    rewrite (bool_decide_eq_false_2 ([] ≠ [] ∧ _)) by (by intros [? _]).
    rewrite (bool_decide_eq_false_2 ([] ≠ [] ∧ _)) by (by intros [? _]).
    destruct (last rp) as [d|] eqn:Hl.
    + assert (rp ≠ []) as Hrp by (by intros ->).
      unfold nt_open_end. rewrite Hl.
      assert (∀ s, nt_starts_sep (rp ++ s) = nt_starts_sep rp) as Hstart
        by (intros s; by destruct rp).
      assert (negb (nt_starts_sep rp) &&
              bool_decide (rd ≠ [] ∧ last rd ≠ Some 58%N) = false) as Hno.
      { destruct (nt_starts_sep rp) eqn:Hs; [done|]. cbn.
        apply bool_decide_eq_false. intros [Hd Hc].
        destruct Hshape as [?|[?|[?|?]]]; done. }
      destruct (nt_is_sep d); cbn [negb].
      * rewrite Hstart, <- andb_assoc, Hno, andb_false_r.
        by rewrite <- (assoc_L (++)).
      * rewrite <- (assoc_L (++)), Hstart, <- andb_assoc, Hno, andb_false_r.
        by rewrite <- !(assoc_L (++)).
    + apply last_None in Hl as ->. cbn [nt_open_end last app].
      rewrite bool_decide_eq_true_2 by done. rewrite Hb. cbn [negb andb].
      rewrite app_nil_r.
      destruct (decide (rd = [] ∨ last rd = Some 58%N)) as [Hd|Hd].
      * rewrite bool_decide_eq_false_2 by tauto. done.
      * rewrite bool_decide_eq_true_2; [done|].
        split; intros ?; apply Hd; auto.
Qed.

Lemma text_inj (s1 s2 : string) : text s1 = text s2 → s1 = s2.
Proof.
  unfold text. intros H.
  assert (Inj (=) (=) (λ a, N_of_ascii a)) as Hinj.
  { intros x y Hxy. by rewrite <- (ascii_N_embedding x), Hxy, ascii_N_embedding. }
  apply (inj (fmap _)) in H.
  by rewrite <- (string_of_list_ascii_of_string s1), H,
    string_of_list_ascii_of_string.
Qed.

Lemma str_of_nat_inj (n m : nat) : str_of_nat n = str_of_nat m → n = m.
Proof. unfold str_of_nat. intros H%text_inj. by apply (inj pretty). Qed.

Lemma pretty_go_digits (x : N) :
  ∀ s, Forall (λ c, isdigit c = true) (text s) →
       Forall (λ c, isdigit c = true) (text (pretty_N_go x s)).
Proof.
  induction (N.lt_wf_0 x) as [x _ IH]; intros s Hs.
  destruct (decide (x = 0)%N) as [->|Hx]; [by rewrite pretty_N_go_0|].
  rewrite pretty_N_go_step by lia. apply IH.
  { apply N.div_lt; lia. }
  unfold text. cbn. constructor; [|exact Hs].
  unfold pretty_N_char. by repeat case_match.
Qed.

Lemma str_of_nat_digits (n : nat) :
  Forall (λ c, isdigit c = true) (str_of_nat n).
Proof.
  unfold str_of_nat, pretty, pretty_nat, pretty, pretty_N.
  destruct (decide (N.of_nat n = 0%N)).
  - by repeat constructor.
  - by apply pretty_go_digits.
Qed.

Lemma digit_legal (c : N) : isdigit c = true → c ∉ illegal_chars.
Proof.
  intros Hd Hc. vm_compute in Hc.
  repeat (apply elem_of_cons in Hc as [->|Hc]; [done|]).
  by apply elem_of_nil in Hc.
Qed.

(** Membership in one known list excludes membership in another. *)
Ltac apart Hc Hbad :=
  vm_compute in Hc, Hbad;
  repeat (apply elem_of_cons in Hc as [->|Hc];
          [by repeat (apply elem_of_cons in Hbad as [?|Hbad]; [done|]);
              apply elem_of_nil in Hbad|]);
  by apply elem_of_nil in Hc.

Lemma numbered_legal (name_count : gmap str nat) (n : str) (idx : nat) :
  n ≠ [] → (∀ c, c ∈ n → c ∉ illegal_chars) →
  numbered name_count n idx ≠ [] ∧
  (∀ c, c ∈ numbered name_count n idx → c ∉ illegal_chars) ∧
  head (numbered name_count n idx) = head n.
Proof.
  intros Hne Hlegal. unfold numbered.
  destruct (decide (1 < name_count !!! n)); [|done].
  split_and!.
  - by destruct n.
  - intros c. rewrite !elem_of_app. intros [Hc|[Hc|[Hc|Hc]]].
    + by apply Hlegal.
    + intros Hbad. apart Hc Hbad.
    + apply digit_legal.
      by apply (proj1 (Forall_forall _ _) (str_of_nat_digits idx)).
    + intros Hbad. apart Hc Hbad.
  - by destruct n.
Qed.

Lemma raw_names_clean (children : option (list Row)) (bodies : list Body) :
  length (raw_names children bodies) = length bodies ∧
  Forall (λ n, n ≠ [] ∧ ∀ c, c ∈ n → c ∉ illegal_chars)
         (raw_names children bodies).
Proof.
  unfold raw_names. split; [apply length_imap|].
  apply Forall_forall. intros n Hn.
  apply elem_of_lookup_imap in Hn as (i & body & -> & _).
  unfold raw_name.
  match goal with |- context [_safe_filename ?x] =>
    destruct (safe_filename_is_clean x) as (Hlegal & c & d & Hh & _)
  end.
  split; [|done]. intros Hnil. by rewrite Hnil in Hh.
Qed.

Lemma file_name_plain (fname : str) :
  (∀ c, c ∈ fname → c ∉ illegal_chars) →
  ∀ c, c ∈ fname ++ text ".stl" → c ∉ illegal_chars.
Proof.
  intros Hlegal c. rewrite elem_of_app. intros [Hc|Hc]; [by apply Hlegal|].
  intros Hbad. apart Hc Hbad.
Qed.

Lemma job_destinations (pf : Platform) (output_dir : str)
    (children : option (list Row)) (bodies : list Body) :
  Forall (λ job : Body * str,
            ∃ fname, fname ≠ [] ∧
              (∀ c, c ∈ fname → c ∉ illegal_chars) ∧
              job.2 = output_dir ++ joint pf output_dir
                        ++ fname ++ text ".stl")
         (build_jobs pf output_dir bodies (raw_names children bodies)).
Proof.
  unfold build_jobs.
  destruct (raw_names_clean children bodies) as [Hlen Hclean].
  set (raws := raw_names children bodies) in *.
  rewrite (number_loop _ _ _ _ [] ∅ []) by done. cbn [app].
  apply Forall_forall. intros job Hjob.
  apply elem_of_lookup_imap in Hjob as (i & [body n] & -> & Hi).
  apply lookup_zip_with_Some in Hi as (b' & n' & [= <- <-] & _ & Hn).
  cbn [fst snd].
  destruct (proj1 (Forall_forall _ _) Hclean n) as [Hne Hlegal].
  { by eapply list_elem_of_lookup_2. }
  match goal with |- context [numbered ?cnt n ?idx] =>
    destruct (numbered_legal cnt n idx Hne Hlegal) as (Hne' & Hlegal' & Hh);
    exists (numbered cnt n idx)
  end.
  split_and!; [done..|].
  apply os_path_join_plain; [|by apply file_name_plain].
  match goal with |- ?f ++ _ ≠ [] => by destruct f end.
Qed.

Lemma job_bodies (pf : Platform) (output_dir : str) (bodies : list Body)
    (raws : list str) :
  length raws = length bodies →
  (build_jobs pf output_dir bodies raws).*1 = bodies.
Proof.
  intros Hlen. unfold build_jobs.
  rewrite (number_loop _ _ _ _ [] ∅ []) by done. cbn [app].
  apply list_eq. intros i.
  rewrite list_lookup_fmap, list_lookup_imap, lookup_zip_with.
  destruct (bodies !! i) as [body|] eqn:Hb; [|done]. cbn.
  destruct (raws !! i) as [n|] eqn:Hn; [done|].
  apply lookup_lt_Some in Hb. apply lookup_ge_None in Hn. lia.
Qed.

(** X8.  The job list has one job per selected body, in the order of the
    selection.  Every destination is a file of the output folder itself,
    on macOS and on Windows: the folder text as it is, the separator that
    [joint] describes (on macOS a slash unless the folder text is empty
    or ends in a slash; on Windows a backslash unless what follows the
    drive ends in a backslash or a slash, or is empty after no drive or
    one that ends in a colon), and a file name that is not empty, holds
    none of the nine characters (no slash, no backslash, no colon), and
    ends in [.stl]. *)
Theorem destinations_in_folder (pf : Platform) (output_dir : str)
    (children : option (list Row)) (bodies : list Body) :
  let jobs := build_jobs pf output_dir bodies (raw_names children bodies) in
  jobs.*1 = bodies ∧
  Forall (λ job,
            ∃ fname, fname ≠ [] ∧
              (∀ c, c ∈ fname → c ∉ illegal_chars) ∧
              job.2 = output_dir ++ joint pf output_dir
                        ++ fname ++ text ".stl") jobs.
Proof.
  split.
  - apply job_bodies, raw_names_clean.
  - apply job_destinations.
Qed.

Lemma occurrences_app (n : str) (l1 l2 : list str) :
  occurrences n (l1 ++ l2) = occurrences n l1 + occurrences n l2.
Proof. unfold occurrences. by rewrite filter_app, length_app. Qed.

Lemma occurrences_here (n : str) (l : list str) :
  head l = Some n → 0 < occurrences n l.
Proof.
  intros Hh. destruct l as [|x l]; [done|]. injection Hh as ->.
  unfold occurrences. rewrite filter_cons_True by done. cbn. lia.
Qed.

Lemma occurrences_before (n : str) (raws : list str) (i j : nat) :
  i < j → raws !! i = Some n →
  occurrences n (take i raws) < occurrences n (take j raws).
Proof.
  intros Hlt Hi.
  rewrite <- (take_drop i (take j raws)), take_take, Nat.min_l by lia.
  rewrite occurrences_app.
  assert (0 < occurrences n (drop i (take j raws))); [|lia].
  apply occurrences_here.
  by rewrite head_lookup, lookup_drop, Nat.add_0_r, lookup_take_lt.
Qed.

Lemma occurrences_twice (n : str) (raws : list str) (i j : nat) :
  i < j → raws !! i = Some n → raws !! j = Some n →
  1 < occurrences n raws.
Proof.
  intros Hlt Hi Hj.
  pose proof (occurrences_before n raws i j Hlt Hi).
  rewrite <- (take_drop j raws), occurrences_app.
  assert (0 < occurrences n (drop j raws)); [|lia].
  apply occurrences_here.
  by rewrite head_lookup, lookup_drop, Nat.add_0_r.
Qed.

(** X9.  Two bodies with the same name never get the same destination: the
    numbers put after the name tell them apart.  This holds on macOS for
    every name, and on Windows for every name without any of the nine
    characters, as all the names are that the execute handler numbers. *)
Theorem same_name_apart (pf : Platform) (output_dir : str)
    (bodies : list Body) (raws : list str) (i j : nat) (n : str)
    (ji jj : Body * str) :
  length bodies = length raws →
  i ≠ j →
  raws !! i = Some n → raws !! j = Some n →
  pf = posix ∨ (∀ c, c ∈ n → c ∉ illegal_chars) →
  build_jobs pf output_dir bodies raws !! i = Some ji →
  build_jobs pf output_dir bodies raws !! j = Some jj →
  ji.2 ≠ jj.2.
Proof.
  intros Hlen0 Hne0 Hi0 Hj0 Hpf.
  assert (∀ k1 k2,
    os_path_join pf output_dir
      ((n ++ text " (" ++ str_of_nat k1 ++ text ")") ++ text ".stl")
    = os_path_join pf output_dir
        ((n ++ text " (" ++ str_of_nat k2 ++ text ")") ++ text ".stl") →
    k1 = k2) as Hjoin.
  { intros k1 k2 Heq.
    assert ((n ++ text " (" ++ str_of_nat k1 ++ text ")") ++ text ".stl"
            = (n ++ text " (" ++ str_of_nat k2 ++ text ")") ++ text ".stl")
      as Heq'.
    { destruct Hpf as [->|Hlegal].
      - apply posixpath_join_inj in Heq; [done|by destruct n].
      - assert (∀ k c,
          c ∈ (n ++ text " (" ++ str_of_nat k ++ text ")") ++ text ".stl" →
          c ∉ illegal_chars) as Hplain.
        { intros k c. rewrite !elem_of_app.
          intros [[Hc|[Hc|[Hc|Hc]]]|Hc].
          - by apply Hlegal.
          - intros Hbad. apart Hc Hbad.
          - apply digit_legal.
            by apply (proj1 (Forall_forall _ _) (str_of_nat_digits k)).
          - intros Hbad. apart Hc Hbad.
          - intros Hbad. apart Hc Hbad. }
        rewrite !os_path_join_plain in Heq;
          [|by destruct n|by apply Hplain|by destruct n|by apply Hplain].
        by apply (inj (app output_dir)), (inj (app (joint pf output_dir)))
          in Heq. }
    rewrite <- !(assoc_L (++)) in Heq'.
    apply (inj (app n)), (inj (app (text " ("))) in Heq'.
    by apply app_inv_tail, str_of_nat_inj in Heq'. }
  assert (∀ i j ji jj,
    length bodies = length raws → i < j →
    raws !! i = Some n → raws !! j = Some n →
    build_jobs pf output_dir bodies raws !! i = Some ji →
    build_jobs pf output_dir bodies raws !! j = Some jj →
    ji.2 ≠ jj.2) as Hordered.
  { clear -Hjoin. intros i j ji jj Hlen Hlt Hi Hj Hji Hjj Heq.
    pose proof (occurrences_twice n raws i j Hlt Hi Hj) as Htwice.
    pose proof (occurrences_before n raws i j Hlt Hi) as Hbefore.
    destruct (bodies !! i) as [bi|] eqn:Hbi.
    2: { apply lookup_ge_None in Hbi. apply lookup_lt_Some in Hi. lia. }
    destruct (bodies !! j) as [bj|] eqn:Hbj.
    2: { apply lookup_ge_None in Hbj. apply lookup_lt_Some in Hj. lia. }
    rewrite (build_jobs_lookup pf output_dir bodies raws i bi n) in Hji by done.
    rewrite (build_jobs_lookup pf output_dir bodies raws j bj n) in Hjj by done.
    rewrite decide_True in Hji, Hjj by done.
    injection Hji as <-. injection Hjj as <-. cbn [snd] in Heq.
    apply Hjoin in Heq. lia. }
  intros Hji Hjj.
  destruct (decide (i < j)) as [Hlt|Hge].
  - by apply (Hordered i j).
  - intros Heq. apply (Hordered j i jj ji); [done|lia|done..].
Qed.

Lemma same_name_apart_witness :
  let bodies := [body_named "Part" "t1"; body_named "Lid" "t2";
                 body_named "Part" "t3"] in
  let raws := raw_names None bodies in
  build_jobs posix (text "/out") bodies raws !! 0
  = Some (body_named "Part" "t1", text "/out/Part (1).stl") ∧
  build_jobs posix (text "/out") bodies raws !! 2
  = Some (body_named "Part" "t3", text "/out/Part (2).stl") ∧
  text "/out/Part (1).stl" ≠ text "/out/Part (2).stl".
Proof.
  intros bodies raws.
  split; [by vm_compute|]. split; [by vm_compute|].
  apply (same_name_apart posix (text "/out") bodies raws 0 2 (text "Part")
           (body_named "Part" "t1", text "/out/Part (1).stl")
           (body_named "Part" "t3", text "/out/Part (2).stl"));
    [reflexivity|lia|reflexivity|reflexivity|by left|by vm_compute
    |by vm_compute].
Defined.

(** ** What the batch leaves alone *)

Lemma touches_only_refl (paths : list str) (w : World) :
  touches_only paths w w.
Proof. by repeat split. Qed.

Lemma touches_only_trans (paths : list str) (w1 w2 w3 : World) :
  touches_only paths w1 w2 → touches_only paths w2 w3 →
  touches_only paths w1 w3.
Proof.
  intros [(? & ? & ? & ? & ? & ? & ? & ? & ? & ? & ?) Hf1]
         [(? & ? & ? & ? & ? & ? & ? & ? & ? & ? & ?) Hf2].
  split; [repeat split; congruence|].
  intros p Hp. by rewrite Hf2, Hf1.
Qed.

Lemma keeps_bind {A B : Type} (paths : list str) (c : Py A) (f : A → Py B) :
  keeps (touches_only paths) c → (∀ a, keeps (touches_only paths) (f a)) →
  keeps (touches_only paths) (c ≫= f).
Proof.
  intros Hc Hf w. rewrite run_bind. specialize (Hc w).
  destruct (c w) as [[a|e] w1]; [|done]. cbn in Hc.
  eapply touches_only_trans; [exact Hc|apply Hf].
Qed.

Lemma keeps_pure {A : Type} (paths : list str) (c : Py A) :
  (∀ w, (c w).2 = w) → keeps (touches_only paths) c.
Proof. intros Hc w. rewrite Hc. apply touches_only_refl. Qed.

Lemma keeps_try_except {A : Type} (paths : list str) (c : Py A) :
  keeps (touches_only paths) c → keeps (touches_only paths) (try_except c).
Proof. intros Hc w. specialize (Hc w). unfold try_except. by destruct (c w). Qed.

Lemma keeps_for_fold {A S : Type} (paths : list str) (body : S → A → Py S)
    (xs : list A) :
  (∀ s x, x ∈ xs → keeps (touches_only paths) (body s x)) →
  ∀ s, keeps (touches_only paths) (for_fold body s xs).
Proof.
  induction xs as [|x xs IH]; intros Hbody s; cbn.
  - by apply keeps_pure.
  - apply keeps_bind; [apply Hbody; by left|].
    intros s'. apply IH. intros s'' y Hy. apply Hbody. by right.
Qed.

Lemma keeps_doEvents (paths : list str) : keeps (touches_only paths) doEvents.
Proof. intros w. by repeat split. Qed.

Lemma keeps_progress (paths : list str) (f : World → Progress) :
  keeps (touches_only paths) (modify (λ w, set_prog (f w) w)).
Proof. intros w. by repeat split. Qed.

Lemma keeps_log (paths : list str) (e : Effect) :
  keeps (touches_only paths) (log e).
Proof. intros w. by repeat split. Qed.

Lemma keeps_export_execute (paths : list str) (job : Body * str)
    (q : MeshRefinement) :
  job.2 ∈ paths → keeps (touches_only paths) (export_execute job.1 job.2 q).
Proof.
  intros Hjob w. unfold export_execute. py_run.
  destruct (export_fault w (files w) job.1 job.2); cbn.
  - by repeat split.
  - split; [by repeat split|]. intros p Hp. cbn.
    rewrite lookup_insert_ne; [done|]. by intros <-.
Qed.

Lemma keeps_remove_if_exists (paths : list str) (n : nat) (job : Body * str) :
  job.2 ∈ paths → keeps (touches_only paths) (remove_if_exists n job).
Proof.
  intros Hjob w. rewrite remove_if_exists_run.
  destruct (files w !! job.2) as [[[|]|]|]; cbn; try by repeat split.
  split; [by repeat split|]. intros p Hp. cbn.
  rewrite lookup_delete_ne; [done|]. by intros <-.
Qed.

Lemma keeps_export_loop (paths : list str) (q : MeshRefinement)
    (jobs : list (Body * str)) :
  (∀ job, job ∈ jobs → job.2 ∈ paths) →
  ∀ i t, keeps (touches_only paths) (export_loop q i jobs t).
Proof.
  induction jobs as [|job rest IH]; intros Hjobs i t; cbn [export_loop].
  - by apply keeps_pure.
  - apply keeps_bind; [apply keeps_doEvents|]. intros _.
    apply keeps_bind; [by apply keeps_pure|]. intros stop.
    destruct stop; [by apply keeps_pure|].
    apply keeps_bind; [apply (keeps_progress paths)|]. intros _.
    apply keeps_bind; [apply keeps_doEvents|]. intros _.
    apply keeps_bind.
    { apply keeps_try_except, keeps_export_execute, Hjobs. by left. }
    intros [?|?]; apply IH; intros job' Hjob'; apply Hjobs; by right.
Qed.

Lemma keeps_run_jobs (q : MeshRefinement) (output_dir : str)
    (jobs : list (Body * str)) :
  keeps (touches_only jobs.*2) (run_jobs q output_dir jobs).
Proof.
  assert (∀ job, job ∈ jobs → job.2 ∈ jobs.*2) as Hin
    by (intros job Hjob; by apply list_elem_of_fmap_2).
  unfold run_jobs, remove_existing.
  apply keeps_bind.
  { apply keeps_for_fold. intros n job Hjob.
    by apply keeps_remove_if_exists, Hin. }
  intros n.
  apply keeps_bind; [apply (keeps_progress _ (λ _, _))|]. intros _.
  apply keeps_bind; [apply keeps_doEvents|]. intros _.
  apply keeps_bind; [by apply keeps_export_loop|]. intros t.
  apply keeps_bind; [apply (keeps_progress _)|]. intros _.
  apply keeps_bind; [apply keeps_doEvents|]. intros _.
  apply keeps_bind; [apply (keeps_progress _)|]. intros _.
  apply keeps_bind; [apply keeps_log|]. intros _.
  by apply keeps_pure.
Qed.

(** X10.  Whatever the disk, the user and the export facility do, a run of
    the two phases changes no file but the destinations of its jobs, and
    leaves alone the inputs, the stored names, the settings and the guard.
    When it returns the progress dialog is hidden and stands at the
    number of jobs. *)
Theorem batch_touches_destinations_only (q : MeshRefinement)
    (output_dir : str) (jobs : list (Body * str)) (w : World) :
  let w' := (run_jobs q output_dir jobs w).2 in
  (∀ p, p ∉ jobs.*2 → files w' !! p = files w !! p) ∧
  inputs w' = inputs w ∧
  _custom_names w' = _custom_names w ∧
  settings_json w' = settings_json w ∧
  _updating w' = _updating w ∧
  shown (prog w') = false ∧
  progressValue (prog w') = length jobs.
Proof.
  intros w'. subst w'.
  destruct (keeps_run_jobs q output_dir jobs w)
    as [(Hu & Hn & _ & Hi & Hs & _) Hfiles].
  assert (shown (prog (run_jobs q output_dir jobs w).2) = false ∧
          progressValue (prog (run_jobs q output_dir jobs w).2) = length jobs)
    as [Hshown Hvalue].
  { unfold run_jobs, remove_existing, prog_show, prog_set_progressValue,
      prog_hide, doEvents.
    py_run.
    destruct (remove_existing_run jobs 0 w) as (wa & rems & -> & _). cbn.
    match goal with |- context [export_loop q 0 jobs ?t0 ?w0] =>
      destruct (export_loop_run q jobs 0 t0 w0) as (t & wc & o & -> & _)
    end.
    done. }
  split_and!; done.
Qed.

(** ** The execute handler as a whole *)

#[local] Arguments run_jobs : simpl never.
#[local] Arguments os_makedirs : simpl never.
#[local] Arguments _save_settings : simpl never.

Lemma set_files_same (w : World) : set_files (files w) w = w.
Proof. by destruct w. Qed.

(** The directories made one after the other: only the files change, and
    where none of them fails all of them are there afterwards. *)
Lemma mkdir_each_run (qs : list str) :
  ∀ w, ∃ r fs',
    for_each os_mkdir qs w = (r, set_files fs' w) ∧
    ((∀ q, q ∈ qs → mkdir_fault w q = None) →
     r = Ok () ∧
     (∀ q, q ∈ qs → fs' !! q = Some Dir) ∧
     (∀ q, q ∉ qs → fs' !! q = files w !! q)).
Proof.
  induction qs as [|q qs IH]; intros w.
  - exists (Ok ()), (files w). split; [by rewrite set_files_same|].
    intros _. split_and!; [done| |done].
    intros q Hq. by apply elem_of_nil in Hq.
  - cbn [for_each]. rewrite run_bind. unfold os_mkdir at 1. py_run.
    destruct (mkdir_fault w q) as [msg|] eqn:Hq; cbn.
    + exists (Raise (Exn OSError msg)), (files w).
      split; [by rewrite set_files_same|].
      intros Hall. rewrite Hall in Hq by by left. done.
    + destruct (IH (set_files (<[q := Dir]> (files w)) w))
        as (r & fs' & -> & Hok).
      exists r, fs'. split; [done|]. intros Hall.
      destruct Hok as (-> & Hdirs & Hrest);
        [intros q' Hq'; apply Hall; by right|].
      cbn in Hrest. split_and!; [done| |].
      * intros q' Hq'.
        destruct (decide (q' ∈ qs)) as [Hin|Hout]; [by apply Hdirs|].
        apply elem_of_cons in Hq' as [->|?]; [|done].
        rewrite Hrest by done. apply lookup_insert_eq.
      * intros q' Hq'. apply not_elem_of_cons in Hq' as [Hne Hq'].
        rewrite Hrest by done. by apply lookup_insert_ne.
Qed.

Lemma existsb_false_elem {A : Type} (f : A → bool) (l : list A) (x : A) :
  existsb f l = false → x ∈ l → f x = false.
Proof.
  intros Hf Hx. destruct (f x) eqn:Hfx; [|done].
  rewrite <- Hf. symmetry. apply existsb_exists.
  exists x. split; [by apply list_elem_of_In|done].
Qed.

(** What [os.makedirs] does: it changes nothing but the files and the
    trace; where the folder can be made it returns with a directory at the
    path and every entry that was there kept; and it raises, with no file
    changed, when the path is empty, a file is at the path, or nothing is
    at the path and a file is where a directory above it should be. *)
Lemma os_makedirs_run (p : str) (w : World) :
  ∃ r fs',
    os_makedirs p w
    = (r, set_trace (trace w ++ [EMakedirs p]) (set_files fs' w)) ∧
    (folder_can_be_made w p →
     r = Ok () ∧ fs' !! p = Some Dir ∧
     ∀ q, is_Some (files w !! q) → fs' !! q = files w !! q) ∧
    (p = [] ∨ is_file (files w !! p) = true ∨
     (files w !! p = None ∧
      ∃ q, q ∈ ancestors (os_name w) p ∧ is_file (files w !! q) = true) →
     (∃ msg, r = Raise (Exn OSError msg)) ∧ fs' = files w).
Proof.
  unfold os_makedirs. py_run.
  assert (∀ msg,
    ∃ r fs',
      (Raise (Exn OSError msg) : result (),
       set_trace (trace w ++ [EMakedirs p]) w)
      = (r, set_trace (trace w ++ [EMakedirs p]) (set_files fs' w)) ∧
      (∃ msg, r = Raise (Exn OSError msg)) ∧ fs' = files w) as Hraise.
  { intros msg. exists (Raise (Exn OSError msg)), (files w).
    rewrite set_files_same. split_and!; [done|by eexists|done]. }
  destruct p as [|c p'].
  { destruct (Hraise (text "No such file or directory"))
      as (r & fs' & Hrun & Hr & Hfs).
    exists r, fs'. split_and!; [done| |done]. by intros [? _]. }
  set (p := c :: p') in *.
  destruct (files w !! p) as [[removable|]|] eqn:Hp.
  - destruct (Hraise (text "File exists")) as (r & fs' & Hrun & Hr & Hfs).
    exists r, fs'. split_and!; [done| |done].
    intros [_ [?|[? _]]]; congruence.
  - exists (Ok ()), (files w). rewrite set_files_same.
    split_and!; [done|done|]. intros [?|[?|[? _]]]; done.
  - destruct (existsb (λ q, is_file (files w !! q)) (ancestors (os_name w) p))
      eqn:Habove; cbn.
    + destruct (Hraise (text "Not a directory")) as (r & fs' & Hrun & Hr & Hfs).
      exists r, fs'. split_and!; [done| |done].
      intros [_ [?|(_ & Hnofile & _)]]; [congruence|].
      apply existsb_exists in Habove as (q & Hq & Hfile).
      rewrite Hnofile in Hfile; [done|]. by apply list_elem_of_In.
    + match goal with |- context [for_each os_mkdir ?qs ?w0] =>
        destruct (mkdir_each_run qs w0) as (r & fs' & -> & Hok)
      end.
      exists r, fs'. split_and!; [done| |].
      * intros [_ [?|(_ & _ & Hfault)]]; [congruence|].
        destruct Hok as (-> & Hdirs & Hrest).
        { intros q Hq. cbn. apply elem_of_app in Hq as [Hq|Hq].
          - apply list_elem_of_filter in Hq as [Hmiss Hq].
            apply Hfault; [apply elem_of_app; by left|].
            by destruct (files w !! q).
          - apply Hfault; [apply elem_of_app; by right|].
            apply list_elem_of_singleton in Hq as ->. done. }
        split_and!; [done|apply Hdirs; apply elem_of_app; right; by left|].
        intros q Hq. rewrite Hrest; [done|].
        rewrite elem_of_app, list_elem_of_filter, list_elem_of_singleton.
        intros [[Hmiss _]| ->].
        -- destruct Hq as [e He]. by rewrite He in Hmiss.
        -- destruct Hq as [e He]. by rewrite Hp in He.
      * intros [?|[Hfile|(_ & q & Hq & Hfile)]];
          [done|done|].
        by rewrite (existsb_false_elem _ _ q Habove Hq) in Hfile.
Qed.

Lemma load_settings_dict (w : World) (o : json) :
  _load_settings w = (Ok o, w) → default (JObject ∅) (settings_json w) = o.
Proof. unfold _load_settings, gets. by intros [= ->]. Qed.

(** The world in which the batch starts: the folder made, the folder
    saved. *)
Lemma execute_reaches_batch (w : World) (body : Body) (rest : list Body)
    (items : list (str * bool)) (item path : str) (design : Design)
    (d : gmap str jval) :
  d_bodySelection (inputs w) = Some (body :: rest) →
  d_quality (inputs w) = Some items →
  selectedItem items = Some item →
  d_outputPath (inputs w) = Some path →
  folder_can_be_made w (strip path) →
  _load_settings w = (Ok (JObject d), w) →
  activeProduct w = Some design →
  ∃ fs',
    fs' !! strip path = Some Dir ∧
    let jobs := build_jobs (os_name w) (strip path) (body :: rest)
                  (raw_names (d_bodyListGroup (inputs w)) (body :: rest)) in
    let w0 := set_trace (trace w ++ [EMakedirs (strip path)])
                (set_files fs' w) in
    let w1 := match settings_write w with
              | WriteOk =>
                  set_settings_json
                    (Some (JObject ({[ text "outputPath" :=
                                         JString (strip path) ]} ∪ d))) w0
              | OpenFails => w0
              | DumpFails => set_settings_json None w0
              end in
    execute w
    = (match (run_jobs (QUALITY_get item) (strip path) jobs w1).1 with
       | Ok r => Ok (Some (jobs, r))
       | Raise e => Raise e
       end,
       (run_jobs (QUALITY_get item) (strip path) jobs w1).2).
Proof.
  intros Hsel Hq Hitem Hpath Hcan Hd%load_settings_dict Hdesign.
  destruct (os_makedirs_run (strip path) w) as (r & fs' & Hrun & Hok & _).
  destruct (Hok Hcan) as (-> & Hdir & _).
  exists fs'. split; [done|]. intros jobs w0 w1. subst jobs w0 w1.
  unfold execute. py_run.
  rewrite Hsel, Hq. cbn. rewrite Hitem. cbn. rewrite Hpath. cbn.
  rewrite Hrun, save_settings_run. cbn. rewrite Hd.
  destruct (settings_write w); cbn; rewrite Hdesign; cbn;
    unfold set_settings_json, set_files, set_trace; cbn;
    by destruct (run_jobs _ _ _ _) as [[r|e] w'].
Qed.

Lemma destination_not_folder (pf : Platform) (output_dir : str)
    (children : option (list Row)) (bodies : list Body) :
  output_dir
  ∉ (build_jobs pf output_dir bodies (raw_names children bodies)).*2.
Proof.
  intros Hin. apply list_elem_of_fmap in Hin as (job & Hdir & Hjob).
  destruct (proj1 (Forall_forall _ _)
              (job_destinations pf output_dir children bodies) job Hjob)
    as (fname & Hne & _ & Hshape).
  assert (length job.2 = length output_dir) as Hlen by by rewrite <- Hdir.
  rewrite Hshape, !length_app in Hlen.
  destruct fname; cbn in Hlen; [done|lia].
Qed.

(** X11.  With a selection, a quality, a design open, a folder that can
    be made (the path is not blank, and a directory is there or nothing
    is, no file is where a directory above it should be, and the missing
    directories can be made) and a settings file that is missing,
    unreadable or holds an object, the execute handler first makes sure
    of the output folder, then removes, then exports with the quality
    chosen in the drop-down, then shows the summary; the exports are for
    the first jobs of the job list, in order.  Afterwards the folder
    exists, and if the settings file can be written it holds the folder
    under [outputPath], next to what it held before. *)
Theorem execute_batch (w : World) (body : Body) (rest : list Body)
    (items : list (str * bool)) (item path : str) (design : Design)
    (d : gmap str jval) :
  d_bodySelection (inputs w) = Some (body :: rest) →
  d_quality (inputs w) = Some items →
  selectedItem items = Some item →
  d_outputPath (inputs w) = Some path →
  folder_can_be_made w (strip path) →
  _load_settings w = (Ok (JObject d), w) →
  activeProduct w = Some design →
  let jobs := build_jobs (os_name w) (strip path) (body :: rest)
                (raw_names (d_bodyListGroup (inputs w)) (body :: rest)) in
  let w' := _OnExecute_notify w in
  ∃ t n rems outcome,
    trace w'
    = trace w ++ [EMakedirs (strip path)]
        ++ ((λ r, ERemove r.1 r.2) <$> rems)
        ++ ((λ x, EExport x.1.1 x.1.2 (QUALITY_get item) x.2) <$> outcome)
        ++ [EMessageBox (MsgText (join [10%N] (summary t n (strip path))))] ∧
    outcome.*1 = take (length outcome) jobs ∧
    files w' !! strip path = Some Dir ∧
    inputs w' = inputs w ∧
    (settings_write w = WriteOk →
     settings_json w'
     = Some (JObject ({[ text "outputPath" := JString (strip path) ]} ∪ d))).
Proof.
  intros Hsel Hq Hitem Hpath Hcan Hd Hdesign jobs w'. subst w'.
  unfold _OnExecute_notify.
  destruct (execute_reaches_batch w body rest items item path design d)
    as (fs' & Hdir & ->); [done..|].
  fold jobs.
  match goal with |- context [run_jobs ?q ?dir jobs ?w1] =>
    set (w1' := w1);
    destruct (run_jobs_run q dir jobs w1')
      as (t & n & w' & rems & outcome & Hrun & Htr & _ & _ & _ & Hpre & _);
    destruct (keeps_run_jobs q dir jobs w1')
      as [(_ & _ & _ & Hi & Hs & _) Hfiles]
  end.
  rewrite Hrun in *. cbn [fst snd] in *.
  exists t, n, rems, outcome. split_and!.
  - rewrite Htr. subst w1'.
    destruct (settings_write w); cbn; by rewrite <- !(assoc_L (++)).
  - done.
  - rewrite Hfiles by apply destination_not_folder.
    subst w1'. by destruct (settings_write w).
  - rewrite Hi. subst w1'. by destruct (settings_write w).
  - intros Hw. rewrite Hs. subst w1'. by rewrite Hw.
Qed.

Lemma execute_batch_witness :
  let part := body_named "Part" "t1" in
  let w0 := quiet_world (mkDesign [mkComponent [part]])
              (created_dialog (text " /out/stl ")) in
  let w := user_selects 2 part w0 in
  trace (_OnExecute_notify w)
  = [EMakedirs (text "/out/stl");
     EExport part (text "/out/stl/Part.stl") MeshRefinementHigh None;
     EMessageBox
       (MsgText (text "Exported: 1" ++ [10%N; 10%N]
                 ++ text "Location: /out/stl"))] ∧
  files (_OnExecute_notify w) !! text "/out/stl" = Some Dir ∧
  settings_json (_OnExecute_notify w)
  = Some (JObject {[ text "outputPath" := JString (text "/out/stl") ]}).
Proof.
  intros part w0 w.
  destruct (execute_batch w part []
              [(text "High", true); (text "Medium", false); (text "Low", false)]
              (text "High") (text " /out/stl ")
              (mkDesign [mkComponent [part]]) ∅)
    as (t & n & rems & outcome & _ & _ & Hdir & _ & Hsaved);
    [reflexivity|reflexivity|reflexivity|reflexivity| |reflexivity
    |reflexivity|].
  - split; [by vm_compute|]. right. split_and!; [reflexivity| |].
    + intros q Hq. vm_compute in Hq.
      repeat (apply elem_of_cons in Hq as [->|Hq]; [reflexivity|]).
      by apply elem_of_nil in Hq.
    + intros q _ _. reflexivity.
  - split; [by vm_compute|]. split; [exact Hdir|].
    rewrite (Hsaved eq_refl). by vm_compute.
Defined.

(** X12.  When one of the inputs the handler reads is missing, it shows
    the failure in a message box and does nothing else.  When the folder
    cannot be made, because the path is blank or names a file, it stops
    there: nothing is removed or exported, the settings are not saved, and
    the failure is shown in a message box. *)
Theorem execute_aborts (w : World) :
  (d_bodySelection (inputs w) = None ∨
   d_quality (inputs w) = None ∨
   (∃ items, d_quality (inputs w) = Some items ∧ selectedItem items = None) ∨
   d_outputPath (inputs w) = None →
   _OnExecute_notify w
   = set_trace
       (trace w ++
        [EMessageBox
           (MsgTraceback (text "Export failed:" ++ [10%N])
              (Exn AttributeError (text "'NoneType' object has no attribute")))])
       w) ∧
  (∀ body rest items item path,
     d_bodySelection (inputs w) = Some (body :: rest) →
     d_quality (inputs w) = Some items →
     selectedItem items = Some item →
     d_outputPath (inputs w) = Some path →
     strip path = [] ∨ (∃ r, files w !! strip path = Some (File r)) →
     ∃ msg,
       _OnExecute_notify w
       = set_trace
           (trace w ++
            [EMakedirs (strip path);
             EMessageBox
               (MsgTraceback (text "Export failed:" ++ [10%N])
                  (Exn OSError msg))])
           w).
Proof.
  split.
  - intros Hmissing. unfold _OnExecute_notify, execute. py_run.
    destruct (d_bodySelection (inputs w)) as [sel|] eqn:Hsel; cbn; [|done].
    destruct (d_quality (inputs w)) as [items|] eqn:Hq; cbn; [|done].
    destruct (selectedItem items) as [item|] eqn:Hitem; cbn; [|done].
    destruct (d_outputPath (inputs w)) as [path|] eqn:Hpath; cbn; [|done].
    destruct Hmissing as [?|[?|[(items' & [= <-] & ?)|?]]]; congruence.
  - intros body rest items item path Hsel Hq Hitem Hpath Hbad.
    unfold _OnExecute_notify, execute. py_run.
    rewrite Hsel, Hq. cbn. rewrite Hitem. cbn. rewrite Hpath. cbn.
    destruct (os_makedirs_run (strip path) w) as (r & fs' & -> & _ & Hfail).
    destruct Hfail as [[msg ->] ->].
    { destruct Hbad as [?|[r' Hfile]]; [by left|].
      right. left. by rewrite Hfile. }
    exists msg. rewrite set_files_same. unfold set_trace. cbn.
    by rewrite <- (assoc_L (++)).
Qed.

Lemma execute_aborts_witness :
  let part := body_named "Part" "t1" in
  let w0 := quiet_world (mkDesign [mkComponent [part]])
              (created_dialog (text "   ")) in
  let w := user_selects 2 part w0 in
  ∃ msg,
    _OnExecute_notify w
    = set_trace
        [EMakedirs [];
         EMessageBox
           (MsgTraceback (text "Export failed:" ++ [10%N]) (Exn OSError msg))]
        w.
Proof.
  intros part w0 w.
  destruct (execute_aborts w) as [_ Hdir].
  apply (Hdir part []
           [(text "High", true); (text "Medium", false); (text "Low", false)]
           (text "High") (text "   "));
    [reflexivity|reflexivity|reflexivity|reflexivity|by left].
Defined.

(** X13.  With nothing selected the execute handler shows
    [No bodies selected.] and does nothing else: no folder is made, no
    settings are saved, nothing is removed or exported. *)
Theorem execute_nothing_selected (w : World) (items : list (str * bool))
    (item path : str) :
  d_bodySelection (inputs w) = Some [] →
  d_quality (inputs w) = Some items →
  selectedItem items = Some item →
  d_outputPath (inputs w) = Some path →
  _OnExecute_notify w
  = set_trace (trace w ++ [EMessageBox (MsgText (text "No bodies selected."))])
      w.
Proof.
  intros Hsel Hq Hitem Hpath. unfold _OnExecute_notify, execute. py_run.
  rewrite Hsel, Hq. cbn. rewrite Hitem. cbn. by rewrite Hpath.
Qed.

Lemma execute_nothing_selected_witness :
  let w := quiet_world (mkDesign []) (created_dialog (text "/out")) in
  _OnExecute_notify w
  = set_trace [EMessageBox (MsgText (text "No bodies selected."))] w.
Proof.
  intros w.
  apply (execute_nothing_selected w
           [(text "High", true); (text "Medium", false); (text "Low", false)]
           (text "High") (text "/out"));
    reflexivity.
Defined.

Lemma message_boxes_app (t1 t2 : list Effect) :
  message_boxes (t1 ++ t2) = message_boxes t1 ++ message_boxes t2.
Proof. apply omap_app. Qed.

Lemma message_boxes_removes (rems : list (str * bool)) :
  message_boxes ((λ r, ERemove r.1 r.2) <$> rems) = [].
Proof. by induction rems. Qed.

Lemma message_boxes_exports (q : MeshRefinement)
    (outcome : list (Body * str * option str)) :
  message_boxes ((λ x, EExport x.1.1 x.1.2 q x.2) <$> outcome) = [].
Proof. by induction outcome. Qed.

(** Closes a goal on the message boxes of a trace that is known but for
    its first part. *)
Ltac one_box :=
  eexists; cbn; rewrite ?message_boxes_app; cbn;
  rewrite ?app_nil_r, <- ?(assoc_L (++)); reflexivity.

(** X14.  Every run of the execute handler shows exactly one message box,
    whatever the inputs, the disk, the settings file, the user and the
    export facility do: the summary, the notice that nothing is selected,
    or the report of a failure. *)
Theorem execute_one_message_box (w : World) :
  ∃ m, message_boxes (trace (_OnExecute_notify w))
       = message_boxes (trace w) ++ [m].
Proof.
  unfold _OnExecute_notify.
  destruct (d_bodySelection (inputs w)) as [sel|] eqn:Hsel;
    [|unfold execute; py_run; rewrite Hsel; one_box].
  destruct (d_quality (inputs w)) as [items|] eqn:Hq;
    [|unfold execute; py_run; rewrite Hsel, Hq; one_box].
  destruct (selectedItem items) as [item|] eqn:Hitem;
    [|unfold execute; py_run; rewrite Hsel, Hq; cbn; rewrite Hitem; one_box].
  destruct (d_outputPath (inputs w)) as [path|] eqn:Hpath;
    [|unfold execute; py_run; rewrite Hsel, Hq; cbn; rewrite Hitem; cbn;
      rewrite Hpath; one_box].
  destruct sel as [|body rest];
    [unfold execute; py_run; rewrite Hsel, Hq; cbn; rewrite Hitem; cbn;
     rewrite Hpath; one_box|].
  unfold execute. py_run.
  rewrite Hsel, Hq. cbn. rewrite Hitem. cbn. rewrite Hpath. cbn.
  destruct (os_makedirs_run (strip path) w) as (r & fs' & -> & _).
  destruct r as [[]|e]; [|one_box].
  rewrite save_settings_run. cbn.
  destruct (default (JObject ∅) (settings_json w)) as [d|l|v]; [|one_box..].
  cbn.
  destruct (activeProduct w) as [design|] eqn:Hdesign;
    [|destruct (settings_write w); cbn; rewrite Hdesign; one_box].
  destruct (settings_write w); cbn; rewrite Hdesign; cbn;
    match goal with |- context [run_jobs ?q ?d ?jobs ?w1] =>
      destruct (run_jobs_run q d jobs w1)
        as (t & n & w' & rems & outcome & Hrun & Htr & _);
      rewrite Hrun; cbn; rewrite Htr;
      exists (MsgText (join [10%N] (summary t n d)));
      rewrite !message_boxes_app, message_boxes_removes,
        message_boxes_exports; cbn;
      rewrite ?message_boxes_app; cbn; by rewrite !app_nil_r
    end.
Qed.

(** X19.  When nothing is at the path and a file is where a directory
    above it should be, the folder cannot be made: the execute handler
    stops there, with nothing removed or exported, no file changed and the
    settings not saved, and shows the failure in a message box. *)
Theorem execute_blocked_above (w : World) (body : Body) (rest : list Body)
    (items : list (str * bool)) (item path above : str) :
  d_bodySelection (inputs w) = Some (body :: rest) →
  d_quality (inputs w) = Some items →
  selectedItem items = Some item →
  d_outputPath (inputs w) = Some path →
  files w !! strip path = None →
  above ∈ ancestors (os_name w) (strip path) →
  is_file (files w !! above) = true →
  ∃ msg,
    _OnExecute_notify w
    = set_trace
        (trace w ++
         [EMakedirs (strip path);
          EMessageBox
            (MsgTraceback (text "Export failed:" ++ [10%N])
               (Exn OSError msg))])
        w.
Proof.
  intros Hsel Hq Hitem Hpath Hnone Habove Hfile.
  unfold _OnExecute_notify, execute. py_run.
  rewrite Hsel, Hq. cbn. rewrite Hitem. cbn. rewrite Hpath. cbn.
  destruct (os_makedirs_run (strip path) w) as (r & fs' & -> & _ & Hfail).
  destruct Hfail as [[msg ->] ->].
  { right. right. split; [done|]. by exists above. }
  exists msg. rewrite set_files_same. unfold set_trace. cbn.
  by rewrite <- (assoc_L (++)).
Qed.

Lemma execute_blocked_above_witness :
  let part := body_named "Part" "t1" in
  let w0 := set_files {[ text "/out" := File true ]}
              (quiet_world (mkDesign [mkComponent [part]])
                 (created_dialog (text "/out/sub"))) in
  let w := user_selects 2 part w0 in
  ∃ msg,
    _OnExecute_notify w
    = set_trace
        [EMakedirs (text "/out/sub");
         EMessageBox
           (MsgTraceback (text "Export failed:" ++ [10%N]) (Exn OSError msg))]
        w.
Proof.
  intros part w0 w.
  apply (execute_blocked_above w part []
           [(text "High", true); (text "Medium", false); (text "Low", false)]
           (text "High") (text "/out/sub") (text "/out"));
    [reflexivity|reflexivity|reflexivity|reflexivity|reflexivity|elem_now
    |reflexivity].
Defined.

(** X20.  When [settings.json] holds a document that is not an object,
    the execute handler makes the folder and then fails on saving it:
    nothing is removed or exported, the settings file is left as it is,
    and the failure, an [AttributeError], is shown in a message box. *)
Theorem execute_settings_not_dict (w : World) (body : Body)
    (rest : list Body) (items : list (str * bool)) (item path : str)
    (o : json) :
  d_bodySelection (inputs w) = Some (body :: rest) →
  d_quality (inputs w) = Some items →
  selectedItem items = Some item →
  d_outputPath (inputs w) = Some path →
  folder_can_be_made w (strip path) →
  _load_settings w = (Ok o, w) →
  (∀ d, o ≠ JObject d) →
  let w' := _OnExecute_notify w in
  (∃ msg,
     trace w'
     = trace w ++
       [EMakedirs (strip path);
        EMessageBox
          (MsgTraceback (text "Export failed:" ++ [10%N])
             (Exn AttributeError msg))]) ∧
  files w' !! strip path = Some Dir ∧
  settings_json w' = settings_json w ∧
  inputs w' = inputs w.
Proof.
  intros Hsel Hq Hitem Hpath Hcan Ho%load_settings_dict Hnot w'. subst w'.
  unfold _OnExecute_notify, execute. py_run.
  rewrite Hsel, Hq. cbn. rewrite Hitem. cbn. rewrite Hpath. cbn.
  destruct (os_makedirs_run (strip path) w) as (r & fs' & -> & Hok & _).
  destruct (Hok Hcan) as (-> & Hdir & _).
  rewrite save_settings_run. cbn. rewrite Ho.
  destruct o as [d|l|v]; [by destruct (Hnot d)|..]; cbn;
    (split_and!; [|done..]); eexists; by rewrite <- (assoc_L (++)).
Qed.

Lemma execute_settings_not_dict_witness :
  let part := body_named "Part" "t1" in
  let w0 := set_settings_json (Some (JValue JNull))
              (quiet_world (mkDesign [mkComponent [part]])
                 (created_dialog (text "/out"))) in
  let w := user_selects 2 part w0 in
  files (_OnExecute_notify w) !! text "/out" = Some Dir ∧
  settings_json (_OnExecute_notify w) = Some (JValue JNull).
Proof.
  intros part w0 w.
  destruct (execute_settings_not_dict w part []
              [(text "High", true); (text "Medium", false); (text "Low", false)]
              (text "High") (text "/out") (JValue JNull))
    as (_ & Hdir & Hsettings & _);
    [reflexivity|reflexivity|reflexivity|reflexivity| |reflexivity|done|].
  - split; [by vm_compute|]. right. split_and!; [reflexivity| |].
    + intros q Hq. vm_compute in Hq. by apply elem_of_nil in Hq.
    + intros q _ _. reflexivity.
  - split; [exact Hdir|exact Hsettings].
Defined.

(** ** Opening the dialog *)

Lemma command_created_run (downloads : str) (w : World) (design : Design)
    (d : gmap str jval) (saved_path : str) :
  activeProduct w = Some design →
  _load_settings w = (Ok (JObject d), w) →
  match d !! text "outputPath" with
  | None => saved_path = downloads
  | Some (JString s) => saved_path = s
  | Some _ => False
  end →
  _OnCommandCreated_notify downloads w
  = set_custom_names ∅ (set_inputs (created_dialog saved_path) w).
Proof.
  intros Hdesign Hd%load_settings_dict Hsaved.
  unfold _OnCommandCreated_notify, command_created, add_input, _load_settings.
  py_run. rewrite Hdesign. cbn. rewrite Hd. cbn.
  destruct (d !! text "outputPath") as [[s| | |]|]; try done; by subst.
Qed.

(** X15.  Opening the dialog with a design open and a settings file that
    is missing, unreadable or holds an object leaves the inputs as new:
    nothing selected, select-all unchecked, no rows, High selected, the
    browse button up, and in the path field the folder saved in the
    settings, or the downloads folder when none is saved.  The names typed
    in an earlier session are gone.  No message box is shown, and the
    inputs are not yet valid.  Without a design the command gets no inputs
    and a message box says so.  With a design open and a settings file
    that holds a document that is not an object, the handler fails before
    it makes the path field: an [AttributeError] is shown in a message
    box, and the dialog is left without path field and browse button. *)
Theorem dialog_opens_fresh (downloads : str) (w : World) :
  (∀ design d saved_path,
     activeProduct w = Some design →
     _load_settings w = (Ok (JObject d), w) →
     match d !! text "outputPath" with
     | None => saved_path = downloads
     | Some (JString s) => saved_path = s
     | Some _ => False
     end →
     let w' := _OnCommandCreated_notify downloads w in
     inputs w' = created_dialog saved_path ∧
     _custom_names w' = ∅ ∧
     trace w' = trace w ∧
     _OnValidateInputs_notify w' = false) ∧
  (activeProduct w = None →
   let w' := _OnCommandCreated_notify downloads w in
   inputs w' = no_inputs ∧
   _custom_names w' = _custom_names w ∧
   trace w'
   = trace w ++
     [EMessageBox (MsgText (text "No active design." ++ [10%N] ++
                            text "Open or create a design first."))] ∧
   _OnValidateInputs_notify w' = false) ∧
  (∀ design o,
     activeProduct w = Some design →
     _load_settings w = (Ok o, w) →
     (∀ d, o ≠ JObject d) →
     let w' := _OnCommandCreated_notify downloads w in
     (∃ msg,
        trace w'
        = trace w ++
          [EMessageBox (MsgTraceback [] (Exn AttributeError msg))]) ∧
     d_outputPath (inputs w') = None ∧
     d_browseFolder (inputs w') = None ∧
     _custom_names w' = ∅ ∧
     _OnValidateInputs_notify w' = false).
Proof.
  split_and!.
  - intros design d saved_path Hdesign Hd Hsaved w'. subst w'.
    by rewrite (command_created_run downloads w design d saved_path).
  - intros Hnone w'. subst w'.
    unfold _OnCommandCreated_notify, command_created. py_run.
    by rewrite Hnone.
  - intros design o Hdesign Ho%load_settings_dict Hnot w'. subst w'.
    unfold _OnCommandCreated_notify, command_created, add_input,
      _load_settings, no_attribute.
    py_run. rewrite Hdesign. cbn. rewrite Ho.
    destruct o as [d|l|v]; [by destruct (Hnot d)|..]; cbn;
      (split_and!; [|done..]); by eexists.
Qed.

Lemma dialog_opens_fresh_witness :
  let w := set_custom_names {[ text "t1" := text "Top" ]}
             (set_settings_json
                (Some (JObject
                         {[ text "outputPath" := JString (text "/exports") ]}))
                (quiet_world (mkDesign []) no_inputs)) in
  inputs (_OnCommandCreated_notify (text "/home/me/Downloads") w)
  = created_dialog (text "/exports") ∧
  _custom_names (_OnCommandCreated_notify (text "/home/me/Downloads") w) = ∅ ∧
  d_outputPath
    (inputs (_OnCommandCreated_notify (text "/home/me/Downloads")
               (set_settings_json (Some (JList [])) w)))
  = None.
Proof.
  intros w.
  destruct (dialog_opens_fresh (text "/home/me/Downloads") w) as [Hopen _].
  destruct (Hopen (mkDesign [])
              {[ text "outputPath" := JString (text "/exports") ]}
              (text "/exports") eq_refl eq_refl)
    as (Hinputs & Hnames & _); [by vm_compute|].
  destruct (dialog_opens_fresh (text "/home/me/Downloads")
              (set_settings_json (Some (JList [])) w)) as (_ & _ & Hbad).
  destruct (Hbad (mkDesign []) (JList []) eq_refl eq_refl) as (_ & Hpath & _);
    [done|].
  split_and!; [exact Hinputs|exact Hnames|exact Hpath].
Defined.

(** X16.  The folder of a batch is offered again: after the execute
    handler ran a batch (the folder could be made, the settings file was
    missing, unreadable or held an object, and could be written), the
    dialog, opened anew, has the folder of that batch in its path field,
    stripped of the blanks around it. *)
Theorem folder_remembered (downloads : str) (w : World) (body : Body)
    (rest : list Body) (items : list (str * bool)) (item path : str)
    (design : Design) (d : gmap str jval) :
  d_bodySelection (inputs w) = Some (body :: rest) →
  d_quality (inputs w) = Some items →
  selectedItem items = Some item →
  d_outputPath (inputs w) = Some path →
  folder_can_be_made w (strip path) →
  _load_settings w = (Ok (JObject d), w) →
  activeProduct w = Some design →
  settings_write w = WriteOk →
  d_outputPath
    (inputs (_OnCommandCreated_notify downloads (_OnExecute_notify w)))
  = Some (strip path).
Proof.
  intros Hsel Hq Hitem Hpath Hcan Hd Hdesign Hw.
  assert (activeProduct (_OnExecute_notify w) = Some design ∧
          settings_json (_OnExecute_notify w)
          = Some (JObject ({[ text "outputPath" := JString (strip path) ]}
                           ∪ d))) as [Ha Hs].
  { unfold _OnExecute_notify.
    destruct (execute_reaches_batch w body rest items item path design d)
      as (fs' & _ & ->); [done..|].
    match goal with |- context [run_jobs ?q ?dir ?jobs ?w1] =>
      destruct (run_jobs_run q dir jobs w1) as (t & n & w' & rems & o & Hrun & _);
      destruct (keeps_run_jobs q dir jobs w1) as [(_ & _ & Ha & _ & Hs & _) _];
      rewrite Hrun in *
    end.
    cbn [fst snd] in *. rewrite Ha, Hs, Hw. done. }
  rewrite (command_created_run downloads _ design
             ({[ text "outputPath" := JString (strip path) ]} ∪ d)
             (strip path)); [done|done| |].
  - unfold _load_settings, gets. by rewrite Hs.
  - by rewrite lookup_union_l', lookup_singleton_eq
      by (rewrite lookup_singleton_eq; by eexists).
Qed.

Lemma folder_remembered_witness :
  let part := body_named "Part" "t1" in
  let w0 := quiet_world (mkDesign [mkComponent [part]])
              (created_dialog (text " /out ")) in
  let w := user_selects 2 part w0 in
  d_outputPath
    (inputs (_OnCommandCreated_notify (text "/home/me/Downloads")
               (_OnExecute_notify w)))
  = Some (text "/out").
Proof.
  intros part w0 w.
  rewrite (folder_remembered (text "/home/me/Downloads") w part []
             [(text "High", true); (text "Medium", false); (text "Low", false)]
             (text "High") (text " /out ") (mkDesign [mkComponent [part]]) ∅);
    [by vm_compute|reflexivity|reflexivity|reflexivity|reflexivity|
    |reflexivity|reflexivity|reflexivity].
  split; [by vm_compute|]. right. split_and!; [reflexivity| |].
  - intros q Hq. vm_compute in Hq. by apply elem_of_nil in Hq.
  - intros q _ _. reflexivity.
Defined.

(** ** Starting and stopping the add-in *)

(** X17.  Starting and then stopping the add-in leaves the user interface
    as it was: where the host has the add-ins panel and the command was
    registered nowhere, [run] registers the command definition and its
    button in that panel, keeps one handler and shows nothing, and [stop]
    then removes both again, so that the command definitions and all the
    panels are those from before the start, and no handler is kept. *)
Theorem run_stop_round_trip (u : Ui) (controls : gset str) :
  allToolbarPanels u !! ADDINS_PANEL = Some controls →
  CMD_ID ∉ commandDefinitions u →
  CMD_ID ∉ controls →
  (CMD_ID ∈ commandDefinitions (run u) ∧
   allToolbarPanels (run u) !! ADDINS_PANEL = Some (controls ∪ {[ CMD_ID ]}) ∧
   _handlers (run u) = _handlers u ++ [OnCommandCreated] ∧
   boxes (run u) = boxes u) ∧
  commandDefinitions (stop (run u)) = commandDefinitions u ∧
  allToolbarPanels (stop (run u)) = allToolbarPanels u ∧
  _handlers (stop (run u)) = [] ∧
  boxes (stop (run u)) = boxes u.
Proof.
  intros Hpanel Hdef Hctrl.
  assert (Hrun : run u
    = mkUi (commandDefinitions u ∪ {[ CMD_ID ]})
        (<[ADDINS_PANEL := controls ∪ {[ CMD_ID ]}]> (allToolbarPanels u))
        (_handlers u ++ [OnCommandCreated]) (boxes u)).
  { unfold run. rewrite Hpanel.
    by rewrite !decide_False by done. }
  rewrite Hrun. unfold stop.
  cbn [allToolbarPanels commandDefinitions _handlers boxes].
  rewrite lookup_insert_eq.
  rewrite !decide_True by (apply elem_of_union_r, elem_of_singleton; done).
  cbn [allToolbarPanels commandDefinitions _handlers boxes].
  split_and!; try done.
  - apply elem_of_union_r, elem_of_singleton; done.
  - apply set_eq. intros x.
    rewrite elem_of_difference, elem_of_union, elem_of_singleton.
    split; [tauto|]. intros Hx. split; [tauto|]. by intros ->.
  - rewrite insert_insert_eq. apply insert_id. rewrite Hpanel. f_equal.
    apply set_eq. intros x.
    rewrite elem_of_difference, elem_of_union, elem_of_singleton.
    split; [|tauto]. intros Hx. split; [tauto|]. by intros ->.
Qed.

Lemma run_stop_round_trip_witness :
  let u := mkUi {[ text "otherCmd" ]}
             {[ ADDINS_PANEL := {[ text "otherCmd" ]} ]} [] [] in
  commandDefinitions (stop (run u)) = commandDefinitions u ∧
  allToolbarPanels (stop (run u)) = allToolbarPanels u.
Proof.
  intros u.
  destruct (run_stop_round_trip u {[ text "otherCmd" ]})
    as (_ & Hdefs & Hpanels & _).
  - subst u. cbn. apply lookup_singleton_eq.
  - subst u. cbn. rewrite elem_of_singleton. by vm_compute.
  - rewrite elem_of_singleton. by vm_compute.
  - split; [exact Hdefs|exact Hpanels].
Defined.

(** X18.  Where the host has no add-ins panel, [run] fails half-way: the
    command definition is registered all the same, no button is placed
    and no handler is kept, the panels are left as they were, and one
    message box reports that the start failed.  [stop] afterwards removes
    the definition and shows nothing more. *)
Theorem run_without_panel (u : Ui) :
  allToolbarPanels u !! ADDINS_PANEL = None →
  (CMD_ID ∈ commandDefinitions (run u) ∧
   (∀ id, id ≠ CMD_ID →
      id ∈ commandDefinitions (run u) ↔ id ∈ commandDefinitions u) ∧
   allToolbarPanels (run u) = allToolbarPanels u ∧
   _handlers (run u) = _handlers u ∧
   ∃ e, boxes (run u)
        = boxes u ++
          [MsgTraceback (text "Multi Mesh Export failed to start:" ++ [10%N])
             (Exn AttributeError e)]) ∧
  (CMD_ID ∉ commandDefinitions (stop (run u))) ∧
  (∀ id, id ≠ CMD_ID →
     id ∈ commandDefinitions (stop (run u)) ↔ id ∈ commandDefinitions u) ∧
  allToolbarPanels (stop (run u)) = allToolbarPanels u ∧
  boxes (stop (run u)) = boxes (run u).
Proof.
  intros Hpanel.
  assert (Hin : ∀ id, id ≠ CMD_ID →
            id ∈ commandDefinitions (run u) ↔ id ∈ commandDefinitions u).
  { intros id Hid. unfold run. rewrite Hpanel. cbn.
    destruct (decide (CMD_ID ∈ commandDefinitions u));
      rewrite elem_of_union, ?elem_of_difference, elem_of_singleton; tauto. }
  assert (Hreg : CMD_ID ∈ commandDefinitions (run u)).
  { unfold run. rewrite Hpanel. cbn.
    apply elem_of_union_r, elem_of_singleton; done. }
  assert (Hpanels : allToolbarPanels (run u) = allToolbarPanels u).
  { unfold run. by rewrite Hpanel. }
  split_and!; try done.
  - unfold run. by rewrite Hpanel.
  - unfold run. rewrite Hpanel. by eexists.
  - unfold stop. cbn. rewrite decide_True by done.
    rewrite elem_of_difference, elem_of_singleton. tauto.
  - intros id Hid. rewrite <- (Hin id Hid). unfold stop. cbn.
    rewrite decide_True by done.
    rewrite elem_of_difference, elem_of_singleton. tauto.
  - unfold stop. cbn. by rewrite Hpanels, Hpanel.
Qed.

Lemma run_without_panel_witness :
  let u := mkUi {[ text "otherCmd" ]} ∅ [] [] in
  CMD_ID ∈ commandDefinitions (run u) ∧ _handlers (run u) = [].
Proof.
  intros u.
  destruct (run_without_panel u) as ((Hreg & _ & _ & Hh & _) & _).
  - reflexivity.
  - split; [exact Hreg|exact Hh].
Defined.
